(** * Auction Signal analytics adapter: a shallow embedding and its properties

    Source: [modules/auctionSignalAnalyticsAdapter.js].

    Conventions of the embedding.
    - The numeric routines ([round2], [calculateCpmStats],
      [calculateAuctionSignal]) are written once over an interface of
      number operations ([JsNumber]) with two instances: IEEE-754 binary64
      ([Module Binary64], on [SpecFloat]), which is what JavaScript
      computes, and exact rationals ([Q]).  Records and payloads carry
      rationals.  A statement about numbers that is proved for exact
      arithmetic says so; where doubles differ, the difference is a
      lemma of its own.
    - JavaScript objects are association lists in property-insertion order.
    - The handlers [onBidRequested], [onBidResponse], [onNoBid] and
      [onAuctionEnd] read the per-auction table [auctionCache] through its
      own properties, a finite map; [track] is the adapter on the table as
      a JavaScript object, whose lookups also reach [Object.prototype].
    - [enableAnalytics] takes a configuration whose parts are objects;
      [enableAnalytics_call] adds the [null] and [undefined] parts on which
      the call throws.
    - Logging has no effect on the adapter and is left out. *)

From Stdlib Require Import QArith Qround Qminmax ZArith List String Bool Lia Lqa.
From Stdlib Require Import Sorted Permutation SpecFloat Qpower.
From stdpp Require Import gmap strings list sorting.
Import ListNotations.

Local Open Scope string_scope.
Local Open Scope list_scope.
Local Open Scope Z_scope.

(** ** Numbers *)

(** The operations the adapter performs on numbers. *)
Class JsNumber (num : Type) : Type := {
  num_lit : Q -> num;              (* a numeric literal, an integer count *)
  num_add : num -> num -> num;     (* a + b *)
  num_sub : num -> num -> num;     (* a - b *)
  num_mul : num -> num -> num;     (* a * b *)
  num_div : num -> num -> num;     (* a / b *)
  num_gt : num -> num -> bool;     (* a > b *)
  Math_min : num -> num -> num;    (* Math.min(a, b) *)
  Math_round : num -> num          (* Math.round(a) *)
}.

Declare Scope js_scope.
Delimit Scope js_scope with js.
Infix "+" := num_add : js_scope.
Infix "-" := num_sub : js_scope.
Infix "*" := num_mul : js_scope.
Infix "/" := num_div : js_scope.

(** Rationals: exact arithmetic; [Math.round] rounds half up. *)
#[export] Instance Q_number : JsNumber Q := {|
  num_lit q := q;
  num_add := Qplus;
  num_sub := Qminus;
  num_mul := Qmult;
  num_div := Qdiv;
  num_gt a b := negb (Qle_bool a b);
  Math_min a b := if Qle_bool a b then a else b;
  Math_round a := inject_Z (Qfloor (a + (1 # 2)))
|}.

Section Numeric.
Context {num : Type} `{JsNumber num}.
Local Open Scope js_scope.

(** [Math.round(x * 100) / 100], as written at each use in the source. *)
Definition round2 (x : num) : num :=
  Math_round (x * num_lit 100) / num_lit 100.

(** [(a, b) => a - b], the comparator handed to [sort]: [b] goes before
    [a] exactly when the difference is positive. *)
Definition comparator (a b : num) : num := a - b.

Fixpoint sort_insert (x : num) (l : list num) : list num :=
  match l with
  | [] => [x]
  | y :: l' =>
      if num_gt (comparator x y) (num_lit 0)
      then y :: sort_insert x l'
      else x :: l
  end.

(** [[...cpms].sort(cmp)]: a stable sort of a copy. *)
Fixpoint sort (l : list num) : list num :=
  match l with
  | [] => []
  | x :: l' => sort_insert x (sort l')
  end.

Record CpmStats : Type := {
  avg : num;
  max : num;
  min : num;
  median : num
}.

(** [sorted[i]]; every index used below is in range. *)
Definition at_index (l : list num) (i : nat) : num :=
  nth i l (num_lit 0).

Definition calculateCpmStats (cpms : list num) : CpmStats :=
  if Nat.eqb (length cpms) 0 then
    {| avg := num_lit 0; max := num_lit 0; min := num_lit 0;
       median := num_lit 0 |}
  else
    let sorted := sort cpms in
    let sum := fold_left (fun a b => a + b) cpms (num_lit 0) in
    let avg := sum / num_lit (inject_Z (Z.of_nat (length cpms))) in
    let min := at_index sorted 0 in
    let max := at_index sorted (length sorted - 1) in
    let mid := Nat.div (length sorted) 2 in
    let median :=
      if negb (Nat.eqb (Nat.modulo (length sorted) 2) 0)
      then at_index sorted mid
      else (at_index sorted (mid - 1) + at_index sorted mid) / num_lit 2 in
    {| avg := round2 avg; max := round2 max; min := round2 min;
       median := round2 median |}.

Definition calculateAuctionSignal (fillRate avgCpm uniqueBidders : num)
  : num :=
  let fillRateScore := Math_min fillRate (num_lit 1) in
  let normalizedCpm := Math_min (avgCpm / num_lit 10) (num_lit 1) in
  let bidderDiversityScore :=
    Math_min (uniqueBidders / num_lit 10) (num_lit 1) in
  let score :=
    (fillRateScore * num_lit 0.4) + (normalizedCpm * num_lit 0.4)
    + (bidderDiversityScore * num_lit 0.2) in
  round2 score.
End Numeric.

Arguments CpmStats num : clear implicits.


(** ** Values and objects *)

(** The JavaScript values that occur in event arguments and payloads. *)
#[warnings="-register-all"]
Inductive value : Type :=
| VUndefined
| VNull
| VBool (b : bool)
| VNum (q : Q)
| VStr (s : string)
| VArr (items : list value)
| VObj (props : list (string * value)).

(** An object: its own properties, in insertion order. *)
Abbreviation obj := (list (string * value)).

Definition truthy (v : value) : bool :=
  match v with
  | VUndefined | VNull => false
  | VBool b => b
  | VNum q => negb (Qeq_bool q 0)
  | VStr s => negb (String.eqb s EmptyString)
  | VArr _ | VObj _ => true
  end.

Definition nullish (v : value) : bool :=
  match v with
  | VUndefined | VNull => true
  | _ => false
  end.

Fixpoint obj_get (o : obj) (k : string) : option value :=
  match o with
  | [] => None
  | (k', v) :: o' => if String.eqb k' k then Some v else obj_get o' k
  end.

(** [o[k] = v]: an existing property keeps its place. *)
Fixpoint obj_set (o : obj) (k : string) (v : value) : obj :=
  match o with
  | [] => [(k, v)]
  | (k', v') :: o' =>
      if String.eqb k' k then (k', v) :: o' else (k', v') :: obj_set o' k v
  end.

(** [delete o[k]]. *)
Fixpoint obj_delete (o : obj) (k : string) : obj :=
  match o with
  | [] => []
  | (k', v') :: o' =>
      if String.eqb k' k then obj_delete o' k else (k', v') :: obj_delete o' k
  end.

(** [Object.keys(o)]. *)
Definition obj_keys (o : obj) : list string := map fst o.

(** [v.k] for a [v] that is neither [null] nor [undefined].  The keys read
    by the adapter are not properties of arrays or primitives. *)
Definition get (v : value) (k : string) : value :=
  match v with
  | VObj o => match obj_get o k with Some x => x | None => VUndefined end
  | _ => VUndefined
  end.

(** [v?.k]. *)
Definition get_opt (v : value) (k : string) : value :=
  if nullish v then VUndefined else get v k.

(** Normal completion or a thrown [TypeError]. *)
Inductive completion (A : Type) : Type :=
| Normal (a : A)
| Throw.
Arguments Normal {A} a.
Arguments Throw {A}.

#[export] Instance completion_ret : MRet completion := @Normal.
#[export] Instance completion_bind : MBind completion :=
  fun A B k c =>
    match c with
    | Normal a => k a
    | Throw => Throw
    end.

(** [v.k], which throws when [v] is [null] or [undefined]. *)
Definition get_strict (v : value) (k : string) : completion value :=
  if nullish v then Throw else Normal (get v k).

(** ** Content context *)

Definition is_array (v : value) : bool :=
  match v with VArr _ => true | _ => false end.

Definition array_length (v : value) : nat :=
  match v with VArr l => length l | _ => 0%nat end.

(** [null] is [None]. *)
Definition buildContextObject (siteContent : value) : option obj :=
  if negb (truthy siteContent)
     || (negb (truthy (get siteContent "language"))
         && negb (truthy (get siteContent "keywords")))
  then None
  else
    let context : obj := [] in
    let context :=
      if truthy (get siteContent "language")
      then obj_set context "language" (get siteContent "language")
      else context in
    let context :=
      if truthy (get siteContent "keywords")
         && is_array (get siteContent "keywords")
         && Nat.ltb 0 (array_length (get siteContent "keywords"))
      then obj_set context "keywords" (get siteContent "keywords")
      else context in
    if Nat.ltb 0 (length (obj_keys context))
    then Some (obj_set context "source" (VStr "ortb2"))
    else None.

(** [ortb2?.site?.content]. *)
Definition ortb2_site_content (ortb2 : value) : value :=
  get_opt (get_opt ortb2 "site") "content".

(** The [for] loop over [auctionArgs.bidderRequests]: [Some r] when the
    loop body executes [return r], [None] when the loop runs to its end. *)
Fixpoint scan_bidderRequests (reqs : list value)
  : completion (option (option obj)) :=
  match reqs with
  | [] => Normal None
  | bidderRequest :: rest =>
      get_strict bidderRequest "bidderCode" ;;
      let content := ortb2_site_content (get bidderRequest "ortb2") in
      if truthy content
      then Normal (Some (buildContextObject content))
      else scan_bidderRequests rest
  end.

(** The argument of the AUCTION_END event. *)
Record AuctionEndArgs : Type := {
  end_auctionId : string;
  end_auctionEnd : option Z;           (* [None]: not supplied *)
  end_bidderRequests : option (list value);
  end_ortb2 : value
}.

(** The body of the [try] block; [globalConfigOrtb2] is what
    [pbjs.getConfig('ortb2')] returns. *)
Definition getContentContext_try (auctionArgs : AuctionEndArgs)
    (globalConfigOrtb2 : value) : completion (option obj) :=
  found ← match end_bidderRequests auctionArgs with
          | Some reqs => scan_bidderRequests reqs
          | None => Normal None
          end;
  match found with
  | Some r => Normal r
  | None =>
      if truthy (ortb2_site_content (end_ortb2 auctionArgs))
      then Normal (buildContextObject
                     (ortb2_site_content (end_ortb2 auctionArgs)))
      else
        let globalOrtb2 :=
          if truthy globalConfigOrtb2 then globalConfigOrtb2 else VObj [] in
        if truthy (ortb2_site_content globalOrtb2)
        then Normal (buildContextObject (ortb2_site_content globalOrtb2))
        else Normal None
  end.

Definition getContentContext (auctionArgs : AuctionEndArgs)
    (globalConfigOrtb2 : value) : option obj :=
  match getContentContext_try auctionArgs globalConfigOrtb2 with
  | Normal r => r
  | Throw => None
  end.

(** ** Configuration *)

Definition ADAPTER_VERSION : string := "1.1.0".

Inductive DataMode : Type := Raw | Index | Both.

Definition PAYLOAD_FIELDS : list string :=
  [ "domain"; "pageUrl"; "publisherId"; "timestamp"; "auctionId";
    "adapterVersion"; "pbjsVersion"; "adUnits"; "bidderRequests";
    "bidResponses"; "noBids"; "uniqueBidders"; "bidderList"; "cpmStats";
    "fillRate"; "auctionDuration" ].

(** [PAYLOAD_FIELDS.includes(field)]. *)
Definition includes (l : list string) (field : string) : bool :=
  existsb (String.eqb field) l.

(** What a caller can pass as an [excludeFields] option. *)
Inductive FieldsOption : Type :=
| FieldsFalsy                        (* absent, or another falsy value *)
| FieldsNotArray                     (* truthy, but not an array *)
| FieldsArray (fields : list string).

(** A vendor entry as passed to [enableAnalytics]. *)
Record VendorOptions : Type := {
  opt_name : value;
  opt_endpoint : value;
  opt_dataMode : value;
  opt_excludeFields : FieldsOption
}.

(** [options] of the adapter configuration; [opt_vendors] is [None] when
    the option is missing or not an array. *)
Record Options : Type := {
  opt_vendors : option (list VendorOptions);
  opt_publisherId : value;
  opt_globalExcludeFields : FieldsOption
}.

(** A vendor entry after validation.  [v_excludeFields] is [None] when the
    entry carries a falsy [excludeFields]. *)
Record VendorConfig : Type := {
  v_name : string;
  v_endpoint : string;
  v_dataMode : DataMode;
  v_excludeFields : option (list string)
}.

Record Config : Type := {
  cfg_vendors : list VendorConfig;
  cfg_publisherId : value;
  cfg_excludeFields : list string
}.

(** The module-level [config] before [enableAnalytics] runs. *)
Definition initial_config : Config :=
  {| cfg_vendors := []; cfg_publisherId := VNull; cfg_excludeFields := [] |}.

(** A property that must be a non-empty string. *)
Definition required_string (v : value) : option string :=
  match v with
  | VStr s => if truthy v then Some s else None
  | _ => None
  end.

(** The two [dataMode] checks of the vendor filter. *)
Definition validate_dataMode (v : value) : DataMode :=
  match v with
  | VStr s =>
      if String.eqb s "raw" then Raw
      else if String.eqb s "index" then Index
      else if String.eqb s "both" then Both
      else Raw
  | _ => Raw
  end.

(** The callback of [options.vendors.filter]: [None] drops the entry,
    [Some] is the entry as the callback leaves it. *)
Definition validate_vendor (vendor : VendorOptions) : option VendorConfig :=
  match required_string (opt_name vendor) with
  | None => None
  | Some name =>
      match required_string (opt_endpoint vendor) with
      | None => None
      | Some endpoint =>
          Some {| v_name := name;
                  v_endpoint := endpoint;
                  v_dataMode := validate_dataMode (opt_dataMode vendor);
                  v_excludeFields :=
                    match opt_excludeFields vendor with
                    | FieldsFalsy => None
                    | FieldsNotArray => Some []
                    | FieldsArray fields => Some fields
                    end |}
      end
  end.

(** [enableAnalytics]; [adapterConfig] is [None] when the argument is not
    an object or has no [options].  An early [return] leaves [config] as
    it was. *)
Definition enableAnalytics (adapterConfig : option Options) (config : Config)
  : Config :=
  match adapterConfig with
  | None => config
  | Some options =>
      match opt_vendors options with
      | None => config
      | Some vendors =>
          if Nat.eqb (length vendors) 0 then config
          else
            let validVendors := omap validate_vendor vendors in
            if Nat.eqb (length validVendors) 0 then config
            else
              {| cfg_vendors := validVendors;
                 cfg_publisherId :=
                   if truthy (opt_publisherId options)
                   then opt_publisherId options else VNull;
                 cfg_excludeFields :=
                   match opt_globalExcludeFields options with
                   | FieldsArray fields =>
                       List.filter (includes PAYLOAD_FIELDS) fields
                   | _ => []
                   end |}
      end
  end.

(** Per-vendor [excludeFields] overrides the global list when it has
    entries. *)
Definition getExcludeFieldsForVendor (config : Config) (vendor : VendorConfig)
  : list string :=
  match v_excludeFields vendor with
  | Some fields =>
      if Nat.ltb 0 (length fields) then fields else cfg_excludeFields config
  | None => cfg_excludeFields config
  end.

(** The argument of a call as JavaScript passes it.  Beside what
    [Options] describes, [options] may be [null] and an entry of
    [options.vendors] may be [null] or [undefined] ([None] below): reading
    [options.vendors], or [vendor.name] in the filter callback, then throws
    a [TypeError], which nothing in [enableAnalytics] catches. *)
Inductive VendorsArg : Type :=
| VendorsNotArray                    (* absent, falsy, or not an array *)
| VendorsEntries (entries : list (option VendorOptions)).

Inductive OptionsArg : Type :=
| OptionsAbsent                      (* [undefined]: the default [{}] *)
| OptionsNull
| OptionsGiven (vendors : VendorsArg) (publisherId : value)
    (excludeFields : FieldsOption).

Inductive AdapterConfig : Type :=
| ConfigNotObject                    (* not an object, or [null] *)
| ConfigObject (options : OptionsArg).

(** [filter] calls back on every entry in turn; the callback reads
    [vendor.name] first. *)
Fixpoint read_entries (entries : list (option VendorOptions))
  : completion (list VendorOptions) :=
  match entries with
  | [] => Normal []
  | None :: _ => Throw
  | Some vendor :: rest =>
      vendors ← read_entries rest;
      Normal (vendor :: vendors)
  end.

(** A call of [enableAnalytics]: the configuration it leaves, or a thrown
    [TypeError], after which [config] is as before the call. *)
Definition enableAnalytics_call (adapterConfig : AdapterConfig)
    (config : Config) : completion Config :=
  match adapterConfig with
  | ConfigNotObject => Normal (enableAnalytics None config)
  | ConfigObject OptionsAbsent =>
      Normal (enableAnalytics
                (Some {| opt_vendors := None; opt_publisherId := VUndefined;
                         opt_globalExcludeFields := FieldsFalsy |})
                config)
  | ConfigObject OptionsNull => Throw
  | ConfigObject (OptionsGiven VendorsNotArray publisherId excludeFields) =>
      Normal (enableAnalytics
                (Some {| opt_vendors := None; opt_publisherId := publisherId;
                         opt_globalExcludeFields := excludeFields |})
                config)
  | ConfigObject (OptionsGiven (VendorsEntries entries) publisherId
                    excludeFields) =>
      if Nat.eqb (length entries) 0 then Normal config
      else
        vendors ← read_entries entries;
        Normal (enableAnalytics
                  (Some {| opt_vendors := Some vendors;
                           opt_publisherId := publisherId;
                           opt_globalExcludeFields := excludeFields |})
                  config)
  end.

(** ** Dispatch: payload objects live in a store *)

(** One [ajax] call: the endpoint and the object serialised as the body. *)
Record Request : Type := {
  url : string;
  body : obj
}.

(** Object references are indices into the store. *)
Abbreviation ref := nat.

Record Store : Type := {
  heap : list obj;
  sent : list Request
}.

Definition M (A : Type) : Type := Store -> A * Store.

#[export] Instance M_ret : MRet M := fun A a s => (a, s).
#[export] Instance M_bind : MBind M :=
  fun A B k c s => let '(a, s') := c s in k a s'.

(** A new object with the given properties. *)
Definition alloc (o : obj) : M ref :=
  fun s => (length (heap s), {| heap := heap s ++ [o]; sent := sent s |}).

(** The current properties of an object. *)
Definition read (r : ref) : M obj :=
  fun s => (default [] (heap s !! r), s).

Definition update (r : ref) (f : obj -> obj) : M unit :=
  fun s =>
    (tt, {| heap := <[r := f (default [] (heap s !! r))]> (heap s);
            sent := sent s |}).

(** [delete r[k]] and [r[k] = v]. *)
Definition delete_prop (r : ref) (k : string) : M unit :=
  update r (fun o => obj_delete o k).
Definition set_prop (r : ref) (k : string) (v : value) : M unit :=
  update r (fun o => obj_set o k v).

(** [ajax(endpoint, callbacks, JSON.stringify(payload), options)]. *)
Definition ajax (endpoint : string) (payload : ref) : M unit :=
  fun s =>
    (tt, {| heap := heap s;
            sent := sent s ++ [{| url := endpoint;
                                  body := default [] (heap s !! payload) |}] |}).

(** [l.forEach(f)]. *)
Fixpoint forEach {A} (l : list A) (f : A -> M unit) : M unit :=
  match l with
  | [] => mret tt
  | x :: l' => f x ;; forEach l' f
  end.

Definition filterPayload (payload : ref) (excludeFields : list string)
  : M ref :=
  if Nat.eqb (length excludeFields) 0 then mret payload
  else
    o ← read payload;
    filtered ← alloc o;
    forEach excludeFields (fun field => delete_prop filtered field) ;;
    mret filtered.

Definition sendToVendor (vendor : VendorConfig) (payload : ref) : M unit :=
  ajax (v_endpoint vendor) payload.

(** The callback of [config.vendors.forEach] in [sendTelemetryToVendors]. *)
Definition dispatch_vendor (config : Config) (fullPayload indexPayload : ref)
    (auctionSignal : Q) (vendor : VendorConfig) : M unit :=
  payloadToSend ←
    match v_dataMode vendor with
    | Index => mret indexPayload
    | Both =>
        let excludeFields := getExcludeFieldsForVendor config vendor in
        filteredFull ← filterPayload fullPayload excludeFields;
        o ← read filteredFull;
        alloc (obj_set o "auctionSignal" (VNum auctionSignal))
    | Raw =>
        let excludeFieldsRaw := getExcludeFieldsForVendor config vendor in
        filterPayload fullPayload excludeFieldsRaw
    end;
  sendToVendor vendor payloadToSend.

Definition sendTelemetryToVendors (config : Config)
    (fullPayload indexPayload : ref) (auctionSignal : Q) : M unit :=
  forEach (cfg_vendors config)
    (dispatch_vendor config fullPayload indexPayload auctionSignal).

(** ** The aggregator *)

Record AuctionData : Type := {
  auctionId : string;
  auctionStart : Z;
  adUnits : Z;
  bidderRequests : Z;
  bidResponses : Z;
  noBids : Z;
  cpms : list Q;
  bidders : list string          (* a [Set], in insertion order *)
}.

(** What the handlers read from the browser and from Prebid. *)
Record Env : Type := {
  hostname : string;             (* window.location.hostname *)
  pathname : string;             (* window.location.pathname *)
  userAgent : string;            (* navigator.userAgent *)
  date_now : Z;                  (* Date.now() *)
  iso_full : string;             (* new Date().toISOString(), first call *)
  iso_index : string;            (* new Date().toISOString(), second call *)
  global_ortb2 : value           (* pbjs.getConfig('ortb2') *)
}.

Record AuctionInitArgs : Type := {
  init_auctionId : string;
  init_adUnits : list value;
  init_timestamp : option Z
}.

Record BidRequestedArgs : Type := {
  req_auctionId : string;
  req_bidderCode : string;
  req_bids : list value
}.

Record BidResponseArgs : Type := {
  resp_auctionId : string;
  resp_cpm : value
}.

Record NoBidArgs : Type := {
  nobid_auctionId : string
}.

(** The adapter's module-level state. *)
Record State : Type := {
  config : Config;
  auctionCache : gmap string AuctionData
}.

(** [t || Date.now()] for an optional timestamp. *)
Definition or_now (t : option Z) (now : Z) : Z :=
  match t with
  | Some t => if Z.eqb t 0 then now else t
  | None => now
  end.

(** [Set.prototype.add]. *)
Definition set_add (x : string) (s : list string) : list string :=
  if includes s x then s else s ++ [x].

Definition onAuctionInit (env : Env) (args : AuctionInitArgs)
    (cache : gmap string AuctionData) : gmap string AuctionData :=
  <[init_auctionId args :=
      {| auctionId := init_auctionId args;
         auctionStart := or_now (init_timestamp args) (date_now env);
         adUnits := Z.of_nat (length (init_adUnits args));
         bidderRequests := 0;
         bidResponses := 0;
         noBids := 0;
         cpms := [];
         bidders := [] |}]> cache.

Definition onBidRequested (args : BidRequestedArgs)
    (cache : gmap string AuctionData) : gmap string AuctionData :=
  match cache !! req_auctionId args with
  | None => cache
  | Some auction =>
      <[req_auctionId args :=
          {| auctionId := auctionId auction;
             auctionStart := auctionStart auction;
             adUnits := adUnits auction;
             bidderRequests :=
               bidderRequests auction + Z.of_nat (length (req_bids args));
             bidResponses := bidResponses auction;
             noBids := noBids auction;
             cpms := cpms auction;
             bidders := set_add (req_bidderCode args) (bidders auction) |}]>
        cache
  end.

(** [typeof cpm === 'number' && cpm > 0]. *)
Definition positive_number (cpm : value) : option Q :=
  match cpm with
  | VNum q => if num_gt q 0%Q then Some q else None
  | _ => None
  end.

Definition onBidResponse (args : BidResponseArgs)
    (cache : gmap string AuctionData) : gmap string AuctionData :=
  match cache !! resp_auctionId args with
  | None => cache
  | Some auction =>
      <[resp_auctionId args :=
          {| auctionId := auctionId auction;
             auctionStart := auctionStart auction;
             adUnits := adUnits auction;
             bidderRequests := bidderRequests auction;
             bidResponses := bidResponses auction + 1;
             noBids := noBids auction;
             cpms :=
               match positive_number (resp_cpm args) with
               | Some cpm => cpms auction ++ [cpm]
               | None => cpms auction
               end;
             bidders := bidders auction |}]>
        cache
  end.

Definition onNoBid (args : NoBidArgs) (cache : gmap string AuctionData)
  : gmap string AuctionData :=
  match cache !! nobid_auctionId args with
  | None => cache
  | Some auction =>
      <[nobid_auctionId args :=
          {| auctionId := auctionId auction;
             auctionStart := auctionStart auction;
             adUnits := adUnits auction;
             bidderRequests := bidderRequests auction;
             bidResponses := bidResponses auction;
             noBids := noBids auction + 1;
             cpms := cpms auction;
             bidders := bidders auction |}]>
        cache
  end.

(** ** Payloads *)

Definition num_of_Z (n : Z) : value := VNum (inject_Z n).

Definition cpmStats_object (s : CpmStats Q) : value :=
  VObj [ ("avg", VNum (avg s)); ("max", VNum (max s));
         ("min", VNum (min s)); ("median", VNum (median s)) ].

(** [totalRequests > 0 ? auction.bidResponses / totalRequests : 0]. *)
Definition fillRate_of (auction : AuctionData) : Q :=
  let totalRequests := bidderRequests auction in
  if Z.ltb 0 totalRequests
  then inject_Z (bidResponses auction) / inject_Z totalRequests
  else 0.

Definition auctionSignal_of (auction : AuctionData) : Q :=
  calculateAuctionSignal (fillRate_of auction)
    (avg (calculateCpmStats (cpms auction)))
    (inject_Z (Z.of_nat (length (bidders auction)))).

(** The object literal bound to [fullPayload]. *)
Definition fullPayload_literal (env : Env) (config : Config)
    (args : AuctionEndArgs) (auction : AuctionData) : obj :=
  let auctionDuration :=
    or_now (end_auctionEnd args) (date_now env) - auctionStart auction in
  let cpmStats := calculateCpmStats (cpms auction) in
  let fillRate := fillRate_of auction in
  [ ("domain", VStr (hostname env));
    ("pageUrl", VStr (pathname env));
    ("publisherId", cfg_publisherId config);
    ("timestamp", VStr (iso_full env));
    ("auctionId", VStr (end_auctionId args));
    ("adapterVersion", VStr ADAPTER_VERSION);
    ("pbjsVersion", VStr "$prebid.version$");
    ("userAgent", VStr (userAgent env));
    ("adUnits", num_of_Z (adUnits auction));
    ("bidderRequests", num_of_Z (bidderRequests auction));
    ("bidResponses", num_of_Z (bidResponses auction));
    ("noBids", num_of_Z (noBids auction));
    ("uniqueBidders", num_of_Z (Z.of_nat (length (bidders auction))));
    ("bidderList", VArr (map VStr (bidders auction)));
    ("cpmStats", cpmStats_object cpmStats);
    ("fillRate", VNum (round2 fillRate));
    ("auctionDuration", num_of_Z auctionDuration) ].

(** The object literal bound to [indexPayload]. *)
Definition indexPayload_literal (env : Env) (auction : AuctionData) : obj :=
  let fillRate := fillRate_of auction in
  [ ("domain", VStr (hostname env));
    ("timestamp", VStr (iso_index env));
    ("userAgent", VStr (userAgent env));
    ("auctionSignal", VNum (auctionSignal_of auction));
    ("adUnits", num_of_Z (adUnits auction));
    ("uniqueBidders", num_of_Z (Z.of_nat (length (bidders auction))));
    ("fillRate", VNum (round2 fillRate)) ].

(** The part of [onAuctionEnd] that runs once the record is found:
    build both payloads, attach the content context, dispatch. *)
Definition buildAndSend (env : Env) (config : Config) (args : AuctionEndArgs)
    (auction : AuctionData) : M unit :=
  let auctionSignal := auctionSignal_of auction in
  let contentContext := getContentContext args (global_ortb2 env) in
  fullPayload ← alloc (fullPayload_literal env config args auction);
  indexPayload ← alloc (indexPayload_literal env auction);
  match contentContext with
  | Some context =>
      set_prop fullPayload "contentContext" (VObj context) ;;
      set_prop indexPayload "contentContext" (VObj context)
  | None => mret tt
  end ;;
  sendTelemetryToVendors config fullPayload indexPayload auctionSignal.

Definition empty_store : Store := {| heap := []; sent := [] |}.

(** The handler returns the new state and the requests it issued. *)
Definition onAuctionEnd (env : Env) (args : AuctionEndArgs) (st : State)
  : State * list Request :=
  match auctionCache st !! end_auctionId args with
  | None => (st, [])
  | Some auction =>
      let '(_, s) := buildAndSend env (config st) args auction empty_store in
      ({| config := config st;
          auctionCache := delete (end_auctionId args) (auctionCache st) |},
       sent s)
  end.

Inductive Event : Type :=
| AUCTION_INIT (args : AuctionInitArgs)
| BID_REQUESTED (args : BidRequestedArgs)
| BID_RESPONSE (args : BidResponseArgs)
| NO_BID (args : NoBidArgs)
| AUCTION_END (args : AuctionEndArgs)
| OTHER_EVENT.

Definition with_cache (st : State) (cache : gmap string AuctionData)
  : State * list Request :=
  ({| config := config st; auctionCache := cache |}, []).

Definition trackEvent (env : Env) (ev : Event) (st : State)
  : State * list Request :=
  match ev with
  | AUCTION_INIT args => with_cache st (onAuctionInit env args (auctionCache st))
  | BID_REQUESTED args => with_cache st (onBidRequested args (auctionCache st))
  | BID_RESPONSE args => with_cache st (onBidResponse args (auctionCache st))
  | NO_BID args => with_cache st (onNoBid args (auctionCache st))
  | AUCTION_END args => onAuctionEnd env args st
  | OTHER_EVENT => (st, [])
  end.

(** A run of events, each with its own environment reading; the requests
    of all events in order. *)
Fixpoint run (evs : list (Env * Event)) (st : State) : State * list Request :=
  match evs with
  | [] => (st, [])
  | (env, ev) :: evs' =>
      let '(st', out) := trackEvent env ev st in
      let '(st'', out') := run evs' st' in
      (st'', out ++ out')
  end.

(** ** The table as a JavaScript object *)

(** [auctionCache] is a plain object, so [auctionCache[auctionId]] finds an
    own property or else what the prototype chain holds under that name.
    The chain is [Object.prototype] alone until an AUCTION_INIT for the
    identifier "__proto__" runs: that assignment reaches the [__proto__]
    setter and makes the new record the prototype of the table, without
    creating an own property.  The handlers above are the handlers on the
    own properties; [track] below is the adapter's [track] method
    ([trackEvent]) on the table as JavaScript reads it.  A handler that
    throws leaves the table as it was: what it has assigned by then is a
    [NaN]-valued property of the inherited object, which no lookup reads
    as a record.  The module is strict code. *)

(** The function-valued properties of [Object.prototype]. *)
Definition Object_prototype_functions : list string :=
  [ "constructor"; "hasOwnProperty"; "isPrototypeOf"; "propertyIsEnumerable";
    "toLocaleString"; "toString"; "valueOf"; "__defineGetter__";
    "__defineSetter__"; "__lookupGetter__"; "__lookupSetter__" ].

Record Table : Type := {
  table_state : State;                   (* [config] and the own properties *)
  table_prototype : option AuctionData   (* the record set as prototype *)
}.

(** What [auctionCache[auctionId]] evaluates to. *)
Inductive Found : Type :=
| FoundRecord (auction : AuctionData)    (* an own property *)
| FoundPrototype (auction : AuctionData) (* the record that is the prototype *)
| FoundPrimitive (truthy : bool)         (* a number or string *)
| FoundObject       (* a function, [Object.prototype], an array, a [Set] *)
| NotFound.

(** A property of [Object.prototype]. *)
Definition inherited (name : string) : Found :=
  if includes Object_prototype_functions name then FoundObject else NotFound.

(** A property of the record that is the prototype, or of its own
    prototype [Object.prototype]. *)
Definition prototype_property (auction : AuctionData) (name : string)
  : Found :=
  if String.eqb name "auctionId"
  then FoundPrimitive (negb (String.eqb (auctionId auction) EmptyString))
  else if String.eqb name "auctionStart"
  then FoundPrimitive (negb (Z.eqb (auctionStart auction) 0))
  else if String.eqb name "adUnits"
  then FoundPrimitive (negb (Z.eqb (adUnits auction) 0))
  else if String.eqb name "bidderRequests"
  then FoundPrimitive (negb (Z.eqb (bidderRequests auction) 0))
  else if String.eqb name "bidResponses"
  then FoundPrimitive (negb (Z.eqb (bidResponses auction) 0))
  else if String.eqb name "noBids"
  then FoundPrimitive (negb (Z.eqb (noBids auction) 0))
  else if String.eqb name "cpms" || String.eqb name "bidders"
  then FoundObject
  else inherited name.

(** [auctionCache[auctionId]]. *)
Definition cache_get (t : Table) (id : string) : Found :=
  if String.eqb id "__proto__" then
    match table_prototype t with
    | Some auction => FoundPrototype auction
    | None => FoundObject
    end
  else
    match auctionCache (table_state t) !! id with
    | Some auction => FoundRecord auction
    | None =>
        match table_prototype t with
        | Some auction => prototype_property auction id
        | None => inherited id
        end
    end.

(** The record a handler leaves under [id] when the table holds
    [auction] there (nothing, for [None]). *)
Definition handled
    (handler : gmap string AuctionData → gmap string AuctionData)
    (id : string) (auction : option AuctionData) : option AuctionData :=
  handler (match auction with Some a => {[ id := a ]} | None => ∅ end) !! id.

Definition with_prototype (t : Table) (auction : option AuctionData)
  : Table :=
  {| table_state := table_state t; table_prototype := auction |}.

(** The event handled on the own properties. *)
Definition on_own_properties (env : Env) (ev : Event) (t : Table)
  : completion (Table * list Request) :=
  Normal ({| table_state := (trackEvent env ev (table_state t)).1;
             table_prototype := table_prototype t |},
          (trackEvent env ev (table_state t)).2).

(** [track].  With [auction] a truthy primitive, the first assignment to
    a property of it throws, and so does [auction.bidders.size]; with
    [auction] an inherited object, the counters are assigned, and
    [auction.bidders.add], [auction.cpms.push] and [auction.bidders.size]
    throw because [auction.bidders] and [auction.cpms] are [undefined].
    [delete auctionCache["__proto__"]] deletes nothing. *)
Definition track (env : Env) (ev : Event) (t : Table)
  : completion (Table * list Request) :=
  match ev with
  | AUCTION_INIT args =>
      if String.eqb (init_auctionId args) "__proto__"
      then Normal (with_prototype t
                     (handled (onAuctionInit env args) "__proto__" None),
                   [])
      else on_own_properties env ev t
  | BID_REQUESTED args =>
      match cache_get t (req_auctionId args) with
      | FoundPrototype auction =>
          Normal (with_prototype t
                    (handled (onBidRequested args) (req_auctionId args)
                       (Some auction)),
                  [])
      | FoundPrimitive true | FoundObject => Throw
      | FoundRecord _ | FoundPrimitive false | NotFound =>
          on_own_properties env ev t
      end
  | BID_RESPONSE args =>
      match cache_get t (resp_auctionId args) with
      | FoundPrototype auction =>
          Normal (with_prototype t
                    (handled (onBidResponse args) (resp_auctionId args)
                       (Some auction)),
                  [])
      | FoundPrimitive true => Throw
      | FoundObject =>
          match positive_number (resp_cpm args) with
          | Some _ => Throw
          | None => Normal (t, [])
          end
      | FoundRecord _ | FoundPrimitive false | NotFound =>
          on_own_properties env ev t
      end
  | NO_BID args =>
      match cache_get t (nobid_auctionId args) with
      | FoundPrototype auction =>
          Normal (with_prototype t
                    (handled (onNoBid args) (nobid_auctionId args)
                       (Some auction)),
                  [])
      | FoundPrimitive true => Throw
      | FoundObject => Normal (t, [])
      | FoundRecord _ | FoundPrimitive false | NotFound =>
          on_own_properties env ev t
      end
  | AUCTION_END args =>
      match cache_get t (end_auctionId args) with
      | FoundPrototype auction =>
          Normal (t,
                  (onAuctionEnd env args
                     {| config := config (table_state t);
                        auctionCache := {[ end_auctionId args := auction ]} |}).2)
      | FoundPrimitive true | FoundObject => Throw
      | FoundRecord _ | FoundPrimitive false | NotFound =>
          on_own_properties env ev t
      end
  | OTHER_EVENT => on_own_properties env ev t
  end.

(** The table of a freshly loaded module in state [st]. *)
Definition plain_table (st : State) : Table :=
  {| table_state := st; table_prototype := None |}.

(** ** Descriptions used in the statements *)

(** An object without the named properties. *)
Definition exclude (o : obj) (fields : list string) : obj :=
  fold_left obj_delete fields o.

(** What one destination is meant to receive, as a function of that
    destination alone (spec, section 4.6). *)
Definition shaped_payload (config : Config) (full index : obj) (signal : Q)
    (vendor : VendorConfig) : obj :=
  match v_dataMode vendor with
  | Index => index
  | Raw => exclude full (getExcludeFieldsForVendor config vendor)
  | Both =>
      obj_set (exclude full (getExcludeFieldsForVendor config vendor))
        "auctionSignal" (VNum signal)
  end.

Definition request_for (config : Config) (full index : obj) (signal : Q)
    (vendor : VendorConfig) : Request :=
  {| url := v_endpoint vendor;
     body := shaped_payload config full index signal vendor |}.

(** A payload literal once the optional content context is attached. *)
Definition with_contentContext (context : option obj) (o : obj) : obj :=
  match context with
  | Some c => obj_set o "contentContext" (VObj c)
  | None => o
  end.

(** The two payloads of an auction end, as dispatched. *)
Definition fullPayload_of (env : Env) (config : Config)
    (args : AuctionEndArgs) (auction : AuctionData) : obj :=
  with_contentContext (getContentContext args (global_ortb2 env))
    (fullPayload_literal env config args auction).

Definition indexPayload_of (env : Env) (args : AuctionEndArgs)
    (auction : AuctionData) : obj :=
  with_contentContext (getContentContext args (global_ortb2 env))
    (indexPayload_literal env auction).

(** The content descriptor of one bidder request:
    [bidderRequest.ortb2?.site?.content]. *)
Definition bidderRequest_content (bidderRequest : value) : value :=
  ortb2_site_content (get bidderRequest "ortb2").

(** The content descriptors of an auction end in fallback order: one per
    bidder request, then the event's own, then the global one. *)
Definition content_sources (args : AuctionEndArgs) (globalConfigOrtb2 : value)
  : list value :=
  map bidderRequest_content (default [] (end_bidderRequests args))
  ++ [ ortb2_site_content (end_ortb2 args);
       ortb2_site_content globalConfigOrtb2 ].

(** A descriptor carries a language and/or keywords, present and
    non-empty. *)
Definition carries_language_or_keywords (d : value) : bool :=
  truthy d
  && (truthy (get d "language")
      || (is_array (get d "keywords")
          && Nat.ltb 0 (array_length (get d "keywords")))).

(** Section 4.4 of the spec as worded: the first source that carries a
    language and/or keywords is used. *)
Definition first_carrying (sources : list value) : option obj :=
  match find carries_language_or_keywords sources with
  | Some d => buildContextObject d
  | None => None
  end.

(** What the resolver does: the first source that holds a descriptor at
    all decides. *)
Definition first_present (sources : list value) : option obj :=
  match find truthy sources with
  | Some d => buildContextObject d
  | None => None
  end.

(** The exclusion set in force for a vendor, as the spec words it: the
    vendor's own list when present and non-empty, else the global one. *)
Definition effective_exclusions (config : Config) (vendor : VendorConfig)
  : list string :=
  match v_excludeFields vendor with
  | Some (f :: fields) => f :: fields
  | _ => cfg_excludeFields config
  end.

(** ** Descriptions of the numeric results *)

(** [r] is [x] rounded to two decimals, halves going up: a whole number of
    hundredths, at most half a hundredth away from [x]. *)
Definition is_round2 (x r : Q) : Prop :=
  (∃ n : Z, r == inject_Z n / 100)%Q
  ∧ (r - (1 # 200) <= x)%Q ∧ (x < r + (1 # 200))%Q.

(** The arithmetic mean. *)
Definition mean (l : list Q) : Q :=
  (fold_right Qplus 0 l / inject_Z (Z.of_nat (length l)))%Q.

(** The median of an ascending sequence: the middle element for an odd
    length, the mean of the two central elements for an even one. *)
Definition median_of (sorted : list Q) : Q :=
  let n := length sorted in
  if Nat.odd n then nth (n / 2) sorted 0%Q
  else ((nth (n / 2 - 1) sorted 0 + nth (n / 2) sorted 0) / 2)%Q.

(** The weighted sum of the three capped sub-scores (spec, section 4.3). *)
Definition weighted_score (fillRate avgCpm uniqueBidderCount : Q) : Q :=
  (Qmin fillRate 1 * 0.4 + Qmin (avgCpm / 10) 1 * 0.4
   + Qmin (uniqueBidderCount / 10) 1 * 0.2)%Q.

(** The same quantities as the code computes them, every operation being
    one of the number model. *)
Section Computed.
Context {num : Type} `{JsNumber num}.
Local Open Scope js_scope.

(** The sum taken from left to right, starting from 0, over the count. *)
Definition computed_mean (l : list num) : num :=
  fold_left (fun a b => a + b) l (num_lit 0)
  / num_lit (inject_Z (Z.of_nat (length l))).

Definition computed_median (sorted : list num) : num :=
  let n := length sorted in
  if Nat.odd n then nth (n / 2) sorted (num_lit 0)
  else (nth (n / 2 - 1) sorted (num_lit 0) + nth (n / 2) sorted (num_lit 0))
       / num_lit 2.

Definition computed_score (fillRate avgCpm uniqueBidderCount : num) : num :=
  Math_min fillRate (num_lit 1) * num_lit 0.4
  + Math_min (avgCpm / num_lit 10) (num_lit 1) * num_lit 0.4
  + Math_min (uniqueBidderCount / num_lit 10) (num_lit 1) * num_lit 0.2.
End Computed.

(** ** The end-to-end scenario (spec, section 8) *)

Definition scenario_end_args (t0 : Z) (requests : option (list value))
    (ortb2 : value) : AuctionEndArgs :=
  {| end_auctionId := "A1"; end_auctionEnd := Some (t0 + 850);
     end_bidderRequests := requests; end_ortb2 := ortb2 |}.

Definition scenario (t0 : Z) (b1 b2 b3 : string)
    (units bids1 bids2 bids3 : list value) (end_args : AuctionEndArgs)
  : list Event :=
  [ AUCTION_INIT {| init_auctionId := "A1"; init_adUnits := units;
                    init_timestamp := Some t0 |};
    BID_REQUESTED {| req_auctionId := "A1"; req_bidderCode := b1;
                     req_bids := bids1 |};
    BID_REQUESTED {| req_auctionId := "A1"; req_bidderCode := b2;
                     req_bids := bids2 |};
    BID_REQUESTED {| req_auctionId := "A1"; req_bidderCode := b3;
                     req_bids := bids3 |};
    BID_RESPONSE {| resp_auctionId := "A1"; resp_cpm := VNum 1 |};
    BID_RESPONSE {| resp_auctionId := "A1"; resp_cpm := VNum 2 |};
    NO_BID {| nobid_auctionId := "A1" |};
    AUCTION_END end_args ].

(** The scenario with other CPMs in its two bid responses. *)
Definition scenario_with_cpms (cpm1 cpm2 : Q) (t0 : Z) (b1 b2 b3 : string)
    (units bids1 bids2 bids3 : list value) (end_args : AuctionEndArgs)
  : list Event :=
  [ AUCTION_INIT {| init_auctionId := "A1"; init_adUnits := units;
                    init_timestamp := Some t0 |};
    BID_REQUESTED {| req_auctionId := "A1"; req_bidderCode := b1;
                     req_bids := bids1 |};
    BID_REQUESTED {| req_auctionId := "A1"; req_bidderCode := b2;
                     req_bids := bids2 |};
    BID_REQUESTED {| req_auctionId := "A1"; req_bidderCode := b3;
                     req_bids := bids3 |};
    BID_RESPONSE {| resp_auctionId := "A1"; resp_cpm := VNum cpm1 |};
    BID_RESPONSE {| resp_auctionId := "A1"; resp_cpm := VNum cpm2 |};
    NO_BID {| nobid_auctionId := "A1" |};
    AUCTION_END end_args ].

Definition scenario_auction_with_cpms (cpm1 cpm2 : Q) (t0 : Z)
    (b1 b2 b3 : string) : AuctionData :=
  {| auctionId := "A1"; auctionStart := t0; adUnits := 3;
     bidderRequests := 9; bidResponses := 2; noBids := 1;
     cpms := [cpm1; cpm2]; bidders := [b1; b2; b3] |}.

(** The record the scenario has built when the auction ends. *)
Definition scenario_auction (t0 : Z) (b1 b2 b3 : string) : AuctionData :=
  {| auctionId := "A1"; auctionStart := t0; adUnits := 3;
     bidderRequests := 9; bidResponses := 2; noBids := 1;
     cpms := [1%Q; 2%Q]; bidders := [b1; b2; b3] |}.

(** ** IEEE-754 binary64 numbers *)

(** The same operations on double-precision floats, for checking that the
    worked examples do not depend on exact arithmetic. *)
Module Binary64.
Definition prec : Z := 53.
Definition emax : Z := 1024.

(** An integer below 2^53 in magnitude, exactly. *)
Definition of_Z (z : Z) : spec_float := binary_normalize prec emax z 0 false.

(** The double nearest to a decimal literal [a/b]. *)
Definition lit (q : Q) : spec_float :=
  SFdiv prec emax (of_Z (Qnum q)) (of_Z (Zpos (Qden q))).

Definition min (a b : spec_float) : spec_float :=
  match a, b with
  | S754_nan, _ | _, S754_nan => S754_nan
  | _, _ =>
      match SFcompare a b with
      | Some Lt => a
      | Some Gt => b
      | _ => match a with S754_zero true => a | _ => b end
      end
  end.

(** The nearest integer, ties towards +infinity; the sign of a zero
    result is the sign of the argument. *)
Definition round (x : spec_float) : spec_float :=
  match x with
  | S754_finite s m e =>
      if Z.leb 0 e then x
      else
        let n := Z.div (2 * cond_Zopp s (Zpos m) + 2 ^ (- e))
                   (2 ^ (- e + 1)) in
        if Z.eqb n 0 then S754_zero s else of_Z n
  | _ => x
  end.

(** The rational a finite double stands for. *)
Definition to_Q (x : spec_float) : Q :=
  match x with
  | S754_finite s m e => (inject_Z (cond_Zopp s (Zpos m)) * 2 ^ e)%Q
  | _ => 0%Q
  end.

(** A finite double: a zero, or a mantissa and exponent in canonical
    form. *)
Definition double (x : spec_float) : bool :=
  match x with
  | S754_finite _ m e => bounded prec emax m e
  | S754_zero _ => true
  | _ => false
  end.

(** A finite or infinite double of the given sign. *)
Definition signed (sx : bool) (x : spec_float) : Prop :=
  match x with
  | S754_finite s _ _ | S754_infinity s => s = sx
  | _ => False
  end.

(** [x > 0]. *)
Definition positive (x : spec_float) : bool := SFltb (S754_zero false) x.

(** A CPM the aggregator records, when it is finite. *)
Definition positive_finite (x : spec_float) : Prop :=
  double x = true ∧ positive x = true.

#[global] Instance number : JsNumber spec_float := {|
  num_lit := lit;
  num_add := SFadd prec emax;
  num_sub := SFsub prec emax;
  num_mul := SFmul prec emax;
  num_div := SFdiv prec emax;
  num_gt a b := SFltb b a;
  Math_min := min;
  Math_round := round
|}.
End Binary64.

(** ** Sample data *)

(** An entry of [bidderRequests] (or an [ortb2] carrier) whose content
    descriptor has the given properties. *)
Definition content_of (props : obj) : value :=
  VObj [("ortb2", VObj [("site", VObj [("content", VObj props)])])].

(** An auction end whose first bidder request holds a descriptor without
    language and keywords, and whose second one holds a language. *)
Definition shadowed_args : AuctionEndArgs :=
  {| end_auctionId := "A1";
     end_auctionEnd := Some 1850;
     end_bidderRequests :=
       Some [ content_of [("title", VStr "Home")];
              content_of [("language", VStr "en")] ];
     end_ortb2 := VUndefined |}.

Definition sample_env : Env :=
  {| hostname := "example.com";
     pathname := "/articles/news-story";
     userAgent := "Mozilla/5.0";
     date_now := 1766071800000;
     iso_full := "2025-12-18T15:30:00.000Z";
     iso_index := "2025-12-18T15:30:00.001Z";
     global_ortb2 := VUndefined |}.

Definition vendor_raw : VendorConfig :=
  {| v_name := "vendor2"; v_endpoint := "https://vendor2.example/ingest";
     v_dataMode := Raw; v_excludeFields := Some ["pageUrl"] |}.

Definition vendor_both : VendorConfig :=
  {| v_name := "internal"; v_endpoint := "https://internal.example/ingest";
     v_dataMode := Both; v_excludeFields := Some ["auctionSignal"; "domain"] |}.

Definition vendor_index : VendorConfig :=
  {| v_name := "microsoft"; v_endpoint := "https://ai.example/ingest";
     v_dataMode := Index; v_excludeFields := Some ["fillRate"] |}.

Definition sample_config : Config :=
  {| cfg_vendors := [vendor_raw; vendor_both; vendor_index];
     cfg_publisherId := VStr "pub-12345";
     cfg_excludeFields := ["cpmStats"] |}.

Definition sample_auction : AuctionData :=
  {| auctionId := "A1"; auctionStart := 1000; adUnits := 3;
     bidderRequests := 9; bidResponses := 2; noBids := 1;
     cpms := [1%Q; 2%Q]; bidders := ["appnexus"; "rubicon"; "openx"] |}.

Definition sample_state : State :=
  {| config := sample_config;
     auctionCache := {[ "A1" := sample_auction ]} |}.

Definition sample_end_args : AuctionEndArgs :=
  {| end_auctionId := "A1"; end_auctionEnd := Some 1850;
     end_bidderRequests := Some [content_of [("language", VStr "en")]];
     end_ortb2 := VUndefined |}.

(** A store that holds one full payload. *)
Definition sample_fullPayload : obj :=
  fullPayload_literal sample_env sample_config sample_end_args sample_auction.

Definition sample_store : Store :=
  {| heap := [sample_fullPayload]; sent := [] |}.

(** The adapter once configured, before any auction. *)
Definition fresh_state : State :=
  {| config := sample_config; auctionCache := ∅ |}.

(** An auction end for the identifier "constructor". *)
Definition constructor_end_args : AuctionEndArgs :=
  {| end_auctionId := "constructor"; end_auctionEnd := Some 1850;
     end_bidderRequests := None; end_ortb2 := VUndefined |}.

(** A both-mode vendor with the exclusion list of [vendor_raw]. *)
Definition vendor_both_pageUrl : VendorConfig :=
  {| v_name := "internal"; v_endpoint := "https://internal.example/ingest";
     v_dataMode := Both; v_excludeFields := Some ["pageUrl"] |}.

Definition raw_only_state : State :=
  {| config :=
       {| cfg_vendors := [vendor_raw]; cfg_publisherId := VNull;
          cfg_excludeFields := [] |};
     auctionCache := {[ "A1" := sample_auction ]} |}.

Definition raw_and_both_state : State :=
  {| config :=
       {| cfg_vendors := [vendor_raw; vendor_both_pageUrl];
          cfg_publisherId := VNull; cfg_excludeFields := [] |};
     auctionCache := {[ "A1" := sample_auction ]} |}.

(** An auction on which rounding the fill rate first would change the
    score: 2 responses to 9 requests, CPMs 0.16 and 0.16, 3 bidders. *)
Definition rounding_sensitive_auction : AuctionData :=
  {| auctionId := "A2"; auctionStart := 1000; adUnits := 1;
     bidderRequests := 9; bidResponses := 2; noBids := 0;
     cpms := [0.16%Q; 0.16%Q]; bidders := ["appnexus"; "rubicon"; "openx"] |}.

(** A configuration that names [contentContext], which is outside
    [PAYLOAD_FIELDS], both in the global list and in the list of its first
    vendor; the second vendor has no list of its own. *)
Definition unknown_field_options : Options :=
  {| opt_vendors :=
       Some [ {| opt_name := VStr "vendor1";
                 opt_endpoint := VStr "https://vendor1.example/ingest";
                 opt_dataMode := VStr "raw";
                 opt_excludeFields := FieldsArray ["contentContext"] |};
              {| opt_name := VStr "vendor2";
                 opt_endpoint := VStr "https://vendor2.example/ingest";
                 opt_dataMode := VUndefined;
                 opt_excludeFields := FieldsFalsy |} ];
     opt_publisherId := VUndefined;
     opt_globalExcludeFields := FieldsArray ["contentContext"; "cpmStats"] |}.

(** A vendor entry with a misspelt [dataMode] and an [excludeFields] that
    is not an array. *)
Definition misspelt_vendor : VendorOptions :=
  {| opt_name := VStr "vendor1";
     opt_endpoint := VStr "https://vendor1.example/ingest";
     opt_dataMode := VStr "Index";
     opt_excludeFields := FieldsNotArray |}.

(** An [ortb2] object whose content descriptor has the given
    properties. *)
Definition ortb2_of (props : obj) : value :=
  VObj [("site", VObj [("content", VObj props)])].

(** ** Invariants and further descriptions *)

(** A vendor entry that passed validation names itself and its endpoint. *)
Definition vendor_ok (v : VendorConfig) : Prop :=
  v_name v ≠ EmptyString ∧ v_endpoint v ≠ EmptyString.

(** A configuration as [enableAnalytics] leaves it. *)
Definition config_ok (cfg : Config) : Prop :=
  Forall vendor_ok (cfg_vendors cfg)
  ∧ Forall (fun f => includes PAYLOAD_FIELDS f = true) (cfg_excludeFields cfg).

(** The vendor entries of a configuration argument that pass validation. *)
Definition accepted_vendors (adapterConfig : option Options)
  : list VendorConfig :=
  match adapterConfig with
  | Some options =>
      match opt_vendors options with
      | Some vendors => omap validate_vendor vendors
      | None => []
      end
  | None => []
  end.

(** A call that throws: [options] is [null], or the vendor array holds a
    [null] or [undefined] entry. *)
Definition call_throws (adapterConfig : AdapterConfig) : bool :=
  match adapterConfig with
  | ConfigObject OptionsNull => true
  | ConfigObject (OptionsGiven (VendorsEntries entries) _ _) =>
      existsb (fun entry => match entry with None => true | Some _ => false end)
        entries
  | _ => false
  end.

(** The vendor entries of a call that pass validation. *)
Definition accepted_entries (adapterConfig : AdapterConfig)
  : list VendorConfig :=
  match adapterConfig with
  | ConfigObject (OptionsGiven (VendorsEntries entries) _ _) =>
      omap (fun entry => entry ≫= validate_vendor) entries
  | _ => []
  end.

(** The auction an event is about. *)
Definition event_auctionId (ev : Event) : option string :=
  match ev with
  | AUCTION_INIT args => Some (init_auctionId args)
  | BID_REQUESTED args => Some (req_auctionId args)
  | BID_RESPONSE args => Some (resp_auctionId args)
  | NO_BID args => Some (nobid_auctionId args)
  | AUCTION_END args => Some (end_auctionId args)
  | OTHER_EVENT => None
  end.

(** The events that update a record in place. *)
Definition is_bid_event (ev : Event) : bool :=
  match ev with
  | BID_REQUESTED _ | BID_RESPONSE _ | NO_BID _ => true
  | _ => false
  end.

(** What holds of every record the handlers build, stored under [id]. *)
Definition record_ok (id : string) (a : AuctionData) : Prop :=
  auctionId a = id
  ∧ 0 <= adUnits a ∧ 0 <= bidderRequests a ∧ 0 <= bidResponses a
  ∧ 0 <= noBids a
  ∧ Forall (fun cpm => (0 < cpm)%Q) (cpms a)
  ∧ Z.of_nat (length (cpms a)) <= bidResponses a
  ∧ NoDup (bidders a).

Definition cache_ok (cache : gmap string AuctionData) : Prop :=
  ∀ id a, cache !! id = Some a → record_ok id a.

(** [l1] is an initial segment of [l2]. *)
Definition extends {A} (l1 l2 : list A) : Prop := ∃ more, l2 = l1 ++ more.

(** ** Objects: lookup after update *)

Lemma obj_get_set_eq (o : obj) k v : obj_get (obj_set o k v) k = Some v.
Proof.
  induction o as [|[k' v'] o IH]; simpl.
  - by rewrite String.eqb_refl.
  - destruct (String.eqb k' k) eqn:E; simpl; by rewrite E.
Qed.

Lemma obj_get_set_ne (o : obj) k k' v :
  k ≠ k' → obj_get (obj_set o k v) k' = obj_get o k'.
Proof.
  intros Hne. induction o as [|[k0 v0] o IH]; simpl.
  - destruct (String.eqb k k') eqn:E; [|done].
    apply String.eqb_eq in E. done.
  - destruct (String.eqb k0 k) eqn:E; simpl.
    + apply String.eqb_eq in E. subst k0.
      destruct (String.eqb k k') eqn:E'; [|done].
      apply String.eqb_eq in E'. done.
    + by rewrite IH.
Qed.

Lemma obj_get_delete_eq (o : obj) k : obj_get (obj_delete o k) k = None.
Proof.
  induction o as [|[k' v'] o IH]; simpl; [done|].
  destruct (String.eqb k' k) eqn:E; simpl; [done|]. by rewrite E.
Qed.

Lemma obj_get_delete_ne (o : obj) k k' :
  k ≠ k' → obj_get (obj_delete o k) k' = obj_get o k'.
Proof.
  intros Hne. induction o as [|[k0 v0] o IH]; simpl; [done|].
  destruct (String.eqb k0 k) eqn:E; simpl.
  - apply String.eqb_eq in E. subst k0.
    destruct (String.eqb k k') eqn:E'; [|done].
    apply String.eqb_eq in E'. done.
  - by rewrite IH.
Qed.

Lemma includes_true l k : includes l k = true ↔ In k l.
Proof.
  unfold includes. rewrite existsb_exists. split.
  - intros (x & Hx & E). apply String.eqb_eq in E. by subst.
  - intros Hk. exists k. split; [done|]. apply String.eqb_refl.
Qed.

Lemma obj_get_exclude (fields : list string) (o : obj) k :
  obj_get (exclude o fields) k
  = if includes fields k then None else obj_get o k.
Proof.
  unfold exclude. revert o.
  induction fields as [|f fields IH]; intros o; simpl; [done|].
  rewrite IH. destruct (includes fields k) eqn:E.
  - by rewrite orb_true_r.
  - rewrite orb_false_r. destruct (String.eqb k f) eqn:E'.
    + apply String.eqb_eq in E'. subst f. apply obj_get_delete_eq.
    + apply obj_get_delete_ne. intros ->. by rewrite String.eqb_refl in E'.
Qed.

(** ** The store: what dispatch does to it *)

Lemma forEach_delete_prop (fields : list string) (r : ref) :
  ∀ (s : Store) (o : obj),
    heap s !! r = Some o →
    forEach fields (fun field => delete_prop r field) s
    = (tt, {| heap := <[r := exclude o fields]> (heap s); sent := sent s |}).
Proof.
  induction fields as [|f fields IH]; intros [h out] o Hr; simpl in *.
  - unfold mret, M_ret. by rewrite list_insert_id.
  - unfold mbind, M_bind, delete_prop, update. simpl. rewrite Hr. simpl.
    erewrite IH; simpl.
    + by rewrite list_insert_insert_eq.
    + apply list_lookup_insert_eq. by eapply lookup_lt_Some.
Qed.

(** [filterPayload] only ever appends to the store: the result holds the
    payload without the excluded properties, every object that existed
    keeps its properties, and nothing is sent. *)
Lemma filterPayload_run (payload : ref) (excludeFields : list string)
    (s : Store) (o : obj) :
  heap s !! payload = Some o →
  ∃ r ext,
    filterPayload payload excludeFields s
    = (r, {| heap := heap s ++ ext; sent := sent s |})
    ∧ (heap s ++ ext) !! r = Some (exclude o excludeFields).
Proof.
  intros Hp. destruct s as [h out]. simpl in *.
  destruct excludeFields as [|f fields].
  - exists payload, []. rewrite app_nil_r. done.
  - set (fs := f :: fields). exists (length h), [exclude o fs].
    assert (Hrun : filterPayload payload fs {| heap := h; sent := out |}
              = (let '(_, s') :=
                   forEach fs (fun field => delete_prop (length h) field)
                     {| heap := h ++ [o]; sent := out |} in
                 (length h, s'))).
    { unfold filterPayload, fs at 1. simpl length. simpl Nat.eqb.
      unfold mbind, M_bind, read, alloc, mret, M_ret. simpl. rewrite Hp.
      simpl. done. }
    rewrite Hrun. erewrite forEach_delete_prop; simpl.
    2:{ by apply list_lookup_middle. }
    replace (length h) with (length h + 0)%nat at 2 by lia.
    rewrite insert_app_r. simpl. split; [done|].
    by apply list_lookup_middle.
Qed.

Lemma dispatch_vendor_run (config : Config) (fullPayload indexPayload : ref)
    (signal : Q) (vendor : VendorConfig) (s : Store) (full index : obj) :
  heap s !! fullPayload = Some full →
  heap s !! indexPayload = Some index →
  ∃ ext,
    dispatch_vendor config fullPayload indexPayload signal vendor s
    = (tt, {| heap := heap s ++ ext;
              sent := sent s ++ [request_for config full index signal vendor] |}).
Proof.
  intros Hf Hi. unfold dispatch_vendor, request_for, shaped_payload.
  destruct (v_dataMode vendor).
  - (* raw *)
    destruct (filterPayload_run fullPayload
                (getExcludeFieldsForVendor config vendor) s full Hf)
      as (r & ext & Hrun & Hr).
    exists ext. unfold mbind, M_bind. rewrite Hrun.
    unfold sendToVendor, ajax. simpl. by rewrite Hr.
  - (* index *)
    exists []. rewrite app_nil_r. destruct s as [h out].
    unfold mbind, M_bind, mret, M_ret, sendToVendor, ajax. simpl in *.
    by rewrite Hi.
  - (* both *)
    destruct (filterPayload_run fullPayload
                (getExcludeFieldsForVendor config vendor) s full Hf)
      as (r & ext & Hrun & Hr).
    eexists (ext ++ [_]). unfold mbind, M_bind. rewrite Hrun.
    unfold read, alloc, sendToVendor, ajax. simpl. rewrite Hr. simpl.
    rewrite list_lookup_middle by done. simpl. by rewrite <- app_assoc.
Qed.

(** Dispatch sends, in vendor order, one request per vendor whose body
    depends on that vendor alone; the store only grows. *)
Lemma forEach_dispatch_vendor (config : Config) (fullPayload indexPayload : ref)
    (signal : Q) (full index : obj) (vendors : list VendorConfig) :
  ∀ s : Store,
    heap s !! fullPayload = Some full →
    heap s !! indexPayload = Some index →
    ∃ ext,
      forEach vendors (dispatch_vendor config fullPayload indexPayload signal) s
      = (tt, {| heap := heap s ++ ext;
                sent := sent s
                        ++ map (request_for config full index signal) vendors |}).
Proof.
  induction vendors as [|v vendors IH]; intros s Hf Hi; simpl.
  - exists []. rewrite !app_nil_r. by destruct s.
  - destruct (dispatch_vendor_run config _ _ signal v s _ _ Hf Hi)
      as (ext & Hrun).
    unfold mbind, M_bind at 1. rewrite Hrun.
    destruct (IH {| heap := heap s ++ ext;
                    sent := sent s ++ [request_for config full index signal v] |})
      as (ext' & Hrest); simpl.
    + by apply lookup_app_l_Some.
    + by apply lookup_app_l_Some.
    + exists (ext ++ ext'). rewrite Hrest. simpl.
      by rewrite <- !app_assoc.
Qed.

Lemma sendTelemetryToVendors_run (config : Config)
    (fullPayload indexPayload : ref) (signal : Q) (s : Store)
    (full index : obj) :
  heap s !! fullPayload = Some full →
  heap s !! indexPayload = Some index →
  ∃ ext,
    sendTelemetryToVendors config fullPayload indexPayload signal s
    = (tt, {| heap := heap s ++ ext;
              sent := sent s ++ map (request_for config full index signal)
                                    (cfg_vendors config) |}).
Proof. apply forEach_dispatch_vendor. Qed.

(** The requests of an auction end, from the store-passing handler. *)
Lemma buildAndSend_sent (env : Env) (config : Config) (args : AuctionEndArgs)
    (auction : AuctionData) :
  sent (snd (buildAndSend env config args auction empty_store))
  = map (request_for config (fullPayload_of env config args auction)
           (indexPayload_of env args auction) (auctionSignal_of auction))
      (cfg_vendors config).
Proof.
  unfold buildAndSend, fullPayload_of, indexPayload_of.
  destruct (getContentContext args (global_ortb2 env)) as [context|];
    unfold mbind, M_bind, alloc, set_prop, update, mret, M_ret, empty_store;
    simpl.
  - edestruct (sendTelemetryToVendors_run config 0%nat 1%nat
                 (auctionSignal_of auction)) as (ext & Hrun);
      [| |rewrite Hrun]; simpl; done.
  - edestruct (sendTelemetryToVendors_run config 0%nat 1%nat
                 (auctionSignal_of auction)) as (ext & Hrun);
      [| |rewrite Hrun]; simpl; done.
Qed.

Lemma onAuctionEnd_found (env : Env) (args : AuctionEndArgs) (st : State)
    (auction : AuctionData) :
  auctionCache st !! end_auctionId args = Some auction →
  onAuctionEnd env args st
  = ({| config := config st;
        auctionCache := delete (end_auctionId args) (auctionCache st) |},
     map (request_for (config st)
            (fullPayload_of env (config st) args auction)
            (indexPayload_of env args auction) (auctionSignal_of auction))
       (cfg_vendors (config st))).
Proof.
  intros Hfound. unfold onAuctionEnd. rewrite Hfound.
  rewrite <- buildAndSend_sent.
  by destruct (buildAndSend env (config st) args auction empty_store).
Qed.

Lemma onAuctionEnd_unknown (env : Env) (args : AuctionEndArgs) (st : State) :
  auctionCache st !! end_auctionId args = None →
  onAuctionEnd env args st = (st, []).
Proof. intros Hnone. unfold onAuctionEnd. by rewrite Hnone. Qed.

(** ** Content context resolution *)

Lemma ortb2_site_content_or_empty (g : value) :
  ortb2_site_content (if truthy g then g else VObj []) = ortb2_site_content g.
Proof. destruct (truthy g) eqn:E; [done|]. by destruct g. Qed.

Lemma find_append {A} (f : A → bool) (l1 l2 : list A) :
  find f (l1 ++ l2)
  = match find f l1 with Some x => Some x | None => find f l2 end.
Proof. induction l1 as [|x l1 IH]; simpl; [done|]. by destruct (f x). Qed.

Lemma scan_bidderRequests_objects (reqs : list value) :
  Forall (fun r => nullish r = false) reqs →
  scan_bidderRequests reqs
  = Normal (match find truthy (map bidderRequest_content reqs) with
            | Some d => Some (buildContextObject d)
            | None => None
            end).
Proof.
  induction 1 as [|r reqs Hr _ IH]; simpl; [done|].
  unfold get_strict. rewrite Hr. simpl.
  fold (bidderRequest_content r).
  by destruct (truthy (bidderRequest_content r)).
Qed.

Lemma getContentContext_first_present (args : AuctionEndArgs) (g : value) :
  Forall (fun r => nullish r = false) (default [] (end_bidderRequests args)) →
  getContentContext args g = first_present (content_sources args g).
Proof.
  intros Hobj. unfold getContentContext, getContentContext_try,
    first_present, content_sources.
  rewrite ortb2_site_content_or_empty.
  destruct (end_bidderRequests args) as [reqs|]; simpl in *.
  - rewrite scan_bidderRequests_objects by done. simpl.
    rewrite find_append.
    destruct (find truthy (map bidderRequest_content reqs)); simpl; [done|].
    destruct (truthy (ortb2_site_content (end_ortb2 args))); [done|].
    by destruct (truthy (ortb2_site_content g)).
  - destruct (truthy (ortb2_site_content (end_ortb2 args))); [done|].
    by destruct (truthy (ortb2_site_content g)).
Qed.

(** A [null] or [undefined] bidder request met before any descriptor
    makes the loop throw; the [catch] turns that into [null]. *)
Lemma getContentContext_null_bidderRequest (args : AuctionEndArgs)
    (g : value) (before after : list value) (r : value) :
  end_bidderRequests args = Some (before ++ r :: after) →
  Forall (fun b => nullish b = false ∧ truthy (bidderRequest_content b) = false)
    before →
  nullish r = true →
  getContentContext args g = None.
Proof.
  intros Hreqs Hbefore Hr.
  unfold getContentContext, getContentContext_try. rewrite Hreqs.
  assert (Hscan : scan_bidderRequests (before ++ r :: after) = Throw).
  { clear Hreqs. induction Hbefore as [|b before [Hb Hc] _ IH]; simpl.
    - unfold get_strict. by rewrite Hr.
    - unfold get_strict. rewrite Hb. simpl.
      fold (bidderRequest_content b). by rewrite Hc. }
  by rewrite Hscan.
Qed.

Lemma buildContextObject_is_Some (d : value) :
  is_Some (buildContextObject d) ↔ carries_language_or_keywords d = true.
Proof.
  assert (Hnone : is_Some (@None obj) ↔ false = true).
  { split; [by intros [? ?]|done]. }
  assert (Hsome : ∀ o : obj, is_Some (Some o) ↔ true = true).
  { split; [done|by eexists]. }
  unfold buildContextObject, carries_language_or_keywords.
  destruct (truthy d); simpl; [|done].
  destruct (truthy (get d "language")) eqn:El; simpl.
  { by destruct (truthy (get d "keywords") && is_array (get d "keywords")
                 && Nat.ltb 0 (array_length (get d "keywords"))). }
  destruct (get d "keywords") as [| |b|q|w|l|o] eqn:Ek; simpl; try done.
  - by destruct b.
  - by destruct (negb (Qeq_bool q 0)).
  - by destruct (negb (String.eqb w EmptyString)).
  - by destruct l.
Qed.

Lemma find_agree {A} (f g : A → bool) (l : list A) :
  Forall (fun x => f x = g x) l → find f l = find g l.
Proof.
  induction 1 as [|x l Hx _ IH]; simpl; [done|]. by rewrite Hx, IH.
Qed.

(** C1, as amended: the resolver consults its sources in fallback order
    (bidder requests in order, then the event's own descriptor, then the
    global one) and lets the first source that holds a content descriptor
    at all decide: the result is the context built from that descriptor
    alone, which exists exactly when the descriptor carries a truthy
    language or a non-empty keywords array.  Later sources are consulted
    only while no descriptor has been met; when every descriptor present
    carries a language or keywords, this is the first carrying one. *)
Theorem C1_first_present_descriptor_decides (args : AuctionEndArgs)
    (globalConfigOrtb2 : value) :
  Forall (fun r => nullish r = false) (default [] (end_bidderRequests args)) →
  let sources := content_sources args globalConfigOrtb2 in
  getContentContext args globalConfigOrtb2 = first_present sources
  ∧ (∀ d, is_Some (buildContextObject d)
          ↔ carries_language_or_keywords d = true)
  ∧ (Forall (fun d => truthy d = carries_language_or_keywords d) sources →
     getContentContext args globalConfigOrtb2 = first_carrying sources).
Proof.
  intros Hobj sources.
  pose proof (getContentContext_first_present args globalConfigOrtb2 Hobj)
    as Hfirst.
  split; [exact Hfirst|]. split; [apply buildContextObject_is_Some|].
  intros Hall. rewrite Hfirst. unfold first_present, first_carrying.
  fold sources. by rewrite (find_agree _ _ _ Hall).
Qed.

Lemma C1_first_present_descriptor_decides_witness :
  Forall (fun r => nullish r = false)
    (default [] (end_bidderRequests shadowed_args))
  ∧ getContentContext shadowed_args VUndefined
    = first_present (content_sources shadowed_args VUndefined).
Proof.
  assert (H : Forall (fun r => nullish r = false)
                (default [] (end_bidderRequests shadowed_args))).
  { simpl. repeat constructor. }
  split; [exact H|].
  exact (proj1 (C1_first_present_descriptor_decides shadowed_args VUndefined H)).
Defined.

(** C1 as stated fails: the first bidder request holds a descriptor that
    carries neither language nor keywords, the second one carries a
    language, and the resolver returns [null] instead of using it. *)
Lemma C1_later_source_not_consulted :
  getContentContext shadowed_args VUndefined = None
  ∧ first_carrying (content_sources shadowed_args VUndefined)
    = Some [("language", VStr "en"); ("source", VStr "ortb2")].
Proof. split; reflexivity. Qed.

(** ** Dispatch per vendor *)

Lemma onAuctionEnd_request (env : Env) (args : AuctionEndArgs) (st : State)
    (auction : AuctionData) (i : nat) (vendor : VendorConfig) :
  auctionCache st !! end_auctionId args = Some auction →
  cfg_vendors (config st) !! i = Some vendor →
  (onAuctionEnd env args st).2 !! i
  = Some (request_for (config st)
            (fullPayload_of env (config st) args auction)
            (indexPayload_of env args auction) (auctionSignal_of auction)
            vendor).
Proof.
  intros Hfound Hv. rewrite (onAuctionEnd_found _ _ _ _ Hfound). simpl.
  rewrite list_lookup_fmap. by rewrite Hv.
Qed.

(** Exhibit the request issued for the vendor at hand and settle its
    endpoint; what remains is a statement about its body. *)
Ltac request_of_vendor :=
  eexists; split; [by apply onAuctionEnd_request|]; split; [done|];
  cbn [body request_for].

Lemma getExcludeFieldsForVendor_effective (config : Config)
    (vendor : VendorConfig) :
  getExcludeFieldsForVendor config vendor = effective_exclusions config vendor.
Proof.
  unfold getExcludeFieldsForVendor, effective_exclusions.
  by destruct (v_excludeFields vendor) as [[|f fields]|].
Qed.

(** The global list is validated: it stays inside the vocabulary. *)
Lemma enableAnalytics_global_validated (adapterConfig : option Options)
    (cfg : Config) :
  Forall (fun f => includes PAYLOAD_FIELDS f = true) (cfg_excludeFields cfg) →
  Forall (fun f => includes PAYLOAD_FIELDS f = true)
    (cfg_excludeFields (enableAnalytics adapterConfig cfg)).
Proof.
  intros Hcfg. unfold enableAnalytics.
  destruct adapterConfig as [options|]; [|done].
  destruct (opt_vendors options) as [vendors|]; [|done].
  destruct (Nat.eqb (length vendors) 0); [done|].
  destruct (Nat.eqb (length (omap validate_vendor vendors)) 0); [done|].
  simpl. destruct (opt_globalExcludeFields options); try constructor.
  apply List.Forall_forall. intros f Hf. by apply filter_In in Hf as [_ Hf].
Qed.

(** C2 fails on the code for per-vendor lists.  The name [contentContext]
    is outside [PAYLOAD_FIELDS]; [enableAnalytics] drops it from the global
    list but keeps it in the first vendor's list, which then is the
    exclusion set in force for that vendor and removes the property at
    send time; the second vendor, on the validated global list, still
    receives it. *)
Theorem C2_vendor_list_not_validated :
  let config := enableAnalytics (Some unknown_field_options) initial_config in
  let st := {| config := config;
               auctionCache := {[ "A1" := sample_auction ]} |} in
  includes PAYLOAD_FIELDS "contentContext" = false
  ∧ cfg_excludeFields config = ["cpmStats"]
  ∧ map (getExcludeFieldsForVendor config) (cfg_vendors config)
    = [["contentContext"]; ["cpmStats"]]
  ∧ map (fun r => obj_get (body r) "contentContext")
      (onAuctionEnd sample_env sample_end_args st).2
    = [ None;
        Some (VObj [("language", VStr "en"); ("source", VStr "ortb2")]) ].
Proof. repeat split; vm_compute; reflexivity. Qed.

(** C3: a vendor in raw or both mode is filtered with its own
    [excludeFields] when that list is present and non-empty and with the
    global list otherwise, never with both; with global [cpmStats] and a
    vendor override [pageUrl], the raw payload keeps [cpmStats] and differs
    from the full payload only by lacking [pageUrl]. *)
Theorem C3_vendor_exclusions_replace_global (env : Env)
    (args : AuctionEndArgs) (st : State) (auction : AuctionData) (i : nat)
    (vendor : VendorConfig) :
  auctionCache st !! end_auctionId args = Some auction →
  cfg_vendors (config st) !! i = Some vendor →
  v_dataMode vendor ≠ Index →
  let full := fullPayload_of env (config st) args auction in
  ∃ r,
    (onAuctionEnd env args st).2 !! i = Some r
    ∧ url r = v_endpoint vendor
    ∧ (∀ k, k ≠ "auctionSignal" →
         obj_get (body r) k
         = if includes (effective_exclusions (config st) vendor) k
           then None else obj_get full k)
    ∧ (cfg_excludeFields (config st) = ["cpmStats"] →
       v_excludeFields vendor = Some ["pageUrl"] →
       v_dataMode vendor = Raw →
       obj_get (body r) "cpmStats"
       = Some (cpmStats_object (calculateCpmStats (cpms auction)))
       ∧ obj_get (body r) "pageUrl" = None
       ∧ ∀ k, k ≠ "pageUrl" → obj_get (body r) k = obj_get full k).
Proof.
  intros Hfound Hv Hmode full. request_of_vendor.
  assert (Hget : ∀ k, k ≠ "auctionSignal" →
            obj_get (shaped_payload (config st) full
                       (indexPayload_of env args auction)
                       (auctionSignal_of auction) vendor) k
            = if includes (effective_exclusions (config st) vendor) k
              then None else obj_get full k).
  { intros k Hk. unfold shaped_payload.
    rewrite getExcludeFieldsForVendor_effective.
    destruct (v_dataMode vendor); [|done|].
    - apply obj_get_exclude.
    - rewrite obj_get_set_ne by done. apply obj_get_exclude. }
  split; [exact Hget|].
  intros Hglobal Hown Hraw.
  assert (Heff : effective_exclusions (config st) vendor = ["pageUrl"]).
  { unfold effective_exclusions. by rewrite Hown. }
  rewrite Heff in Hget. split; [|split].
  - rewrite Hget by done. simpl. unfold full, fullPayload_of.
    by destruct (getContentContext args (global_ortb2 env)).
  - by rewrite Hget.
  - intros k Hk. unfold shaped_payload. rewrite Hraw.
    rewrite getExcludeFieldsForVendor_effective, Heff, obj_get_exclude.
    simpl. destruct (String.eqb k "pageUrl") eqn:E; [|done].
    apply String.eqb_eq in E. done.
Qed.

Lemma C3_vendor_exclusions_replace_global_witness :
  ∃ r,
    (onAuctionEnd sample_env sample_end_args sample_state).2 !! 0%nat = Some r
    ∧ obj_get (body r) "cpmStats"
      = Some (cpmStats_object (calculateCpmStats [1%Q; 2%Q]))
    ∧ obj_get (body r) "pageUrl" = None.
Proof.
  destruct (C3_vendor_exclusions_replace_global sample_env sample_end_args
              sample_state sample_auction 0 vendor_raw)
    as (r & Hr & _ & _ & Hex); [reflexivity|reflexivity|discriminate|].
  exists r. split; [exact Hr|].
  destruct Hex as (Hc & Hp & _); [reflexivity|reflexivity|reflexivity|].
  split; [exact Hc|exact Hp].
Defined.

(** C4: whatever the exclusion configuration, a vendor in index mode
    receives the index payload as built: its properties are the seven of
    the index literal plus the optional content context, so it has no
    [cpmStats] and no [bidderList]. *)
Theorem C4_index_mode_minimal (env : Env) (args : AuctionEndArgs)
    (st : State) (auction : AuctionData) (i : nat) (vendor : VendorConfig) :
  auctionCache st !! end_auctionId args = Some auction →
  cfg_vendors (config st) !! i = Some vendor →
  v_dataMode vendor = Index →
  ∃ r,
    (onAuctionEnd env args st).2 !! i = Some r
    ∧ url r = v_endpoint vendor
    ∧ body r = indexPayload_of env args auction
    ∧ obj_get (body r) "cpmStats" = None
    ∧ obj_get (body r) "bidderList" = None
    ∧ (∀ k, In k (obj_keys (body r)) →
         In k [ "domain"; "timestamp"; "userAgent"; "auctionSignal";
                "adUnits"; "uniqueBidders"; "fillRate"; "contentContext" ]).
Proof.
  intros Hfound Hv Hmode. request_of_vendor.
  unfold shaped_payload. rewrite Hmode.
  split; [done|]. unfold indexPayload_of.
  destruct (getContentContext args (global_ortb2 env)); simpl;
    (split; [done|split; [done|]]); intros k Hk; tauto.
Qed.

Lemma C4_index_mode_minimal_witness :
  ∃ r,
    (onAuctionEnd sample_env sample_end_args sample_state).2 !! 2%nat = Some r
    ∧ obj_get (body r) "cpmStats" = None
    ∧ obj_get (body r) "bidderList" = None.
Proof.
  destruct (C4_index_mode_minimal sample_env sample_end_args sample_state
              sample_auction 2 vendor_index)
    as (r & Hr & _ & _ & Hc & Hb & _); [reflexivity|reflexivity|reflexivity|].
  exists r. split; [exact Hr|]. split; [exact Hc|exact Hb].
Defined.

(** C10: a vendor in both mode always receives [auctionSignal], bound to
    the computed score, even when its exclusion set names that property:
    the property is set after the exclusions were applied. *)
Theorem C10_both_mode_keeps_signal (env : Env) (args : AuctionEndArgs)
    (st : State) (auction : AuctionData) (i : nat) (vendor : VendorConfig) :
  auctionCache st !! end_auctionId args = Some auction →
  cfg_vendors (config st) !! i = Some vendor →
  v_dataMode vendor = Both →
  ∃ r,
    (onAuctionEnd env args st).2 !! i = Some r
    ∧ url r = v_endpoint vendor
    ∧ obj_get (body r) "auctionSignal"
      = Some (VNum (auctionSignal_of auction)).
Proof.
  intros Hfound Hv Hmode. request_of_vendor.
  unfold shaped_payload. rewrite Hmode. apply obj_get_set_eq.
Qed.

Lemma C10_both_mode_keeps_signal_witness :
  In "auctionSignal" (getExcludeFieldsForVendor sample_config vendor_both)
  ∧ ∃ r,
      (onAuctionEnd sample_env sample_end_args sample_state).2 !! 1%nat
      = Some r
      ∧ obj_get (body r) "auctionSignal"
        = Some (VNum (auctionSignal_of sample_auction)).
Proof.
  split; [simpl; tauto|].
  destruct (C10_both_mode_keeps_signal sample_env sample_end_args sample_state
              sample_auction 1 vendor_both)
    as (r & Hr & _ & Hs); [reflexivity|reflexivity|reflexivity|].
  exists r. split; [exact Hr|exact Hs].
Defined.

(** C9: [filterPayload] never mutates its input.  Every object of the
    store, the payload included, has the same properties afterwards;
    nothing is sent; the result lacks exactly the excluded properties and
    agrees with the payload on every other one.  Hence one full payload
    serves every destination: each request of a dispatch is a function of
    its own vendor, and the full payload is intact at the end. *)
Theorem C9_filtering_is_copy_on_write (payload : ref)
    (excludeFields : list string) (s : Store) (o : obj) :
  heap s !! payload = Some o →
  (∀ r0 o0, heap s !! r0 = Some o0 →
     heap (filterPayload payload excludeFields s).2 !! r0 = Some o0)
  ∧ sent (filterPayload payload excludeFields s).2 = sent s
  ∧ (∃ filtered,
       heap (filterPayload payload excludeFields s).2
         !! (filterPayload payload excludeFields s).1 = Some filtered
       ∧ ∀ k, obj_get filtered k
              = if includes excludeFields k then None else obj_get o k)
  ∧ (∀ config indexPayload index signal,
       heap s !! indexPayload = Some index →
       let s' := (sendTelemetryToVendors config payload indexPayload signal
                    s).2 in
       sent s' = sent s ++ map (request_for config o index signal)
                             (cfg_vendors config)
       ∧ heap s' !! payload = Some o
       ∧ heap s' !! indexPayload = Some index).
Proof.
  intros Hp.
  destruct (filterPayload_run payload excludeFields s o Hp)
    as (r & ext & Hrun & Hr).
  rewrite Hrun. simpl. split; [|split; [done|split]].
  - intros r0 o0 H0. by apply lookup_app_l_Some.
  - exists (exclude o excludeFields). split; [done|].
    intros k. apply obj_get_exclude.
  - intros cfg indexPayload index signal Hi.
    destruct (sendTelemetryToVendors_run cfg payload indexPayload signal
                s o index Hp Hi) as (ext' & Hsend).
    rewrite Hsend. simpl. split; [done|].
    split; by apply lookup_app_l_Some.
Qed.

Lemma C9_filtering_is_copy_on_write_witness :
  heap (filterPayload 0 ["cpmStats"; "bidderList"] sample_store).2 !! 0%nat
  = Some sample_fullPayload
  ∧ sent (filterPayload 0 ["cpmStats"; "bidderList"] sample_store).2 = [].
Proof.
  destruct (C9_filtering_is_copy_on_write 0 ["cpmStats"; "bidderList"]
              sample_store sample_fullPayload)
    as (Hkeep & Hsent & _); [reflexivity|].
  split; [apply Hkeep; reflexivity|exact Hsent].
Defined.

(** ** Events for unknown auctions *)

Lemma lookup_after_onAuctionEnd (env : Env) (args : AuctionEndArgs)
    (st : State) :
  auctionCache (onAuctionEnd env args st).1 !! end_auctionId args = None.
Proof.
  unfold onAuctionEnd.
  destruct (auctionCache st !! end_auctionId args) as [auction|] eqn:E.
  - destruct (buildAndSend _ _ _ _ _). simpl. apply lookup_delete_eq.
  - done.
Qed.

(** On the own properties, an event for an identifier without a record
    changes nothing and issues no request. *)
Lemma trackEvent_without_record (env : Env) (st : State) (id : string) :
  auctionCache st !! id = None →
  (∀ cpm,
     trackEvent env
       (BID_RESPONSE {| resp_auctionId := id; resp_cpm := cpm |}) st
     = (st, []))
  ∧ trackEvent env (NO_BID {| nobid_auctionId := id |}) st = (st, [])
  ∧ (∀ args, end_auctionId args = id →
       trackEvent env (AUCTION_END args) st = (st, [])).
Proof.
  intros Hnone. repeat split.
  - intros cpm. simpl. unfold onBidResponse, with_cache. simpl.
    rewrite Hnone. by destruct st.
  - simpl. unfold onNoBid, with_cache. simpl. rewrite Hnone. by destruct st.
  - intros args <-. simpl. by apply onAuctionEnd_unknown.
Qed.

Lemma on_own_properties_unchanged (env : Env) (ev : Event) (t : Table) :
  trackEvent env ev (table_state t) = (table_state t, []) →
  on_own_properties env ev t = Normal (t, []).
Proof. intros E. unfold on_own_properties. rewrite E. by destruct t. Qed.

Lemma cache_get_plain (st : State) (id : string) :
  id ≠ "__proto__" →
  auctionCache st !! id = None →
  cache_get (plain_table st) id = inherited id.
Proof.
  intros Hid Hnone. unfold cache_get.
  destruct (String.eqb_spec id "__proto__") as [|_]; [done|].
  simpl. by rewrite Hnone.
Qed.

Lemma cache_get_plain_record (st : State) (id : string)
    (auction : AuctionData) :
  id ≠ "__proto__" →
  auctionCache st !! id = Some auction →
  cache_get (plain_table st) id = FoundRecord auction.
Proof.
  intros Hid Hsome. unfold cache_get.
  destruct (String.eqb_spec id "__proto__") as [|_]; [done|].
  simpl. by rewrite Hsome.
Qed.

(** What [auctionCache[id]] finds when no record is stored under [id]
    and the prototype is [Object.prototype]: an inherited object for the
    names of its members, nothing for every other name. *)
Lemma cache_get_without_record (st : State) (id : string) :
  auctionCache st !! id = None →
  cache_get (plain_table st) id
  = if String.eqb id "__proto__" || includes Object_prototype_functions id
    then FoundObject else NotFound.
Proof.
  intros Hnone. unfold cache_get, inherited.
  destruct (String.eqb id "__proto__"); [done|].
  simpl. by rewrite Hnone.
Qed.

(** On a table whose prototype is [Object.prototype], an event for an
    identifier that names no member of [Object.prototype] is handled on
    the own properties. *)
Lemma track_on_own_properties (env : Env) (ev : Event) (st : State) :
  (∀ id, event_auctionId ev = Some id →
         id ≠ "__proto__" ∧ includes Object_prototype_functions id = false) →
  track env ev (plain_table st) = on_own_properties env ev (plain_table st).
Proof.
  intros Hid.
  assert (Hget : ∀ id, event_auctionId ev = Some id →
            cache_get (plain_table st) id = NotFound
            ∨ ∃ a, cache_get (plain_table st) id = FoundRecord a).
  { intros id Hev. destruct (Hid id Hev) as [Hne Hnot].
    destruct (auctionCache st !! id) as [a|] eqn:E.
    - right. exists a. by apply cache_get_plain_record.
    - left. rewrite cache_get_plain by done. unfold inherited.
      by rewrite Hnot. }
  destruct ev as [args|args|args|args|args|]; cbn [track]; try done.
  - destruct (Hid _ eq_refl) as [Hne _].
    by destruct (String.eqb_spec (init_auctionId args) "__proto__").
  - by destruct (Hget _ eq_refl) as [-> | [a ->]].
  - by destruct (Hget _ eq_refl) as [-> | [a ->]].
  - by destruct (Hget _ eq_refl) as [-> | [a ->]].
  - by destruct (Hget _ eq_refl) as [-> | [a ->]].
Qed.

(** C5: the events for an identifier that has no record.  When the
    identifier names no member of [Object.prototype], a bid response, a
    no-bid and an auction end return normally, issue no request and leave
    the table as it was, and so does a second auction end after the first
    has removed the record.  When the identifier names a member of
    [Object.prototype] ("constructor", "toString", "__proto__", ...), the
    lookup finds the inherited object, the guard does not fire, and a bid
    response with a positive CPM and an auction end throw; after an
    auction end has removed a record stored under such a name, a second
    auction end throws as well. *)
Theorem C5_inherited_identifier_raises (env : Env) (st : State)
    (id : string) :
  auctionCache st !! id = None →
  (id ≠ "__proto__" → includes Object_prototype_functions id = false →
     (∀ cpm,
        track env (BID_RESPONSE {| resp_auctionId := id; resp_cpm := cpm |})
          (plain_table st)
        = Normal (plain_table st, []))
     ∧ track env (NO_BID {| nobid_auctionId := id |}) (plain_table st)
       = Normal (plain_table st, [])
     ∧ (∀ args, end_auctionId args = id →
          track env (AUCTION_END args) (plain_table st)
          = Normal (plain_table st, [])))
  ∧ (id = "__proto__" ∨ includes Object_prototype_functions id = true →
       (∀ q, (0 < q)%Q →
          track env
            (BID_RESPONSE {| resp_auctionId := id; resp_cpm := VNum q |})
            (plain_table st)
          = Throw)
       ∧ track env (NO_BID {| nobid_auctionId := id |}) (plain_table st)
         = Normal (plain_table st, [])
       ∧ (∀ args, end_auctionId args = id →
            track env (AUCTION_END args) (plain_table st) = Throw))
  ∧ (∀ env1 env2 args1 args2 st0 auction,
       end_auctionId args1 = id → end_auctionId args2 = id →
       id ≠ "__proto__" →
       auctionCache st0 !! id = Some auction →
       ∃ t1 out,
         track env1 (AUCTION_END args1) (plain_table st0) = Normal (t1, out)
         ∧ track env2 (AUCTION_END args2) t1
           = if includes Object_prototype_functions id
             then Throw else Normal (t1, [])).
Proof.
  intros Hnone.
  pose proof (cache_get_without_record st id Hnone) as Hget.
  destruct (trackEvent_without_record env st id Hnone)
    as (Hresp & Hnobid & Hend).
  split; [|split].
  - intros Hne Hnot.
    assert (Hown : ∀ ev, event_auctionId ev = Some id →
              track env ev (plain_table st)
              = on_own_properties env ev (plain_table st)).
    { intros ev Hev. apply track_on_own_properties.
      intros id' Hid'. by assert (id' = id) as -> by congruence. }
    split; [|split].
    + intros cpm. rewrite Hown by done.
      by apply on_own_properties_unchanged, Hresp.
    + rewrite Hown by done. by apply on_own_properties_unchanged.
    + intros args Hid. rewrite Hown by (by rewrite <- Hid).
      by apply on_own_properties_unchanged, Hend.
  - intros Hmember.
    assert (Hobj : cache_get (plain_table st) id = FoundObject).
    { rewrite Hget. destruct Hmember as [-> | ->]; [done|].
      by rewrite orb_true_r. }
    split; [|split].
    + intros q Hq. cbn [track resp_auctionId resp_cpm]. rewrite Hobj.
      cbn [positive_number]. change (num_gt q 0%Q) with (negb (Qle_bool q 0)).
      destruct (Qle_bool q 0) eqn:E; [|done].
      apply Qle_bool_iff in E. lra.
    + cbn [track nobid_auctionId]. by rewrite Hobj.
    + intros args Hid. cbn [track]. by rewrite Hid, Hobj.
  - intros env1 env2 args1 args2 st0 auction Hid1 Hid2 Hne Hsome.
    exists (plain_table (onAuctionEnd env1 args1 st0).1),
           (onAuctionEnd env1 args1 st0).2.
    split.
    + cbn [track]. rewrite Hid1.
      by rewrite (cache_get_plain_record st0 id auction).
    + pose proof (lookup_after_onAuctionEnd env1 args1 st0) as Hgone.
      rewrite Hid1 in Hgone.
      cbn [track]. rewrite Hid2, (cache_get_without_record _ id Hgone).
      destruct (String.eqb_spec id "__proto__") as [|_]; [done|].
      cbn [orb].
      destruct (includes Object_prototype_functions id); [done|].
      apply on_own_properties_unchanged. cbn [trackEvent plain_table table_state].
      apply onAuctionEnd_unknown. by rewrite Hid2.
Qed.


Lemma C5_inherited_identifier_raises_witness :
  track sample_env
    (BID_RESPONSE {| resp_auctionId := "constructor"; resp_cpm := VNum 1.5 |})
    (plain_table fresh_state)
  = Throw
  ∧ track sample_env (AUCTION_END constructor_end_args)
      (plain_table fresh_state)
    = Throw
  ∧ track sample_env (NO_BID {| nobid_auctionId := "B7" |})
      (plain_table sample_state)
    = Normal (plain_table sample_state, []).
Proof.
  destruct (C5_inherited_identifier_raises sample_env fresh_state
              "constructor") as (_ & Hmember & _); [reflexivity|].
  destruct (Hmember (or_intror eq_refl)) as (Hresp & _ & Hend).
  destruct (C5_inherited_identifier_raises sample_env sample_state "B7")
    as (Hplain & _); [reflexivity|].
  destruct Hplain as (_ & Hnobid & _); [discriminate|reflexivity|].
  split; [apply Hresp; reflexivity|].
  split; [by apply Hend|exact Hnobid].
Defined.

(** ** Numbers: rounding, minimum, sorting *)

Section Rationals.
Local Open Scope Q_scope.

Lemma round2_unfold (x : Q) :
  round2 x = inject_Z (Qfloor (x * 100 + (1 # 2))) / 100.
Proof. reflexivity. Qed.

Lemma round2_comp (x y : Q) : x == y → round2 x == round2 y.
Proof.
  intros E. rewrite !round2_unfold.
  assert (E' : x * 100 + (1 # 2) == y * 100 + (1 # 2)) by (rewrite E; reflexivity).
  by rewrite (Qfloor_comp _ _ E').
Qed.

Lemma round2_is_round2 (x : Q) : is_round2 x (round2 x).
Proof.
  rewrite round2_unfold. set (n := Qfloor (x * 100 + (1 # 2))).
  pose proof (Qfloor_le (x * 100 + (1 # 2))) as Hlo.
  pose proof (Qlt_floor (x * 100 + (1 # 2))) as Hhi.
  fold n in Hlo, Hhi. rewrite inject_Z_plus in Hhi.
  change (inject_Z 1) with 1 in Hhi.
  split; [by exists n|].
  generalize dependent (inject_Z n). intros q Hlo Hhi.
  unfold Qdiv. change (/ 100) with (1 # 100). split; lra.
Qed.

Lemma round2_bounds (x : Q) : 0 <= x <= 1 → 0 <= round2 x <= 1.
Proof.
  intros [Hlo Hhi]. rewrite round2_unfold.
  assert (H0 : (Qfloor (1 # 2) <= Qfloor (x * 100 + (1 # 2)))%Z)
    by (apply Qfloor_resp_le; lra).
  assert (H1 : (Qfloor (x * 100 + (1 # 2)) <= Qfloor (201 # 2))%Z)
    by (apply Qfloor_resp_le; lra).
  change (Qfloor (1 # 2)) with 0%Z in H0.
  change (Qfloor (201 # 2)) with 100%Z in H1.
  generalize dependent (Qfloor (x * 100 + (1 # 2))). intros n H0 H1.
  rewrite Zle_Qle in H0, H1.
  change (inject_Z 0) with 0 in H0. change (inject_Z 100) with 100 in H1.
  unfold Qdiv. change (/ 100) with (1 # 100). split; lra.
Qed.

Lemma Math_min_Qmin (a b : Q) : Math_min a b == Qmin a b.
Proof.
  simpl. destruct (Qle_bool a b) eqn:E.
  - apply Qle_bool_iff in E. symmetry. by apply Q.min_l.
  - symmetry. apply Q.min_r. apply Qlt_le_weak, Qnot_le_lt.
    intros Hle. apply Qle_bool_iff in Hle. congruence.
Qed.

Lemma calculateAuctionSignal_round2 (fillRate avgCpm uniqueBidders : Q) :
  calculateAuctionSignal fillRate avgCpm uniqueBidders
  == round2 (weighted_score fillRate avgCpm uniqueBidders).
Proof.
  unfold calculateAuctionSignal, weighted_score. apply round2_comp.
  change (@num_mul Q Q_number) with Qmult.
  change (@num_add Q Q_number) with Qplus.
  change (@num_div Q Q_number) with Qdiv.
  change (@num_lit Q Q_number) with (fun q : Q => q). cbv beta.
  by rewrite !Math_min_Qmin.
Qed.

Lemma weighted_score_bounds (fillRate avgCpm uniqueBidders : Q) :
  0 <= fillRate → 0 <= avgCpm → 0 <= uniqueBidders →
  0 <= weighted_score fillRate avgCpm uniqueBidders <= 1.
Proof.
  intros Hf Hc Hu. unfold weighted_score.
  assert (Hc' : 0 <= avgCpm / 10).
  { unfold Qdiv. change (/ 10) with (1 # 10). lra. }
  assert (Hu' : 0 <= uniqueBidders / 10).
  { unfold Qdiv. change (/ 10) with (1 # 10). lra. }
  pose proof (Q.le_min_r fillRate 1).
  pose proof (Q.le_min_r (avgCpm / 10) 1).
  pose proof (Q.le_min_r (uniqueBidders / 10) 1).
  assert (0 <= Qmin fillRate 1) by (apply Q.min_glb; lra).
  assert (0 <= Qmin (avgCpm / 10) 1) by (apply Q.min_glb; lra).
  assert (0 <= Qmin (uniqueBidders / 10) 1) by (apply Q.min_glb; lra).
  split; lra.
Qed.
Lemma is_round2_comp (x y r : Q) : x == y → is_round2 x r → is_round2 y r.
Proof. intros E (Hn & Hlo & Hhi). split; [exact Hn|]. split; lra. Qed.

Lemma comparator_positive (x y : Q) :
  num_gt (comparator x y) (num_lit 0) = true ↔ y < x.
Proof.
  unfold comparator. simpl. rewrite negb_true_iff. split.
  - intros E. apply Qnot_le_lt. intros Hle.
    assert (Hle' : x - y <= 0) by lra.
    apply Qle_bool_iff in Hle'. congruence.
  - intros Hlt. destruct (Qle_bool (x - y) 0) eqn:E; [|done].
    apply Qle_bool_iff in E. lra.
Qed.

Lemma sort_insert_Permutation (x : Q) (l : list Q) :
  Permutation (sort_insert x l) (x :: l).
Proof.
  induction l as [|y l IH]; cbn [sort_insert]; [reflexivity|].
  destruct (num_gt (comparator x y) (num_lit 0)); [|reflexivity].
  rewrite IH. apply perm_swap.
Qed.

Lemma sort_Permutation (l : list Q) : Permutation (sort l) l.
Proof.
  induction l as [|x l IH]; cbn [sort]; [reflexivity|].
  rewrite sort_insert_Permutation. by constructor.
Qed.

Lemma sort_insert_Sorted (x : Q) (l : list Q) :
  Sorted Qle l → Sorted Qle (sort_insert x l).
Proof.
  induction 1 as [|y l Hl IH Hhd]; cbn [sort_insert].
  - by repeat constructor.
  - destruct (num_gt (comparator x y) (num_lit 0)) eqn:E.
    + apply comparator_positive in E. constructor; [done|].
      destruct l as [|z l]; cbn [sort_insert] in *.
      * constructor. lra.
      * destruct (num_gt (comparator x z) (num_lit 0)).
        -- constructor. by inversion Hhd.
        -- constructor. lra.
    + constructor; [by constructor|]. constructor.
      apply Qnot_lt_le. intros Hlt. apply comparator_positive in Hlt.
      congruence.
Qed.

Lemma sort_Sorted (l : list Q) : Sorted Qle (sort l).
Proof.
  induction l as [|x l IH]; cbn [sort]; [constructor|].
  by apply sort_insert_Sorted.
Qed.

Lemma fold_left_Qplus (l : list Q) (a : Q) :
  fold_left Qplus l a == a + fold_right Qplus 0 l.
Proof.
  revert a. induction l as [|x l IH]; intros a; simpl; [lra|].
  rewrite IH. lra.
Qed.

Lemma nth_last_index {A : Type} (l : list A) (d : A) :
  nth (length l - 1) l d = List.last l d.
Proof.
  induction l as [|x l IH]; simpl; [done|].
  destruct l as [|y l]; [done|]. simpl in *.
  by rewrite Nat.sub_0_r in IH.
Qed.

Lemma odd_by_remainder (n : nat) :
  negb (Nat.eqb (Nat.modulo n 2) 0) = Nat.odd n.
Proof.
  pose proof (Nat.div_mod_eq n 2) as Hdm.
  pose proof (Nat.mod_upper_bound n 2 ltac:(lia)) as Hlt.
  destruct (Nat.odd n) eqn:E.
  - apply Nat.odd_spec in E as [k Hk].
    destruct (Nat.modulo n 2) as [|[|r]]; simpl; [lia|done|lia].
  - rewrite <- Nat.negb_even in E. apply negb_false_iff in E.
    apply Nat.even_spec in E as [k Hk].
    destruct (Nat.modulo n 2) as [|[|r]]; simpl; [done|lia|lia].
Qed.

(** The indices read from [sorted] are in range. *)
Lemma median_indices_in_range (n : nat) :
  (0 < n)%nat →
  (n - 1 < n)%nat ∧ (n / 2 < n)%nat
  ∧ (Nat.modulo n 2 = 0%nat → (n / 2 - 1 < n)%nat ∧ (1 <= n / 2)%nat).
Proof.
  intros Hn. pose proof (Nat.div_mod_eq n 2) as Hdm.
  pose proof (Nat.mod_upper_bound n 2 ltac:(lia)) as Hlt.
  repeat split; lia.
Qed.

Lemma calculateCpmStats_unfold (cpms : list Q) :
  cpms ≠ [] →
  calculateCpmStats cpms
  = let sorted := sort cpms in
    let mid := Nat.div (length sorted) 2 in
    {| avg := round2 (fold_left Qplus cpms 0
                      / inject_Z (Z.of_nat (length cpms)));
       max := round2 (nth (length sorted - 1) sorted 0);
       min := round2 (nth 0 sorted 0);
       median :=
         round2 (if negb (Nat.eqb (Nat.modulo (length sorted) 2) 0)
                 then nth mid sorted 0
                 else (nth (mid - 1) sorted 0 + nth mid sorted 0) / 2) |}.
Proof. intros Hne. destruct cpms; [done|reflexivity]. Qed.

(** The statistics of a non-empty sequence, in terms of its ascending
    arrangement. *)
Lemma calculateCpmStats_nonempty (cpms : list Q) :
  cpms ≠ [] →
  let s := calculateCpmStats cpms in
  avg s == round2 (mean cpms)
  ∧ min s = round2 (hd 0 (sort cpms))
  ∧ max s = round2 (List.last (sort cpms) 0)
  ∧ median s = round2 (median_of (sort cpms)).
Proof.
  intros Hne s. subst s. rewrite calculateCpmStats_unfold by done.
  cbv zeta. cbn [avg min max median]. split; [|split; [|split]].
  - apply round2_comp. unfold mean.
    rewrite fold_left_Qplus. by rewrite Qplus_0_l.
  - f_equal. by destruct (sort cpms).
  - f_equal. apply nth_last_index.
  - f_equal. unfold median_of. rewrite odd_by_remainder.
    by destruct (Nat.odd (length (sort cpms))).
Qed.
End Rationals.

(** ** Numbers: what holds in every number model *)

Section AnyNumber.
Context {num : Type} `{JsNumber num}.

Lemma sort_insert_Permutation_any (x : num) (l : list num) :
  Permutation (sort_insert x l) (x :: l).
Proof.
  induction l as [|y l IH]; cbn [sort_insert]; [reflexivity|].
  destruct (num_gt (comparator x y) (num_lit 0)); [|reflexivity].
  rewrite IH. apply perm_swap.
Qed.

Lemma sort_Permutation_any (l : list num) : Permutation (sort l) l.
Proof.
  induction l as [|x l IH]; cbn [sort]; [reflexivity|].
  rewrite sort_insert_Permutation_any. by constructor.
Qed.

(** The statistics of a non-empty sequence in terms of its sorted copy. *)
Lemma calculateCpmStats_computed (cpms : list num) :
  cpms ≠ [] →
  calculateCpmStats cpms
  = {| avg := round2 (computed_mean cpms);
       max := round2 (List.last (sort cpms) (num_lit 0));
       min := round2 (hd (num_lit 0) (sort cpms));
       median := round2 (computed_median (sort cpms)) |}.
Proof.
  intros Hne. unfold calculateCpmStats.
  destruct cpms as [|x cpms]; [done|].
  cbn [length Nat.eqb]. cbv zeta. unfold at_index. f_equal.
  - by rewrite nth_last_index.
  - by destruct (sort (x :: cpms)).
  - unfold computed_median. rewrite odd_by_remainder.
    by destruct (Nat.odd (length (sort (x :: cpms)))).
Qed.

(** When the comparator orders the values of a class of numbers by a
    rational [value_of], the sorted copy ascends in [value_of]. *)
Variable value_of : num → Q.
Variable comparable : num → Prop.
Hypothesis comparator_by_value :
  ∀ x y, comparable x → comparable y →
    num_gt (comparator x y) (num_lit 0) = true ↔ (value_of y < value_of x)%Q.

Lemma sort_insert_comparable (x : num) (l : list num) :
  comparable x → Forall comparable l → Forall comparable (sort_insert x l).
Proof.
  intros Hx Hl. rewrite sort_insert_Permutation_any. by constructor.
Qed.

Lemma sort_comparable (l : list num) :
  Forall comparable l → Forall comparable (sort l).
Proof.
  intros Hl. by rewrite sort_Permutation_any.
Qed.

Lemma sort_insert_ascending (x : num) (l : list num) :
  comparable x → Forall comparable l →
  Sorted (fun a b => (value_of a <= value_of b)%Q) l →
  Sorted (fun a b => (value_of a <= value_of b)%Q) (sort_insert x l).
Proof.
  intros Hx Hl Hs. induction Hs as [|y l Hs IH Hhd]; cbn [sort_insert].
  - by repeat constructor.
  - apply Forall_cons in Hl as [Hy Hl].
    destruct (num_gt (comparator x y) (num_lit 0)) eqn:E.
    + apply comparator_by_value in E; [|done..]. constructor; [by apply IH|].
      destruct l as [|z l]; cbn [sort_insert] in *.
      * constructor. lra.
      * destruct (num_gt (comparator x z) (num_lit 0)).
        -- constructor. by inversion Hhd.
        -- constructor. lra.
    + constructor; [by constructor|]. constructor.
      apply Qnot_lt_le. intros Hlt. apply comparator_by_value in Hlt; [|done..].
      congruence.
Qed.

Lemma sort_ascending (l : list num) :
  Forall comparable l →
  Sorted (fun a b => (value_of a <= value_of b)%Q) (sort l).
Proof.
  induction l as [|x l IH]; intros Hl; cbn [sort]; [constructor|].
  apply Forall_cons in Hl as [Hx Hl].
  apply sort_insert_ascending; [done|by apply sort_comparable|by apply IH].
Qed.
End AnyNumber.

(** ** Doubles: the comparator orders them by value *)

Lemma iter_pos_nat {A : Type} (f : A → A) (p : positive) (x : A) :
  SpecFloat.iter_pos f p x = Nat.iter (Pos.to_nat p) f x.
Proof.
  revert x. induction p as [p IH|p IH|]; intros x; cbn [SpecFloat.iter_pos].
  - rewrite !IH, Pos2Nat.inj_xI.
    replace (S (2 * Pos.to_nat p))
      with (Pos.to_nat p + (Pos.to_nat p + 1))%nat by lia.
    by rewrite !Nat.iter_add.
  - rewrite !IH, Pos2Nat.inj_xO.
    replace (2 * Pos.to_nat p)%nat
      with (Pos.to_nat p + Pos.to_nat p)%nat by lia.
    by rewrite Nat.iter_add.
  - reflexivity.
Qed.

(** Shifting a mantissa right by fewer places than it has digits leaves a
    positive mantissa. *)
Lemma shr_1_iter_positive (k : nat) (m : positive) (r s : bool) :
  Z.of_nat k < Zpos (digits2_pos m) →
  ∃ m' r' s',
    Nat.iter k shr_1 {| shr_m := Zpos m; shr_r := r; shr_s := s |}
    = {| shr_m := Zpos m'; shr_r := r'; shr_s := s' |}
    ∧ Zpos (digits2_pos m') = Zpos (digits2_pos m) - Z.of_nat k.
Proof.
  induction k as [|k IH]; intros Hk.
  - exists m, r, s. split; [done|]. lia.
  - destruct IH as (m' & r' & s' & E & Hd); [lia|].
    rewrite Nat.iter_succ, E.
    destruct m' as [p|p|]; cbn [shr_1 digits2_pos] in *.
    + eexists _, _, _. split; [done|]. lia.
    + eexists _, _, _. split; [done|]. lia.
    + lia.
Qed.

Lemma shr_positive (m : positive) (r s : bool) (e n : Z) :
  n < Zpos (digits2_pos m) →
  ∃ m' r' s',
    shr {| shr_m := Zpos m; shr_r := r; shr_s := s |} e n
    = ({| shr_m := Zpos m'; shr_r := r'; shr_s := s' |}, e + Z.max n 0).
Proof.
  intros Hn. destruct n as [|p|p]; cbn [shr].
  - exists m, r, s. f_equal. lia.
  - rewrite iter_pos_nat.
    destruct (shr_1_iter_positive (Pos.to_nat p) m r s)
      as (m' & r' & s' & E & _); [lia|].
    exists m', r', s'. by rewrite E.
  - exists m, r, s. f_equal. lia.
Qed.

Lemma shr_fexp_positive (m : positive) (e : Z) (l : location) :
  emin Binary64.prec Binary64.emax <= e →
  ∃ m' r' s' e',
    shr_fexp Binary64.prec Binary64.emax (Zpos m) e l
    = ({| shr_m := Zpos m'; shr_r := r'; shr_s := s' |}, e')
    ∧ emin Binary64.prec Binary64.emax <= e'.
Proof.
  intros He. unfold shr_fexp.
  set (n := fexp Binary64.prec Binary64.emax (Zdigits2 (Zpos m) + e) - e).
  assert (Hn : n < Zpos (digits2_pos m)).
  { unfold n, fexp. cbn [Zdigits2]. unfold Binary64.prec at 1. lia. }
  assert (Hrec : ∃ r s, shr_record_of_loc (Zpos m) l
                        = {| shr_m := Zpos m; shr_r := r; shr_s := s |}).
  { destruct l as [|[]]; cbn; eauto. }
  destruct Hrec as (r & s & ->).
  destruct (shr_positive m r s e n Hn) as (m' & r' & s' & E).
  exists m', r', s', (e + Z.max n 0). split; [done|]. lia.
Qed.

(** Rounding a non-zero mantissa at an exponent a double can have never
    yields a zero: the result keeps the sign. *)
Lemma binary_round_aux_signed (sx : bool) (m : positive) (e : Z)
    (l : location) :
  emin Binary64.prec Binary64.emax <= e →
  Binary64.signed sx (binary_round_aux Binary64.prec Binary64.emax sx (Zpos m) e l).
Proof.
  intros He. unfold binary_round_aux.
  destruct (shr_fexp_positive m e l He) as (m1 & r1 & s1 & e1 & -> & He1).
  assert (Hround : ∃ m2,
            round_nearest_even
              (shr_m {| shr_m := Zpos m1; shr_r := r1; shr_s := s1 |})
              (loc_of_shr_record
                 {| shr_m := Zpos m1; shr_r := r1; shr_s := s1 |})
            = Zpos m2).
  { cbn [shr_m].
    destruct (loc_of_shr_record _) as [|[]]; cbn [round_nearest_even];
      try destruct (Z.even _); eauto. }
  destruct Hround as (m2 & ->).
  destruct (shr_fexp_positive m2 e1 loc_Exact He1)
    as (m3 & r3 & s3 & e3 & -> & _).
  cbn [shr_m]. by destruct (e3 <=? _).
Qed.

Lemma binary_round_signed (sx : bool) (m : positive) (e : Z) :
  emin Binary64.prec Binary64.emax <= e →
  Binary64.signed sx (binary_round Binary64.prec Binary64.emax sx m e).
Proof.
  intros He. unfold binary_round, shl_align.
  destruct (fexp Binary64.prec Binary64.emax (Zpos (digits2_pos m) + e) - e)
    as [|p|p] eqn:E; apply binary_round_aux_signed; try done.
  unfold fexp in *. lia.
Qed.

Lemma double_exponent (s : bool) (m : positive) (e : Z) :
  Binary64.double (S754_finite s m e) = true →
  emin Binary64.prec Binary64.emax <= e.
Proof.
  cbn [Binary64.double]. unfold bounded, canonical_mantissa, fexp.
  intros Hb. apply andb_true_iff in Hb as [Hc _].
  apply Z.eqb_eq in Hc. lia.
Qed.

Lemma shl_align_value (m : positive) (e ez : Z) :
  ez <= e → Zpos (fst (shl_align m e ez)) = Zpos m * 2 ^ (e - ez).
Proof.
  intros Hle. unfold shl_align.
  destruct (ez - e) as [|p|p] eqn:E; cbn [fst].
  - replace (e - ez) with 0 by lia. lia.
  - lia.
  - change (Pos.iter xO m p) with (shift_pos p m).
    rewrite shift_pos_correct.
    replace (e - ez) with (Zpos p) by lia.
    change (2 ^ Zpos p) with (Z.pow_pos 2 p). lia.
Qed.

Lemma two_power (a b : Z) : (2 ^ (a + b) == 2 ^ a * 2 ^ b)%Q.
Proof. apply Qpower_plus. discriminate. Qed.

Lemma to_Q_aligned (s : bool) (m : positive) (e ez : Z) :
  ez <= e →
  (Binary64.to_Q (S754_finite s m e)
   == inject_Z (cond_Zopp s (Zpos (fst (shl_align m e ez)))) * 2 ^ ez)%Q.
Proof.
  intros Hle. cbn [Binary64.to_Q]. rewrite shl_align_value by done.
  replace (cond_Zopp s (Zpos m * 2 ^ (e - ez)))
    with (cond_Zopp s (Zpos m) * 2 ^ (e - ez)) by (destruct s; simpl; lia).
  rewrite inject_Z_mult, (Zpower_Qpower 2 (e - ez)) by lia.
  replace e with ((e - ez) + ez) at 1 by lia.
  rewrite two_power. change (inject_Z 2) with 2%Q. ring.
Qed.

Lemma to_Q_sign (z : Z) (e : Z) : (0 < inject_Z z * 2 ^ e)%Q ↔ 0 < z.
Proof.
  assert (Hp : (0 < 2 ^ e)%Q) by (by apply Qpower_0_lt).
  split.
  - intros H. destruct (Z_lt_le_dec 0 z) as [|Hle]; [done|].
    exfalso. rewrite Zle_Qle in Hle. change (inject_Z 0) with 0%Q in Hle.
    nra.
  - intros H. rewrite Zlt_Qlt in H. change (inject_Z 0) with 0%Q in H. nra.
Qed.

Lemma to_Q_finite_sign (s : bool) (m : positive) (e : Z) :
  ((0 < Binary64.to_Q (S754_finite s m e))%Q ↔ s = false)
  ∧ ((Binary64.to_Q (S754_finite s m e) < 0)%Q ↔ s = true).
Proof.
  cbn [Binary64.to_Q].
  assert (Hp : (0 < 2 ^ e)%Q) by (by apply Qpower_0_lt).
  generalize dependent (2 ^ e)%Q. intros p Hp.
  destruct s; cbn [cond_Zopp]; try change (- Z.pos m) with (Z.neg m).
  - assert (Hm : (inject_Z (Z.neg m) < 0)%Q)
      by (change 0%Q with (inject_Z 0); rewrite <- Zlt_Qlt; lia).
    generalize dependent (inject_Z (Z.neg m)). intros q Hq.
    split; split; intros H; try done.
    + exfalso. nra.
    + nra.
  - assert (Hm : (0 < inject_Z (Z.pos m))%Q)
      by (change 0%Q with (inject_Z 0); rewrite <- Zlt_Qlt; lia).
    generalize dependent (inject_Z (Z.pos m)). intros q Hq.
    split; split; intros H; try done.
    + nra.
    + exfalso. nra.
Qed.

Lemma positive_signed (sx : bool) (x : spec_float) :
  Binary64.signed sx x → Binary64.positive x = negb sx.
Proof.
  destruct x as [| | |s m e]; cbn; try done; by intros ->; destruct sx.
Qed.

Lemma binary_normalize_positive (z e : Z) :
  emin Binary64.prec Binary64.emax <= e →
  Binary64.positive (binary_normalize Binary64.prec Binary64.emax z e false)
  = true ↔ 0 < z.
Proof.
  intros He. destruct z as [|p|p]; cbn [binary_normalize].
  - split; [done|lia].
  - rewrite (positive_signed false) by (by apply binary_round_signed).
    split; [lia|done].
  - rewrite (positive_signed true) by (by apply binary_round_signed).
    split; [done|lia].
Qed.

(** The sign of a difference of finite doubles is the sign of the exact
    difference: no difference of distinct doubles rounds to zero. *)
Lemma SFsub_positive (x y : spec_float) :
  Binary64.double x = true → Binary64.double y = true →
  Binary64.positive (SFsub Binary64.prec Binary64.emax x y) = true
  ↔ (Binary64.to_Q y < Binary64.to_Q x)%Q.
Proof.
  intros Hx Hy.
  destruct x as [sx| | |sx mx ex], y as [sy| | |sy my ey]; try done.
  - destruct sx, sy; cbn; split; (done || lra).
  - destruct (to_Q_finite_sign sy my ey) as [_ Hneg].
    cbn [SFsub]. change (Binary64.to_Q (S754_zero sx)) with 0%Q.
    rewrite Hneg. by destruct sy.
  - destruct (to_Q_finite_sign sx mx ex) as [Hpos _].
    cbn [SFsub]. change (Binary64.to_Q (S754_zero sy)) with 0%Q.
    rewrite Hpos. by destruct sx.
  - apply double_exponent in Hx, Hy. cbn [SFsub]. cbv zeta.
    set (ez := Z.min ex ey).
    rewrite binary_normalize_positive by (unfold ez; lia).
    rewrite (to_Q_aligned sx mx ex ez), (to_Q_aligned sy my ey ez)
      by (unfold ez; lia).
    set (X := cond_Zopp sx _). set (Y := cond_Zopp sy _).
    rewrite <- (to_Q_sign (X - Y) ez).
    unfold Z.sub. rewrite inject_Z_plus, inject_Z_opp.
    split; intros H; nra.
Qed.

(** The comparator [(a, b) => a - b] puts [b] before [a] exactly when
    [b] is the smaller double. *)
Lemma comparator_by_value_double (x y : spec_float) :
  Binary64.double x = true → Binary64.double y = true →
  num_gt (comparator x y) (num_lit 0) = true
  ↔ (Binary64.to_Q y < Binary64.to_Q x)%Q.
Proof. intros Hx Hy. by apply SFsub_positive. Qed.

(** The sorted copy of finite doubles ascends in value. *)
Lemma sort_doubles_ascending (l : list spec_float) :
  Forall (fun x => Binary64.double x = true) l →
  Sorted (fun a b => (Binary64.to_Q a <= Binary64.to_Q b)%Q) (sort l).
Proof.
  apply (sort_ascending Binary64.to_Q (fun x => Binary64.double x = true)).
  apply comparator_by_value_double.
Qed.

Lemma digits2_shift (k m : positive) :
  Zpos (digits2_pos (shift_pos k m)) = Zpos (digits2_pos m) + Zpos k.
Proof.
  unfold shift_pos.
  apply (Pos.iter_ind _ xO m
           (fun k r => Zpos (digits2_pos r) = Zpos (digits2_pos m) + Zpos k)).
  - cbn [digits2_pos]. lia.
  - intros p r IH. cbn [digits2_pos]. lia.
Qed.

Lemma canonical_injective_le (m1 m2 : positive) (e1 e2 : Z) :
  e1 <= e2 →
  bounded Binary64.prec Binary64.emax m1 e1 = true →
  bounded Binary64.prec Binary64.emax m2 e2 = true →
  (Binary64.to_Q (S754_finite false m1 e1)
   == Binary64.to_Q (S754_finite false m2 e2))%Q →
  m1 = m2 ∧ e1 = e2.
Proof.
  intros Hle Hb1 Hb2 Heq.
  rewrite (to_Q_aligned false m1 e1 e1), (to_Q_aligned false m2 e2 e1)
    in Heq by lia.
  apply Qmult_inj_r in Heq;
    [|intros E; pose proof (Qpower_0_lt 2 e1 ltac:(done)) as Hp; lra].
  apply (proj1 (inject_Z_injective _ _)) in Heq. cbn [cond_Zopp] in Heq.
  unfold bounded, canonical_mantissa, fexp in Hb1, Hb2.
  apply andb_true_iff in Hb1 as [Hc1 _], Hb2 as [Hc2 _].
  apply Z.eqb_eq in Hc1, Hc2.
  unfold shl_align in Heq. rewrite Z.sub_diag in Heq. cbn [fst] in Heq.
  destruct (e1 - e2) as [|d|d] eqn:E; cbn [fst] in Heq.
  - split; lia.
  - lia.
  - change (Pos.iter xO m2 d) with (shift_pos d m2) in Heq.
    assert (Hm : m1 = shift_pos d m2) by lia.
    pose proof (digits2_shift d m2) as Hd. rewrite <- Hm in Hd.
    unfold Binary64.prec, Binary64.emax, emin in *. lia.
Qed.

(** Positive finite doubles of the same value are the same double. *)
Lemma positive_finite_injective (x y : spec_float) :
  Binary64.positive_finite x → Binary64.positive_finite y →
  (Binary64.to_Q x == Binary64.to_Q y)%Q → x = y.
Proof.
  intros [Hdx Hpx] [Hdy Hpy] Heq.
  destruct x as [sx| | |sx mx ex], y as [sy| | |sy my ey]; try done.
  destruct sx, sy; try done.
  cbn [Binary64.double] in Hdx, Hdy.
  destruct (Z_le_gt_dec ex ey) as [Hle|Hgt].
  - by destruct (canonical_injective_le mx my ex ey Hle Hdx Hdy Heq)
      as [-> ->].
  - symmetry in Heq.
    by destruct (canonical_injective_le my mx ey ex ltac:(lia) Hdy Hdx Heq)
      as [-> ->].
Qed.

(** Positive finite doubles in another order have the same sorted copy. *)
Lemma sort_doubles_Permutation (l l' : list spec_float) :
  Forall Binary64.positive_finite l →
  Permutation l l' →
  sort l = sort l'.
Proof.
  intros Hl Hp.
  assert (Hl' : Forall Binary64.positive_finite l') by (by rewrite <- Hp).
  assert (Htrans : Transitive
                     (fun a b => (Binary64.to_Q a <= Binary64.to_Q b)%Q)).
  { intros a b c Hab Hbc. by apply (Qle_trans _ (Binary64.to_Q b)). }
  apply (Sorted_unique_strong
           (fun a b => (Binary64.to_Q a <= Binary64.to_Q b)%Q)).
  - intros a b Ha Hb Hab Hba.
    rewrite Forall_forall in Hl, Hl'.
    apply positive_finite_injective.
    + apply Hl. by rewrite <- (sort_Permutation_any l).
    + apply Hl'. by rewrite <- (sort_Permutation_any l').
    + by apply Qle_antisym.
  - apply sort_doubles_ascending.
    eapply Forall_impl; [exact Hl|]. by intros x [Hx _].
  - apply sort_doubles_ascending.
    eapply Forall_impl; [exact Hl'|]. by intros x [Hx _].
  - by rewrite !sort_Permutation_any.
Qed.

(** ** The numeric routines on exact rationals *)

Lemma calculateAuctionSignal_exact (fillRate avgCpm uniqueBidders : Q) :
  (0 <= fillRate)%Q → (0 <= avgCpm)%Q → (0 <= uniqueBidders)%Q →
  (calculateAuctionSignal fillRate avgCpm uniqueBidders
   == round2 (weighted_score fillRate avgCpm uniqueBidders))%Q
  ∧ is_round2 (weighted_score fillRate avgCpm uniqueBidders)
      (calculateAuctionSignal fillRate avgCpm uniqueBidders)
  ∧ (0 <= calculateAuctionSignal fillRate avgCpm uniqueBidders <= 1)%Q.
Proof.
  intros Hf Hc Hu.
  pose proof (calculateAuctionSignal_round2 fillRate avgCpm uniqueBidders)
    as Heq.
  split; [exact Heq|]. split.
  - destruct (round2_is_round2
                (weighted_score fillRate avgCpm uniqueBidders))
      as ((n & Hn) & Hlo & Hhi).
    split; [exists n; by rewrite Heq|]. rewrite Heq. by split.
  - rewrite Heq. apply round2_bounds. by apply weighted_score_bounds.
Qed.

Lemma calculateCpmStats_exact (cpms : list Q) :
  cpms ≠ [] →
  ∃ sorted : list Q,
    Permutation sorted cpms
    ∧ Sorted Qle sorted
    ∧ is_round2 (mean cpms) (avg (calculateCpmStats cpms))
    ∧ is_round2 (hd 0%Q sorted) (min (calculateCpmStats cpms))
    ∧ is_round2 (List.last sorted 0%Q) (max (calculateCpmStats cpms))
    ∧ is_round2 (median_of sorted) (median (calculateCpmStats cpms)).
Proof.
  intros Hne. exists (sort cpms).
  destruct (calculateCpmStats_nonempty cpms Hne) as (Ha & Hmin & Hmax & Hmed).
  split; [apply sort_Permutation|]. split; [apply sort_Sorted|].
  split; [|split; [|split]].
  - destruct (round2_is_round2 (mean cpms)) as ((n & Hn) & Hlo & Hhi).
    split; [exists n; by rewrite Ha|]. rewrite Ha. by split.
  - rewrite Hmin. apply round2_is_round2.
  - rewrite Hmax. apply round2_is_round2.
  - rewrite Hmed. apply round2_is_round2.
Qed.




(** C7, as the code has it.  The statistics of the empty sequence are all
    zero on every number model.  For a non-empty sequence of finite
    doubles, with [sorted] its arrangement in ascending value, the four
    statistics are [Math.round(v * 100) / 100], computed in doubles, of:
    the sum from left to right over the count; the last and the first
    element of [sorted]; the middle element of [sorted] or half the sum of
    its two central elements.  With exact arithmetic these are the mean,
    minimum, maximum and median rounded to two decimals.  On exact
    rationals and on doubles alike, [1,2,3] gives 2, 3, 1, 2 and
    [1,2,3,4] has median 2.5. *)
Theorem C7_cpm_statistics (cpms : list Q) (doubles : list spec_float) :
  cpms ≠ [] →
  doubles ≠ [] →
  Forall (fun x => Binary64.double x = true) doubles →
  (∀ (num : Type) (N : JsNumber num),
     calculateCpmStats ([] : list num)
     = {| avg := num_lit 0; max := num_lit 0; min := num_lit 0;
          median := num_lit 0 |})
  ∧ (∃ sorted : list spec_float,
       Permutation sorted doubles
       ∧ Sorted (fun a b => (Binary64.to_Q a <= Binary64.to_Q b)%Q) sorted
       ∧ calculateCpmStats doubles
         = {| avg := round2 (computed_mean doubles);
              max := round2 (List.last sorted (num_lit 0));
              min := round2 (hd (num_lit 0) sorted);
              median := round2 (computed_median sorted) |})
  ∧ (∃ sorted : list Q,
       Permutation sorted cpms
       ∧ Sorted Qle sorted
       ∧ is_round2 (mean cpms) (avg (calculateCpmStats cpms))
       ∧ is_round2 (hd 0%Q sorted) (min (calculateCpmStats cpms))
       ∧ is_round2 (List.last sorted 0%Q) (max (calculateCpmStats cpms))
       ∧ is_round2 (median_of sorted) (median (calculateCpmStats cpms)))
  ∧ calculateCpmStats (map Binary64.lit [1; 2; 3]%Q)
    = {| avg := Binary64.lit 2; max := Binary64.lit 3;
         min := Binary64.lit 1; median := Binary64.lit 2 |}
  ∧ median (calculateCpmStats (map Binary64.lit [1; 2; 3; 4]%Q))
    = Binary64.lit 2.5
  ∧ (avg (calculateCpmStats [1; 2; 3]) == 2
     ∧ max (calculateCpmStats [1; 2; 3]) == 3
     ∧ min (calculateCpmStats [1; 2; 3]) == 1
     ∧ median (calculateCpmStats [1; 2; 3]) == 2)%Q
  ∧ (median (calculateCpmStats [1; 2; 3; 4]) == 2.5)%Q.
Proof.
  intros Hne Hne' Hdoubles. split; [reflexivity|].
  split.
  { exists (sort doubles). split; [apply sort_Permutation_any|].
    split; [by apply sort_doubles_ascending|].
    by apply calculateCpmStats_computed. }
  split; [by apply calculateCpmStats_exact|].
  split; [vm_compute; reflexivity|]. split; [vm_compute; reflexivity|].
  split; [repeat split|]; reflexivity.
Qed.

Lemma C7_cpm_statistics_witness :
  (∃ sorted : list spec_float,
     Permutation sorted (map Binary64.lit [3; 1.01; 2]%Q)
     ∧ Sorted (fun a b => (Binary64.to_Q a <= Binary64.to_Q b)%Q) sorted
     ∧ calculateCpmStats (map Binary64.lit [3; 1.01; 2]%Q)
       = {| avg := round2 (computed_mean (map Binary64.lit [3; 1.01; 2]%Q));
            max := round2 (List.last sorted (num_lit 0));
            min := round2 (hd (num_lit 0) sorted);
            median := round2 (computed_median sorted) |})
  ∧ (∃ sorted : list Q,
       Permutation sorted [3; 1; 2]%Q
       ∧ Sorted Qle sorted
       ∧ is_round2 (median_of sorted)
           (median (calculateCpmStats [3; 1; 2]%Q))).
Proof.
  assert (Hne : [3; 1; 2]%Q ≠ []) by discriminate.
  assert (Hne' : map Binary64.lit [3; 1.01; 2]%Q ≠ []) by discriminate.
  assert (Hd : Forall (fun x => Binary64.double x = true)
                 (map Binary64.lit [3; 1.01; 2]%Q)).
  { repeat constructor. }
  destruct (C7_cpm_statistics [3; 1; 2]%Q (map Binary64.lit [3; 1.01; 2]%Q)
              Hne Hne' Hd)
    as (_ & Hdoubles & (sorted & Hperm & Hsorted & _ & _ & _ & Hmed) & _).
  split; [exact Hdoubles|].
  exists sorted. split; [exact Hperm|]. split; [exact Hsorted|exact Hmed].
Defined.

(** On doubles the CPMs 1 and 1.01 have average and median 1, although
    their mean is above 1.005 and rounds to 1.01: the sum 2.01 computed in
    doubles, halved and multiplied by 100, lies just below 100.5. *)
Lemma C7_mean_below_exact_rounding :
  avg (calculateCpmStats (map Binary64.lit [1; 1.01]%Q)) = Binary64.lit 1
  ∧ median (calculateCpmStats (map Binary64.lit [1; 1.01]%Q))
    = Binary64.lit 1
  ∧ (1.005 < mean (map Binary64.to_Q (map Binary64.lit [1; 1.01]%Q)))%Q
  ∧ (round2 (mean (map Binary64.to_Q (map Binary64.lit [1; 1.01]%Q)))
     == 1.01)%Q
  ∧ ¬ is_round2 (mean (map Binary64.to_Q (map Binary64.lit [1; 1.01]%Q)))
        (Binary64.to_Q
           (avg (calculateCpmStats (map Binary64.lit [1; 1.01]%Q))))
  ∧ Binary64.lit 1 ≠ Binary64.lit 1.01.
Proof.
  split; [vm_compute; reflexivity|].
  split; [vm_compute; reflexivity|].
  split; [vm_compute; reflexivity|].
  split; [vm_compute; reflexivity|].
  split; [|vm_compute; discriminate].
  intros (_ & _ & Hhi). vm_compute in Hhi. discriminate.
Qed.

(** ** The aggregator on a known auction *)

Lemma onBidRequested_insert (args : BidRequestedArgs) (a : AuctionData)
    (m : gmap string AuctionData) (id : string) :
  req_auctionId args = id →
  onBidRequested args (<[id := a]> m)
  = <[id :=
        {| auctionId := auctionId a;
           auctionStart := auctionStart a;
           adUnits := adUnits a;
           bidderRequests :=
             bidderRequests a + Z.of_nat (length (req_bids args));
           bidResponses := bidResponses a;
           noBids := noBids a;
           cpms := cpms a;
           bidders := set_add (req_bidderCode args) (bidders a) |}]> m.
Proof.
  intros <-. unfold onBidRequested. rewrite lookup_insert_eq.
  apply insert_insert_eq.
Qed.

Lemma onBidResponse_insert (args : BidResponseArgs) (a : AuctionData)
    (m : gmap string AuctionData) (id : string) :
  resp_auctionId args = id →
  onBidResponse args (<[id := a]> m)
  = <[id :=
        {| auctionId := auctionId a;
           auctionStart := auctionStart a;
           adUnits := adUnits a;
           bidderRequests := bidderRequests a;
           bidResponses := bidResponses a + 1;
           noBids := noBids a;
           cpms := match positive_number (resp_cpm args) with
                   | Some cpm => cpms a ++ [cpm]
                   | None => cpms a
                   end;
           bidders := bidders a |}]> m.
Proof.
  intros <-. unfold onBidResponse. rewrite lookup_insert_eq.
  apply insert_insert_eq.
Qed.

Lemma onNoBid_insert (args : NoBidArgs) (a : AuctionData)
    (m : gmap string AuctionData) (id : string) :
  nobid_auctionId args = id →
  onNoBid args (<[id := a]> m)
  = <[id :=
        {| auctionId := auctionId a;
           auctionStart := auctionStart a;
           adUnits := adUnits a;
           bidderRequests := bidderRequests a;
           bidResponses := bidResponses a;
           noBids := noBids a + 1;
           cpms := cpms a;
           bidders := bidders a |}]> m.
Proof.
  intros <-. unfold onNoBid. rewrite lookup_insert_eq.
  apply insert_insert_eq.
Qed.

Lemma set_add_fresh (x : string) (s : list string) :
  ¬ In x s → set_add x s = s ++ [x].
Proof.
  intros Hx. unfold set_add. destruct (includes s x) eqn:E; [|done].
  apply includes_true in E. done.
Qed.

Lemma run_cons (env : Env) (ev : Event) (evs : list (Env * Event))
    (st : State) :
  run ((env, ev) :: evs) st
  = ((run evs (trackEvent env ev st).1).1,
     (trackEvent env ev st).2 ++ (run evs (trackEvent env ev st).1).2).
Proof.
  simpl. destruct (trackEvent env ev st) as [st' out]. simpl.
  by destruct (run evs st').
Qed.

(** The first seven events of the scenario leave exactly the record
    [scenario_auction] under "A1" and issue no request. *)
Lemma scenario_before_end (t0 : Z) (b1 b2 b3 : string)
    (units bids1 bids2 bids3 : list value) (env : Env) (st : State) :
  0 < t0 → b1 ≠ b2 → b1 ≠ b3 → b2 ≠ b3 →
  length units = 3%nat →
  (length bids1 + length bids2 + length bids3 = 9)%nat →
  ∀ end_args,
    run (map (pair env)
           (take 7 (scenario t0 b1 b2 b3 units bids1 bids2 bids3 end_args)))
      st
    = ({| config := config st;
          auctionCache :=
            <["A1" := scenario_auction t0 b1 b2 b3]> (auctionCache st) |},
       []).
Proof.
  intros Ht H12 H13 H23 Hunits Hbids end_args.
  cbn [scenario take map]. rewrite !run_cons.
  cbn [run trackEvent with_cache fst snd config auctionCache app].
  unfold onAuctionInit.
  cbn [init_auctionId init_adUnits init_timestamp or_now].
  destruct (Z.eqb_spec t0 0) as [|_]; [lia|].
  erewrite !onBidRequested_insert by reflexivity.
  erewrite !onBidResponse_insert by reflexivity.
  erewrite onNoBid_insert by reflexivity.
  cbn [auctionId auctionStart adUnits bidderRequests bidResponses noBids
       cpms bidders req_bids req_bidderCode resp_cpm positive_number].
  rewrite (set_add_fresh b1 []) by (simpl; tauto).
  rewrite (set_add_fresh b2) by (simpl; intuition congruence).
  rewrite (set_add_fresh b3) by (simpl; intuition congruence).
  replace (0 + Z.of_nat (length bids1) + Z.of_nat (length bids2)
           + Z.of_nat (length bids3)) with 9 by lia.
  rewrite Hunits. reflexivity.
Qed.

Lemma run_app (evs1 evs2 : list (Env * Event)) (st : State) :
  run (evs1 ++ evs2) st
  = ((run evs2 (run evs1 st).1).1,
     (run evs1 st).2 ++ (run evs2 (run evs1 st).1).2).
Proof.
  revert st. induction evs1 as [|[env ev] evs1 IH]; intros st.
  - simpl. by destruct (run evs2 st).
  - rewrite <- app_comm_cons, !run_cons, IH. simpl. by rewrite app_assoc.
Qed.

Lemma positive_number_positive (q : Q) :
  (0 < q)%Q → positive_number (VNum q) = Some q.
Proof.
  intros Hq. cbn [positive_number].
  change (num_gt q 0%Q) with (negb (Qle_bool q 0)).
  destruct (Qle_bool q 0) eqn:E; [|done].
  apply Qle_bool_iff in E. lra.
Qed.

(** The scenario for any two positive CPMs: its first seven events leave
    the record [scenario_auction_with_cpms] and issue no request; the
    auction end dispatches the payloads of that record. *)
Lemma scenario_with_cpms_run (cpm1 cpm2 : Q) (t0 : Z) (b1 b2 b3 : string)
    (units bids1 bids2 bids3 : list value) (env : Env) (st : State)
    (end_args : AuctionEndArgs) :
  (0 < cpm1)%Q → (0 < cpm2)%Q →
  0 < t0 → b1 ≠ b2 → b1 ≠ b3 → b2 ≠ b3 →
  length units = 3%nat →
  (length bids1 + length bids2 + length bids3 = 9)%nat →
  end_auctionId end_args = "A1" →
  let auction := scenario_auction_with_cpms cpm1 cpm2 t0 b1 b2 b3 in
  run (map (pair env)
         (scenario_with_cpms cpm1 cpm2 t0 b1 b2 b3 units bids1 bids2 bids3
            end_args)) st
  = ({| config := config st;
        auctionCache := delete "A1" (auctionCache st) |},
     map (request_for (config st)
            (fullPayload_of env (config st) end_args auction)
            (indexPayload_of env end_args auction)
            (auctionSignal_of auction))
       (cfg_vendors (config st))).
Proof.
  intros Hc1 Hc2 Ht H12 H13 H23 Hunits Hbids Hend auction.
  unfold scenario_with_cpms. cbn [map]. rewrite !run_cons.
  cbn [run trackEvent with_cache fst snd config auctionCache app].
  unfold onAuctionInit.
  cbn [init_auctionId init_adUnits init_timestamp or_now].
  destruct (Z.eqb_spec t0 0) as [|_]; [lia|].
  erewrite !onBidRequested_insert by reflexivity.
  erewrite !onBidResponse_insert by reflexivity.
  erewrite onNoBid_insert by reflexivity.
  cbn [auctionId auctionStart adUnits bidderRequests bidResponses noBids
       cpms bidders req_bids req_bidderCode resp_cpm].
  rewrite !positive_number_positive by done.
  rewrite (set_add_fresh b1 []) by (simpl; tauto).
  rewrite (set_add_fresh b2) by (simpl; intuition congruence).
  rewrite (set_add_fresh b3) by (simpl; intuition congruence).
  replace (0 + Z.of_nat (length bids1) + Z.of_nat (length bids2)
           + Z.of_nat (length bids3)) with 9 by lia.
  rewrite Hunits. cbn [length Z.of_nat Pos.of_succ_nat Pos.succ app].
  rewrite (onAuctionEnd_found env end_args _ auction).
  - cbn [fst snd config auctionCache]. rewrite app_nil_r.
    f_equal. f_equal. rewrite Hend. apply delete_insert_eq.
  - rewrite Hend. apply lookup_insert_eq.
Qed.

(** C6: the scenario of section 8.  After begin, three bid requests (nine
    bids, three distinct bidders), two responses with CPMs 1 and 2 and one
    no-bid, the auction end dispatches payloads built from
    bidderRequests 9, bidResponses 2, noBids 1, uniqueBidders 3, fillRate
    0.22 and auctionDuration 850; the signal is 0.21, the score of the
    unrounded fill rate 2/9, the average CPM 1.5 and 3 bidders.  That the
    fill rate enters unrounded shows when both CPMs are 0.16: the signal
    dispatched is then 0.16, and the rounded fill rate 0.22 would give
    0.15.  The numbers are the same on doubles.  The start time is
    positive: [timestamp || Date.now()] reads 0 as missing. *)
Theorem C6_end_to_end_scenario (t0 : Z) (b1 b2 b3 : string)
    (units bids1 bids2 bids3 : list value) (requests : option (list value))
    (ortb2 : value) (env : Env) (st : State) :
  0 < t0 →
  b1 ≠ b2 → b1 ≠ b3 → b2 ≠ b3 →
  length units = 3%nat →
  (length bids1 + length bids2 + length bids3 = 9)%nat →
  let end_args := scenario_end_args t0 requests ortb2 in
  let auction := scenario_auction t0 b1 b2 b3 in
  let full := fullPayload_of env (config st) end_args auction in
  let index := indexPayload_of env end_args auction in
  let signal := auctionSignal_of auction in
  let auction' := scenario_auction_with_cpms 0.16 0.16 t0 b1 b2 b3 in
  let index' := indexPayload_of env end_args auction' in
  let signal' := auctionSignal_of auction' in
  run (map (pair env)
         (scenario t0 b1 b2 b3 units bids1 bids2 bids3 end_args)) st
  = ({| config := config st;
        auctionCache := delete "A1" (auctionCache st) |},
     map (request_for (config st) full index signal) (cfg_vendors (config st)))
  ∧ obj_get full "bidderRequests" = Some (VNum 9)
  ∧ obj_get full "bidResponses" = Some (VNum 2)
  ∧ obj_get full "noBids" = Some (VNum 1)
  ∧ obj_get full "uniqueBidders" = Some (VNum 3)
  ∧ obj_get full "fillRate" = Some (VNum (round2 (2 # 9)%Q))
  ∧ (round2 (2 # 9) == 0.22)%Q
  ∧ obj_get full "auctionDuration" = Some (VNum 850)
  ∧ obj_get index "auctionSignal" = Some (VNum signal)
  ∧ fillRate_of auction = (2 # 9)%Q
  ∧ (avg (calculateCpmStats (cpms auction)) == 1.5)%Q
  ∧ signal = calculateAuctionSignal (2 # 9)%Q 1.5%Q 3%Q
  ∧ (signal == 0.21)%Q
  ∧ (run (map (pair env)
            (scenario_with_cpms 0.16 0.16 t0 b1 b2 b3 units bids1 bids2
               bids3 end_args)) st).2
    = map (request_for (config st)
             (fullPayload_of env (config st) end_args auction') index'
             signal')
        (cfg_vendors (config st))
  ∧ obj_get index' "auctionSignal" = Some (VNum signal')
  ∧ obj_get index' "fillRate" = Some (VNum (round2 (2 # 9)%Q))
  ∧ (signal' == 0.16)%Q
  ∧ (calculateAuctionSignal (round2 (2 # 9)) 
       (avg (calculateCpmStats (cpms auction'))) 3 == 0.15)%Q
  ∧ round2 (num_div (Binary64.lit 2) (Binary64.lit 9)) = Binary64.lit 0.22
  ∧ calculateAuctionSignal (num_div (Binary64.lit 2) (Binary64.lit 9))
      (avg (calculateCpmStats (map Binary64.lit [1; 2]%Q))) (Binary64.lit 3)
    = Binary64.lit 0.21
  ∧ calculateAuctionSignal (num_div (Binary64.lit 2) (Binary64.lit 9))
      (avg (calculateCpmStats (map Binary64.lit [0.16; 0.16]%Q)))
      (Binary64.lit 3)
    = Binary64.lit 0.16
  ∧ calculateAuctionSignal
      (round2 (num_div (Binary64.lit 2) (Binary64.lit 9)))
      (avg (calculateCpmStats (map Binary64.lit [0.16; 0.16]%Q)))
      (Binary64.lit 3)
    = Binary64.lit 0.15.
Proof.
  intros Ht H12 H13 H23 Hunits Hbids end_args auction full index signal
    auction' index' signal'.
  split.
  { change (scenario t0 b1 b2 b3 units bids1 bids2 bids3 end_args)
      with (scenario_with_cpms 1 2 t0 b1 b2 b3 units bids1 bids2 bids3
              end_args).
    by apply scenario_with_cpms_run. }
  assert (Hfull : ∀ k, k ≠ "contentContext" →
            obj_get full k
            = obj_get (fullPayload_literal env (config st) end_args auction)
                k).
  { intros k Hk. unfold full, fullPayload_of.
    destruct (getContentContext _ _); [|done].
    by apply obj_get_set_ne. }
  assert (Hindex : ∀ a k, k ≠ "contentContext" →
            obj_get (indexPayload_of env end_args a) k
            = obj_get (indexPayload_literal env a) k).
  { intros a k Hk. unfold indexPayload_of.
    destruct (getContentContext _ _); [|done].
    by apply obj_get_set_ne. }
  assert (Hduration :
            or_now (end_auctionEnd end_args) (date_now env)
            - auctionStart auction = 850).
  { simpl. destruct (Z.eqb_spec (t0 + 850) 0); lia. }
  rewrite !Hfull by done.
  unfold fullPayload_literal. rewrite Hduration.
  unfold index, index'. rewrite !Hindex by done.
  do 12 (split; [reflexivity|]).
  split.
  { rewrite (scenario_with_cpms_run 0.16 0.16 t0 b1 b2 b3 units bids1 bids2
               bids3 env st end_args) by done.
    reflexivity. }
  do 4 (split; [reflexivity|]).
  repeat split; vm_compute; reflexivity.
Qed.

Lemma C6_end_to_end_scenario_witness :
  (run (map (pair sample_env)
          (scenario 1000 "appnexus" "rubicon" "openx"
             [VNull; VNull; VNull] [VNull; VNull; VNull; VNull]
             [VNull; VNull; VNull] [VNull; VNull]
             (scenario_end_args 1000 None VUndefined)))
     {| config := sample_config; auctionCache := ∅ |}).2
  = map (request_for sample_config
           (fullPayload_of sample_env sample_config
              (scenario_end_args 1000 None VUndefined)
              (scenario_auction 1000 "appnexus" "rubicon" "openx"))
           (indexPayload_of sample_env
              (scenario_end_args 1000 None VUndefined)
              (scenario_auction 1000 "appnexus" "rubicon" "openx"))
           (calculateAuctionSignal (2 # 9)%Q 1.5%Q 3%Q))
      (cfg_vendors sample_config).
Proof.
  destruct (C6_end_to_end_scenario 1000 "appnexus" "rubicon" "openx"
              [VNull; VNull; VNull] [VNull; VNull; VNull; VNull]
              [VNull; VNull; VNull] [VNull; VNull] None VUndefined
              sample_env {| config := sample_config; auctionCache := ∅ |})
    as (Hrun & _ & _ & _ & _ & _ & _ & _ & _ & _ & _ & Hsignal & _);
    [lia|discriminate|discriminate|discriminate|reflexivity|reflexivity|].
  rewrite Hrun. cbn [snd config]. by rewrite Hsignal.
Defined.


(** The score is taken from the unrounded fill rate: on
    [rounding_sensitive_auction] it is 0.16, where the rounded fill rate
    0.22 would give 0.15. *)
Lemma auctionSignal_from_unrounded_fillRate :
  (auctionSignal_of rounding_sensitive_auction == 0.16)%Q
  ∧ (calculateAuctionSignal
       (round2 (fillRate_of rounding_sensitive_auction))
       (avg (calculateCpmStats (cpms rounding_sensitive_auction)))
       3 == 0.15)%Q.
Proof. split; reflexivity. Qed.

(** ** The worked examples on binary64 *)

Example binary64_stats_1_2_3 :
  calculateCpmStats (map Binary64.lit [1; 2; 3]%Q)
  = {| avg := Binary64.lit 2; max := Binary64.lit 3;
       min := Binary64.lit 1; median := Binary64.lit 2 |}.
Proof. vm_compute. reflexivity. Qed.

Example binary64_median_1_2_3_4 :
  median (calculateCpmStats (map Binary64.lit [1; 2; 3; 4]%Q))
  = Binary64.lit 2.5.
Proof. vm_compute. reflexivity. Qed.

Example binary64_signal_0_0_0 :
  calculateAuctionSignal (Binary64.lit 0) (Binary64.lit 0) (Binary64.lit 0)
  = Binary64.lit 0.
Proof. vm_compute. reflexivity. Qed.

Example binary64_signal_1_10_10 :
  calculateAuctionSignal (Binary64.lit 1) (Binary64.lit 10) (Binary64.lit 10)
  = Binary64.lit 1.
Proof. vm_compute. reflexivity. Qed.

(** The scenario of section 8: fill rate 2/9 shown as 0.22, score 0.21. *)
Example binary64_scenario :
  let fillRate := num_div (Binary64.lit 2) (Binary64.lit 9) in
  let cpmStats := calculateCpmStats (map Binary64.lit [1; 2]%Q) in
  round2 fillRate = Binary64.lit 0.22
  ∧ avg cpmStats = Binary64.lit 1.5
  ∧ calculateAuctionSignal fillRate (avg cpmStats) (Binary64.lit 3)
    = Binary64.lit 0.21.
Proof. vm_compute. repeat split; reflexivity. Qed.

(** Where the two number models part: the double nearest to 1.005 lies
    below it, and so does its product with 100. *)
Example binary64_round2_1_005 :
  round2 (Binary64.lit 1.005) = Binary64.lit 1
  ∧ (round2 1.005 == 1.01)%Q.
Proof. split; vm_compute; reflexivity. Qed.

(** The same for a displayed fill rate: 23 responses to 40 requests show
    as 0.57 on doubles and as 0.58 with exact arithmetic. *)
Example binary64_fillRate_23_40 :
  round2 (num_div (Binary64.lit 23) (Binary64.lit 40)) = Binary64.lit 0.57
  ∧ (round2 (23 # 40) == 0.58)%Q.
Proof. split; vm_compute; reflexivity. Qed.

(** ** Configuration: what [enableAnalytics] keeps and what it rejects *)

Lemma required_string_Some (v : value) (s : string) :
  required_string v = Some s → v = VStr s ∧ s ≠ EmptyString.
Proof.
  destruct v as [| |b|q|w|l|o]; simpl; try done.
  destruct (String.eqb w EmptyString) eqn:E; simpl; [done|].
  intros [= ->]. split; [done|]. intros ->. by rewrite String.eqb_refl in E.
Qed.

Lemma validate_vendor_Some (vo : VendorOptions) (vc : VendorConfig) :
  validate_vendor vo = Some vc →
  opt_name vo = VStr (v_name vc)
  ∧ opt_endpoint vo = VStr (v_endpoint vc)
  ∧ vendor_ok vc
  ∧ v_dataMode vc = validate_dataMode (opt_dataMode vo).
Proof.
  unfold validate_vendor.
  destruct (required_string (opt_name vo)) as [name|] eqn:En; [|done].
  destruct (required_string (opt_endpoint vo)) as [endpoint|] eqn:Ee; [|done].
  intros [= <-]. simpl.
  apply required_string_Some in En as [-> Hn], Ee as [-> He].
  by repeat split.
Qed.

Lemma enableAnalytics_accepted (adapterConfig : option Options)
    (cfg : Config) :
  enableAnalytics adapterConfig cfg
  = match accepted_vendors adapterConfig, adapterConfig with
    | _ :: _, Some options =>
        {| cfg_vendors := accepted_vendors adapterConfig;
           cfg_publisherId :=
             if truthy (opt_publisherId options)
             then opt_publisherId options else VNull;
           cfg_excludeFields :=
             match opt_globalExcludeFields options with
             | FieldsArray fields =>
                 List.filter (includes PAYLOAD_FIELDS) fields
             | _ => []
             end |}
    | _, _ => cfg
    end.
Proof.
  unfold enableAnalytics, accepted_vendors.
  destruct adapterConfig as [options|]; [|done].
  destruct (opt_vendors options) as [vendors|]; [|done].
  destruct vendors as [|v vendors]; [done|].
  simpl length at 1. simpl Nat.eqb at 1. cbv iota.
  by destruct (omap validate_vendor (v :: vendors)).
Qed.

(** Every configuration that [enableAnalytics] can produce from a sound
    one is sound: its vendors have a non-empty name and endpoint, and its
    global exclusion list holds known payload fields only. *)
Theorem enableAnalytics_keeps_config_ok (adapterConfig : option Options)
    (cfg : Config) :
  config_ok cfg → config_ok (enableAnalytics adapterConfig cfg).
Proof.
  intros Hcfg. rewrite enableAnalytics_accepted.
  destruct (accepted_vendors adapterConfig) as [|v vs] eqn:Eacc; [done|].
  destruct adapterConfig as [options|]; [|done].
  split; simpl.
  - rewrite <- Eacc. unfold accepted_vendors.
    destruct (opt_vendors options) as [vendors|]; [|constructor].
    apply Forall_forall. intros vc Hvc.
    apply list_elem_of_omap in Hvc as (vo & _ & Hvo).
    by apply validate_vendor_Some in Hvo as (_ & _ & Hok & _).
  - destruct (opt_globalExcludeFields options); try constructor.
    apply List.Forall_forall. intros f Hf.
    by apply filter_In in Hf as [_ Hf].
Qed.

Lemma enableAnalytics_keeps_config_ok_witness :
  config_ok (enableAnalytics (Some unknown_field_options) initial_config).
Proof.
  apply enableAnalytics_keeps_config_ok. split; constructor.
Defined.

(** On a vendor list whose entries are all objects, a call either is
    rejected, leaving any configuration as it was, or installs a non-empty
    vendor list and a configuration that owes nothing to the previous
    one. *)
Lemma enableAnalytics_rejected_or_replaced (adapterConfig : option Options)
    (cfg cfg' : Config) :
  (accepted_vendors adapterConfig = []
   ∧ enableAnalytics adapterConfig cfg = cfg
   ∧ enableAnalytics adapterConfig cfg' = cfg')
  ∨ (accepted_vendors adapterConfig ≠ []
     ∧ cfg_vendors (enableAnalytics adapterConfig cfg)
       = accepted_vendors adapterConfig
     ∧ enableAnalytics adapterConfig cfg = enableAnalytics adapterConfig cfg').
Proof.
  rewrite !enableAnalytics_accepted.
  destruct (accepted_vendors adapterConfig) as [|v vs] eqn:Eacc.
  - left. by destruct adapterConfig.
  - right. destruct adapterConfig as [options|]; [done|].
    by simpl in Eacc.
Qed.

Lemma read_entries_spec (entries : list (option VendorOptions)) :
  if existsb (fun entry => match entry with None => true | Some _ => false end)
       entries
  then read_entries entries = Throw
  else ∃ vendors,
         read_entries entries = Normal vendors
         ∧ length vendors = length entries
         ∧ omap validate_vendor vendors
           = omap (fun entry => entry ≫= validate_vendor) entries.
Proof.
  induction entries as [|[vendor|] entries IH]; cbn [existsb read_entries].
  - by exists [].
  - cbn [orb].
    destruct (existsb _ entries).
    + by rewrite IH.
    + destruct IH as (vendors & -> & Hlen & Hacc).
      exists (vendor :: vendors). split; [done|]. split; [by simpl; rewrite Hlen|].
      cbn [omap list_omap mbind option_bind]. by rewrite Hacc.
  - done.
Qed.

(** A call of [enableAnalytics] has one of three outcomes.  It throws,
    when [options] is [null] or the vendor array holds a [null] or
    [undefined] entry.  Otherwise it is rejected, when no vendor entry
    passes validation.  In both cases the configuration stays as it was.
    Otherwise it installs the non-empty list of the validated entries and
    a configuration that owes nothing to the previous one. *)
Theorem enableAnalytics_rejects_or_replaces (adapterConfig : AdapterConfig)
    (cfg cfg' : Config) :
  (call_throws adapterConfig = true
   ∧ enableAnalytics_call adapterConfig cfg = Throw
   ∧ enableAnalytics_call adapterConfig cfg' = Throw)
  ∨ (call_throws adapterConfig = false
     ∧ accepted_entries adapterConfig = []
     ∧ enableAnalytics_call adapterConfig cfg = Normal cfg
     ∧ enableAnalytics_call adapterConfig cfg' = Normal cfg')
  ∨ (call_throws adapterConfig = false
     ∧ accepted_entries adapterConfig ≠ []
     ∧ ∃ new,
         enableAnalytics_call adapterConfig cfg = Normal new
         ∧ enableAnalytics_call adapterConfig cfg' = Normal new
         ∧ cfg_vendors new = accepted_entries adapterConfig).
Proof.
  destruct adapterConfig as [|[| |[|entries] publisherId excludeFields]].
  - right. left. by repeat split.
  - right. left. by repeat split.
  - left. by repeat split.
  - right. left. by repeat split.
  - cbn [call_throws accepted_entries enableAnalytics_call].
    pose proof (read_entries_spec entries) as Hread.
    destruct (existsb _ entries) eqn:Ex.
    + left. destruct entries as [|entry entries]; [done|].
      cbn [length Nat.eqb]. by rewrite Hread.
    + right. destruct Hread as (vendors & Hread & Hlen & Hacc).
      destruct entries as [|entry entries].
      { left. by repeat split. }
      cbn [length Nat.eqb]. rewrite Hread. cbn [mbind completion_bind].
      rewrite <- Hacc.
      set (options := Some {| opt_vendors := Some vendors;
                              opt_publisherId := publisherId;
                              opt_globalExcludeFields := excludeFields |}).
      change (omap validate_vendor vendors) with (accepted_vendors options).
      destruct (enableAnalytics_rejected_or_replaced options cfg cfg')
        as [(Hnone & Hc & Hc')|(Hsome & Hv & Hc)].
      * left. by rewrite Hc, Hc'.
      * right. split; [done|]. split; [done|].
        exists (enableAnalytics options cfg). by rewrite <- Hc.
Qed.

(** Only the exact strings "index" and "both" select those modes: a vendor
    entry with any other [dataMode] (missing, misspelt, not a string) is
    configured for raw mode. *)
Theorem validate_vendor_dataMode (vo : VendorOptions) (vc : VendorConfig) :
  validate_vendor vo = Some vc →
  (v_dataMode vc = Index ↔ opt_dataMode vo = VStr "index")
  ∧ (v_dataMode vc = Both ↔ opt_dataMode vo = VStr "both")
  ∧ (opt_dataMode vo ≠ VStr "index" → opt_dataMode vo ≠ VStr "both" →
     v_dataMode vc = Raw).
Proof.
  intros Hv. apply validate_vendor_Some in Hv as (_ & _ & _ & ->).
  unfold validate_dataMode.
  destruct (opt_dataMode vo) as [| |b|q|s|l|o]; try (repeat split; done).
  destruct (String.eqb_spec s "raw") as [->|Hraw]; [repeat split; done|].
  destruct (String.eqb_spec s "index") as [->|Hindex]; [repeat split; done|].
  destruct (String.eqb_spec s "both") as [->|Hboth]; [repeat split; done|].
  repeat split; try done; intros [= ->]; done.
Qed.

Lemma validate_vendor_dataMode_witness :
  ∃ vc, validate_vendor misspelt_vendor = Some vc ∧ v_dataMode vc = Raw.
Proof.
  eexists. split; [reflexivity|].
  apply (proj2 (proj2 (validate_vendor_dataMode misspelt_vendor _ eq_refl)));
    discriminate.
Defined.

(** A vendor entry whose [excludeFields] is missing, not an array or an
    empty array is filtered with the global list; a non-empty array is
    taken over as it is, whatever names it holds. *)
Theorem validate_vendor_exclusions (config : Config) (vo : VendorOptions)
    (vc : VendorConfig) :
  validate_vendor vo = Some vc →
  getExcludeFieldsForVendor config vc
  = match opt_excludeFields vo with
    | FieldsArray (f :: fields) => f :: fields
    | _ => cfg_excludeFields config
    end.
Proof.
  unfold validate_vendor.
  destruct (required_string (opt_name vo)); [|done].
  destruct (required_string (opt_endpoint vo)); [|done].
  intros [= <-]. unfold getExcludeFieldsForVendor. simpl.
  by destruct (opt_excludeFields vo) as [| |[|f fields]].
Qed.

Lemma validate_vendor_exclusions_witness :
  ∃ vc,
    validate_vendor misspelt_vendor = Some vc
    ∧ getExcludeFieldsForVendor sample_config vc = ["cpmStats"].
Proof.
  eexists. split; [reflexivity|].
  exact (validate_vendor_exclusions sample_config misspelt_vendor _ eq_refl).
Defined.

Lemma includes_false_of_subset (known l : list string) (k : string) :
  Forall (fun f => includes known f = true) l →
  includes known k = false → includes l k = false.
Proof.
  intros Hl Hk. destruct (includes l k) eqn:E; [|done].
  apply includes_true in E. rewrite List.Forall_forall in Hl.
  apply Hl in E. congruence.
Qed.

(** With a sound configuration, a vendor that relies on the global list
    (no list of its own, or an empty one) always receives [userAgent] and
    the content context, when there is one: neither name is in the
    vocabulary the global list is validated against. *)
Theorem global_list_keeps_userAgent_and_context (env : Env)
    (args : AuctionEndArgs) (st : State) (auction : AuctionData) (i : nat)
    (vendor : VendorConfig) :
  config_ok (config st) →
  auctionCache st !! end_auctionId args = Some auction →
  cfg_vendors (config st) !! i = Some vendor →
  v_dataMode vendor ≠ Index →
  v_excludeFields vendor = None ∨ v_excludeFields vendor = Some [] →
  ∃ r,
    (onAuctionEnd env args st).2 !! i = Some r
    ∧ obj_get (body r) "userAgent" = Some (VStr (userAgent env))
    ∧ obj_get (body r) "contentContext"
      = VObj <$> getContentContext args (global_ortb2 env).
Proof.
  intros [_ Hglobal] Hfound Hv Hmode Hown.
  eexists. split; [by apply onAuctionEnd_request|]. cbn [body request_for].
  assert (Heff : getExcludeFieldsForVendor (config st) vendor
                 = cfg_excludeFields (config st)).
  { unfold getExcludeFieldsForVendor. by destruct Hown as [-> | ->]. }
  assert (Hget : ∀ k, k ≠ "auctionSignal" → includes PAYLOAD_FIELDS k = false →
            obj_get (shaped_payload (config st)
                       (fullPayload_of env (config st) args auction)
                       (indexPayload_of env args auction)
                       (auctionSignal_of auction) vendor) k
            = obj_get (fullPayload_of env (config st) args auction) k).
  { intros k Hk Hunknown. unfold shaped_payload. rewrite Heff.
    destruct (v_dataMode vendor); [|done|].
    - rewrite obj_get_exclude.
      by rewrite (includes_false_of_subset _ _ _ Hglobal Hunknown).
    - rewrite obj_get_set_ne by done. rewrite obj_get_exclude.
      by rewrite (includes_false_of_subset _ _ _ Hglobal Hunknown). }
  rewrite !Hget by done. unfold fullPayload_of.
  destruct (getContentContext args (global_ortb2 env)); by simpl.
Qed.

Lemma global_list_keeps_userAgent_and_context_witness :
  ∃ r,
    (onAuctionEnd sample_env sample_end_args
       {| config := enableAnalytics (Some unknown_field_options)
                      initial_config;
          auctionCache := {[ "A1" := sample_auction ]} |}).2 !! 1%nat
    = Some r
    ∧ obj_get (body r) "userAgent" = Some (VStr "Mozilla/5.0").
Proof.
  destruct (global_list_keeps_userAgent_and_context sample_env sample_end_args
              {| config := enableAnalytics (Some unknown_field_options)
                             initial_config;
                 auctionCache := {[ "A1" := sample_auction ]} |}
              sample_auction 1
              {| v_name := "vendor2";
                 v_endpoint := "https://vendor2.example/ingest";
                 v_dataMode := Raw; v_excludeFields := None |})
    as (r & Hr & Hua & _).
  - split; simpl; repeat constructor; discriminate.
  - reflexivity.
  - reflexivity.
  - discriminate.
  - by left.
  - exists r. split; [exact Hr|exact Hua].
Defined.

(** ** The aggregator: frame, outputs and invariants *)



(** Requests are issued by an auction end for a known auction and by
    nothing else: then there is one per configured vendor, in order, each
    to that vendor's endpoint. *)
Theorem requests_per_event (env : Env) (ev : Event) (st : State) :
  map url (trackEvent env ev st).2
  = match ev with
    | AUCTION_END args =>
        match auctionCache st !! end_auctionId args with
        | Some _ => map v_endpoint (cfg_vendors (config st))
        | None => []
        end
    | _ => []
    end.
Proof.
  destruct ev as [args|args|args|args|args|]; try done. simpl.
  destruct (auctionCache st !! end_auctionId args) as [auction|] eqn:E.
  - rewrite (onAuctionEnd_found _ _ _ _ E). simpl.
    rewrite map_map. by apply map_ext.
  - by rewrite (onAuctionEnd_unknown _ _ _ E).
Qed.

Lemma set_add_NoDup (x : string) (s : list string) :
  NoDup s → NoDup (set_add x s).
Proof.
  intros Hs. unfold set_add. destruct (includes s x) eqn:E; [done|].
  apply NoDup_app. split; [done|]. split; [|apply NoDup_singleton].
  intros y Hy Hy'. apply list_elem_of_singleton in Hy'. subst y.
  apply list_elem_of_In in Hy. apply includes_true in Hy. congruence.
Qed.

Lemma positive_number_Some (cpm : value) (q : Q) :
  positive_number cpm = Some q → cpm = VNum q ∧ (0 < q)%Q.
Proof.
  destruct cpm as [| |b|q'|s|l|o]; simpl; try done.
  destruct (Qle_bool q' 0) eqn:E; simpl; [done|].
  intros [= ->]. split; [done|]. apply Qnot_le_lt. intros Hle.
  apply Qle_bool_iff in Hle. congruence.
Qed.

Lemma trackEvent_keeps_cache_ok (env : Env) (ev : Event) (st : State) :
  cache_ok (auctionCache st) →
  cache_ok (auctionCache (trackEvent env ev st).1).
Proof.
  intros Hok id a.
  destruct ev as [args|args|args|args|args|]; simpl.
  - unfold onAuctionInit. rewrite lookup_insert.
    case_decide as Hid; [|apply Hok]. intros [= <-]. subst id.
    repeat split; simpl; try lia; constructor.
  - unfold onBidRequested.
    destruct (auctionCache st !! req_auctionId args) as [a0|] eqn:E;
      [|apply Hok].
    rewrite lookup_insert. case_decide as Hid; [|apply Hok].
    intros [= <-]. subst id.
    destruct (Hok _ _ E) as (H1 & H2 & H3 & H4 & H5 & H6 & H7 & H8).
    repeat split; simpl; try done; try lia. by apply set_add_NoDup.
  - unfold onBidResponse.
    destruct (auctionCache st !! resp_auctionId args) as [a0|] eqn:E;
      [|apply Hok].
    rewrite lookup_insert. case_decide as Hid; [|apply Hok].
    intros [= <-]. subst id.
    destruct (Hok _ _ E) as (H1 & H2 & H3 & H4 & H5 & H6 & H7 & H8).
    destruct (positive_number (resp_cpm args)) as [q|] eqn:Ecpm.
    + apply positive_number_Some in Ecpm as [_ Hq].
      repeat split; simpl; try done; try lia.
      * apply Forall_app. split; [done|]. by constructor.
      * rewrite length_app. simpl. lia.
    + repeat split; simpl; try done; lia.
  - unfold onNoBid.
    destruct (auctionCache st !! nobid_auctionId args) as [a0|] eqn:E;
      [|apply Hok].
    rewrite lookup_insert. case_decide as Hid; [|apply Hok].
    intros [= <-]. subst id.
    destruct (Hok _ _ E) as (H1 & H2 & H3 & H4 & H5 & H6 & H7 & H8).
    repeat split; simpl; try done; lia.
  - unfold onAuctionEnd.
    destruct (auctionCache st !! end_auctionId args) as [a0|] eqn:E;
      [|apply Hok].
    destruct (buildAndSend _ _ _ _ _). simpl.
    intros Hl. apply lookup_delete_Some in Hl as [_ Hl]. by apply Hok.
  - apply Hok.
Qed.

(** Whatever events arrive, in whatever order, every record in the table
    is stored under its own identifier, has non-negative counters, holds
    only CPMs greater than zero and no more of them than responses were
    counted, and lists each bidder once. *)
Theorem run_keeps_cache_ok (evs : list (Env * Event)) (st : State) :
  cache_ok (auctionCache st) → cache_ok (auctionCache (run evs st).1).
Proof.
  revert st. induction evs as [|[env ev] evs IH]; intros st Hok; [done|].
  rewrite run_cons. cbn [fst]. apply IH.
  by apply trackEvent_keeps_cache_ok.
Qed.

Lemma run_keeps_cache_ok_witness :
  cache_ok
    (auctionCache
       (run (map (pair sample_env)
               (take 7 (scenario 1000 "appnexus" "rubicon" "openx"
                          [VNull; VNull; VNull] [VNull; VNull; VNull; VNull]
                          [VNull; VNull; VNull] [VNull; VNull]
                          sample_end_args)))
          {| config := sample_config; auctionCache := ∅ |}).1).
Proof.
  apply run_keeps_cache_ok. intros id a Hl. simpl in Hl.
  by rewrite lookup_empty in Hl.
Defined.

(** ** Numbers: order and saturation *)

Section RationalOrder.
Local Open Scope Q_scope.

Lemma Qfloor_half (n : Z) : Qfloor (inject_Z n + (1 # 2)) = n.
Proof.
  pose proof (Qfloor_le (inject_Z n + (1 # 2))) as Hlo.
  pose proof (Qlt_floor (inject_Z n + (1 # 2))) as Hhi.
  set (m := Qfloor (inject_Z n + (1 # 2))) in *.
  rewrite inject_Z_plus in Hhi. change (inject_Z 1) with 1 in Hhi.
  assert (H1 : (m < n + 1)%Z).
  { rewrite Zlt_Qlt, inject_Z_plus. change (inject_Z 1) with 1. lra. }
  assert (H2 : (n < m + 1)%Z).
  { rewrite Zlt_Qlt, inject_Z_plus. change (inject_Z 1) with 1. lra. }
  lia.
Qed.

Lemma round2_hundredths (n : Z) :
  round2 (inject_Z n / 100) == inject_Z n / 100.
Proof.
  rewrite round2_unfold.
  assert (E : inject_Z n / 100 * 100 + (1 # 2) == inject_Z n + (1 # 2)).
  { unfold Qdiv. change (/ 100) with (1 # 100). lra. }
  by rewrite (Qfloor_comp _ _ E), Qfloor_half.
Qed.

Lemma round2_mono (x y : Q) : x <= y → round2 x <= round2 y.
Proof.
  intros Hxy. rewrite !round2_unfold.
  assert (H : (Qfloor (x * 100 + (1 # 2)) <= Qfloor (y * 100 + (1 # 2)))%Z)
    by (apply Qfloor_resp_le; lra).
  rewrite Zle_Qle in H. unfold Qdiv. change (/ 100) with (1 # 100). lra.
Qed.

Lemma round2_nonneg (x : Q) : 0 <= x → 0 <= round2 x.
Proof.
  intros Hx. apply (Qle_trans _ (round2 0)); [by vm_compute|].
  by apply round2_mono.
Qed.

Lemma StronglySorted_nth (l : list Q) :
  StronglySorted Qle l →
  ∀ i j : nat, (i <= j)%nat → (j < length l)%nat → nth i l 0 <= nth j l 0.
Proof.
  induction 1 as [|a l Hl IH Ha]; intros i j Hij Hj; simpl in Hj; [lia|].
  destruct i as [|i], j as [|j]; simpl; try lia.
  - apply Qle_refl.
  - rewrite List.Forall_forall in Ha. apply Ha. apply nth_In. lia.
  - apply IH; lia.
Qed.

Lemma Sorted_between_ends (l : list Q) (x : Q) :
  Sorted Qle l → In x l → hd 0 l <= x ∧ x <= List.last l 0.
Proof.
  intros Hs Hx.
  apply (Sorted.Sorted_StronglySorted Qle_trans) in Hs.
  destruct (In_nth l x 0 Hx) as (k & Hk & <-).
  rewrite <- nth_last_index.
  replace (hd 0 l) with (nth 0 l 0) by (by destruct l).
  split; apply StronglySorted_nth; try done; lia.
Qed.

Lemma sum_between (l : list Q) (lo hi : Q) :
  (∀ x, In x l → lo <= x ∧ x <= hi) →
  lo * inject_Z (Z.of_nat (length l)) <= fold_right Qplus 0 l
  ∧ fold_right Qplus 0 l <= hi * inject_Z (Z.of_nat (length l)).
Proof.
  induction l as [|x l IH]; intros Hl.
  - cbn [length fold_right]. change (inject_Z (Z.of_nat 0)) with 0.
    split; lra.
  - destruct IH as [IHlo IHhi]; [intros y Hy; apply Hl; by right|].
    destruct (Hl x) as [Hlo Hhi]; [by left|].
    cbn [length fold_right]. rewrite Nat2Z.inj_succ. unfold Z.succ.
    rewrite inject_Z_plus. change (inject_Z 1) with 1.
    generalize dependent (inject_Z (Z.of_nat (length l))).
    intros n IHlo IHhi.
    assert (E1 : lo * (n + 1) == lo * n + lo) by ring.
    assert (E2 : hi * (n + 1) == hi * n + hi) by ring.
    rewrite E1, E2. split; lra.
Qed.

Lemma mean_between (l : list Q) (lo hi : Q) :
  l ≠ [] → (∀ x, In x l → lo <= x ∧ x <= hi) → lo <= mean l ∧ mean l <= hi.
Proof.
  intros Hne Hl. destruct (sum_between l lo hi Hl) as [Hlo Hhi].
  assert (Hn : 0 < inject_Z (Z.of_nat (length l))).
  { change 0 with (inject_Z 0). rewrite <- Zlt_Qlt.
    destruct l; [done|]. simpl length. lia. }
  unfold mean. split.
  - by apply Qle_shift_div_l.
  - by apply Qle_shift_div_r.
Qed.

Lemma median_between (l : list Q) :
  l ≠ [] → Sorted Qle l →
  hd 0 l <= median_of l ∧ median_of l <= List.last l 0.
Proof.
  intros Hne Hs.
  assert (Hlen : (0 < length l)%nat) by (destruct l; [done|simpl; lia]).
  destruct (median_indices_in_range (length l) Hlen) as (_ & Hmid & Heven).
  assert (Hin : ∀ k, (k < length l)%nat →
            hd 0 l <= nth k l 0 ∧ nth k l 0 <= List.last l 0).
  { intros k Hk. apply Sorted_between_ends; [done|]. by apply nth_In. }
  unfold median_of. cbv zeta.
  destruct (Nat.odd (length l)) eqn:Eodd.
  - by apply Hin.
  - rewrite <- odd_by_remainder in Eodd. apply negb_false_iff in Eodd.
    apply Nat.eqb_eq in Eodd. destruct (Heven Eodd) as [Hlow _].
    destruct (Hin _ Hmid) as [H1 H2]. destruct (Hin _ Hlow) as [H3 H4].
    unfold Qdiv. change (/ 2) with (1 # 2). split; lra.
Qed.
End RationalOrder.

(** Rounding to two decimals keeps the order of its arguments and leaves
    an already rounded value as it is. *)
Theorem round2_monotone_idempotent (x y : Q) :
  (x <= y)%Q →
  (round2 x <= round2 y)%Q ∧ (round2 (round2 x) == round2 x)%Q.
Proof.
  intros Hxy. split; [by apply round2_mono|].
  rewrite (round2_unfold x). apply round2_hundredths.
Qed.

Lemma round2_monotone_idempotent_witness :
  (round2 1.234 <= round2 1.236)%Q ∧ (round2 (round2 1.234) == round2 1.234)%Q.
Proof.
  apply round2_monotone_idempotent. vm_compute. discriminate.
Defined.

(** With exact arithmetic the statistics of a non-empty sequence are
    ordered: min <= median <= max and min <= avg <= max. *)
Lemma calculateCpmStats_ordered_exact (cpms : list Q) :
  cpms ≠ [] →
  (min (calculateCpmStats cpms) <= median (calculateCpmStats cpms))%Q
  ∧ (median (calculateCpmStats cpms) <= max (calculateCpmStats cpms))%Q
  ∧ (min (calculateCpmStats cpms) <= avg (calculateCpmStats cpms))%Q
  ∧ (avg (calculateCpmStats cpms) <= max (calculateCpmStats cpms))%Q.
Proof.
  intros Hne.
  destruct (calculateCpmStats_nonempty cpms Hne) as (Ha & Hmin & Hmax & Hmed).
  rewrite Ha, Hmin, Hmax, Hmed.
  pose proof (sort_Sorted cpms) as Hs.
  pose proof (sort_Permutation cpms) as Hp.
  assert (Hne' : sort cpms ≠ []).
  { intros E. rewrite E in Hp. apply Permutation_nil in Hp. done. }
  destruct (median_between (sort cpms) Hne' Hs) as [Hm1 Hm2].
  destruct (mean_between cpms (hd 0%Q (sort cpms))
              (List.last (sort cpms) 0%Q) Hne) as [Ha1 Ha2].
  { intros x Hx. apply Sorted_between_ends; [done|].
    by apply (Permutation_in _ (Permutation_sym Hp)). }
  repeat split; by apply round2_mono.
Qed.

(** The order of the reported statistics.  With exact arithmetic, every
    non-empty sequence has min <= median <= max and min <= avg <= max.
    On doubles the average can leave that range by a cent: three CPMs
    of 0.175 have min = max = 0.18 and avg 0.17, because their sum
    computed in doubles, divided by 3 and multiplied by 100, lies just
    below 17.5. *)
Theorem calculateCpmStats_ordered (cpms : list Q) :
  cpms ≠ [] →
  ((min (calculateCpmStats cpms) <= median (calculateCpmStats cpms))%Q
   ∧ (median (calculateCpmStats cpms) <= max (calculateCpmStats cpms))%Q
   ∧ (min (calculateCpmStats cpms) <= avg (calculateCpmStats cpms))%Q
   ∧ (avg (calculateCpmStats cpms) <= max (calculateCpmStats cpms))%Q)
  ∧ calculateCpmStats (map Binary64.lit [0.175; 0.175; 0.175]%Q)
    = {| avg := Binary64.lit 0.17; max := Binary64.lit 0.18;
         min := Binary64.lit 0.18; median := Binary64.lit 0.18 |}
  ∧ (Binary64.to_Q (Binary64.lit 0.17) < Binary64.to_Q (Binary64.lit 0.18))%Q.
Proof.
  intros Hne. split; [by apply calculateCpmStats_ordered_exact|].
  split; vm_compute; reflexivity.
Qed.

Lemma calculateCpmStats_ordered_witness :
  (min (calculateCpmStats [3; 1; 2]%Q) <= avg (calculateCpmStats [3; 1; 2]%Q))%Q.
Proof.
  assert (Hne : [3; 1; 2]%Q ≠ []) by discriminate.
  exact (proj1 (proj2 (proj2 (proj1 (calculateCpmStats_ordered _ Hne))))).
Defined.

Section SignalOrder.
Local Open Scope Q_scope.

Lemma tenth_mono (a b : Q) : a <= b → a / 10 <= b / 10.
Proof. intros H. unfold Qdiv. change (/ 10) with (1 # 10). lra. Qed.

Lemma weighted_score_mono (f c u f' c' u' : Q) :
  f <= f' → c <= c' → u <= u' →
  weighted_score f c u <= weighted_score f' c' u'.
Proof.
  intros Hf Hc Hu. unfold weighted_score.
  pose proof (Q.min_le_compat_r _ _ 1 Hf).
  pose proof (Q.min_le_compat_r _ _ 1 (tenth_mono _ _ Hc)).
  pose proof (Q.min_le_compat_r _ _ 1 (tenth_mono _ _ Hu)).
  lra.
Qed.

Lemma capped_tenth (a : Q) : Qmin (Qmin a 10 / 10) 1 == Qmin (a / 10) 1.
Proof.
  destruct (Q.min_spec_le a 10) as [[Ha E]|[Ha E]]; rewrite E.
  - reflexivity.
  - rewrite (Q.min_r (a / 10) 1)
      by (unfold Qdiv; change (/ 10) with (1 # 10); lra).
    reflexivity.
Qed.

Lemma weighted_score_capped (f c u : Q) :
  weighted_score (Qmin f 1) (Qmin c 10) (Qmin u 10) == weighted_score f c u.
Proof.
  unfold weighted_score. rewrite !capped_tenth.
  by rewrite <- Q.min_assoc, Q.min_id.
Qed.

Lemma weighted_score_saturated (f c u : Q) :
  1 <= f → 10 <= c → 10 <= u → weighted_score f c u == 1.
Proof.
  intros Hf Hc Hu. unfold weighted_score.
  rewrite (Q.min_r f 1) by done.
  rewrite (Q.min_r (c / 10) 1)
    by (unfold Qdiv; change (/ 10) with (1 # 10); lra).
  rewrite (Q.min_r (u / 10) 1)
    by (unfold Qdiv; change (/ 10) with (1 # 10); lra).
  reflexivity.
Qed.
End SignalOrder.



Lemma fillRate_of_nonneg (a : AuctionData) :
  0 <= bidResponses a → (0 <= fillRate_of a)%Q.
Proof.
  intros Hr. unfold fillRate_of. cbv zeta.
  destruct (Z.ltb_spec 0 (bidderRequests a)) as [Hn|_]; [|apply Qle_refl].
  rewrite Zle_Qle in Hr. rewrite Zlt_Qlt in Hn.
  apply Qle_shift_div_l; [done|]. by rewrite Qmult_0_l.
Qed.

Lemma calculateCpmStats_nonneg (cpms : list Q) :
  Forall (fun cpm => (0 < cpm)%Q) cpms →
  (0 <= min (calculateCpmStats cpms))%Q
  ∧ (0 <= avg (calculateCpmStats cpms))%Q.
Proof.
  intros Hpos. destruct cpms as [|c cpms]; [by split; vm_compute|].
  assert (Hne : c :: cpms ≠ []) by done.
  destruct (calculateCpmStats_ordered_exact _ Hne) as (_ & _ & Hma & _).
  assert (Hmin : (0 <= min (calculateCpmStats (c :: cpms)))%Q).
  { destruct (calculateCpmStats_nonempty _ Hne) as (_ & -> & _).
    apply round2_nonneg.
    pose proof (sort_Permutation (c :: cpms)) as Hp.
    destruct (sort (c :: cpms)) as [|x l] eqn:E.
    - apply Permutation_nil in Hp. done.
    - simpl. apply Qlt_le_weak. rewrite List.Forall_forall in Hpos.
      apply Hpos. apply (Permutation_in _ Hp). by left. }
  split; [done|]. by apply (Qle_trans _ _ _ Hmin).
Qed.



Lemma extends_refl {A} (l : list A) : extends l l.
Proof. exists []. by rewrite app_nil_r. Qed.

Lemma set_add_extends (x : string) (s : list string) : extends s (set_add x s).
Proof.
  unfold set_add. destruct (includes s x); [apply extends_refl|by exists [x]].
Qed.

(** A record only grows under bid-requested, bid-response and no-bid
    events: it stays in the table, its identifier, start time and ad-unit
    count are fixed, its counters never decrease, and its CPM and bidder
    lists are only appended to. *)
Theorem bid_events_only_grow (env : Env) (ev : Event) (st : State)
    (id : string) (a : AuctionData) :
  is_bid_event ev = true →
  auctionCache st !! id = Some a →
  ∃ a',
    auctionCache (trackEvent env ev st).1 !! id = Some a'
    ∧ auctionId a' = auctionId a
    ∧ auctionStart a' = auctionStart a
    ∧ adUnits a' = adUnits a
    ∧ bidderRequests a <= bidderRequests a'
    ∧ bidResponses a <= bidResponses a'
    ∧ noBids a <= noBids a'
    ∧ extends (cpms a) (cpms a')
    ∧ extends (bidders a) (bidders a').
Proof.
  intros Hev Hid.
  assert (Hsame : ∃ a', Some a = Some a'
            ∧ auctionId a' = auctionId a ∧ auctionStart a' = auctionStart a
            ∧ adUnits a' = adUnits a
            ∧ bidderRequests a <= bidderRequests a'
            ∧ bidResponses a <= bidResponses a' ∧ noBids a <= noBids a'
            ∧ extends (cpms a) (cpms a') ∧ extends (bidders a) (bidders a')).
  { exists a. repeat split; try lia; apply extends_refl. }
  destruct ev as [args|args|args|args|args|]; try done; simpl.
  - unfold onBidRequested.
    destruct (auctionCache st !! req_auctionId args) as [a0|] eqn:E;
      [|by rewrite Hid].
    rewrite lookup_insert. case_decide as Heq; [|by rewrite Hid].
    subst id. rewrite Hid in E. injection E as <-.
    eexists. split; [done|]. simpl.
    repeat split; try lia; [apply extends_refl|apply set_add_extends].
  - unfold onBidResponse.
    destruct (auctionCache st !! resp_auctionId args) as [a0|] eqn:E;
      [|by rewrite Hid].
    rewrite lookup_insert. case_decide as Heq; [|by rewrite Hid].
    subst id. rewrite Hid in E. injection E as <-.
    eexists. split; [done|]. simpl.
    repeat split; try lia; [|apply extends_refl].
    destruct (positive_number (resp_cpm args)) as [q|];
      [by exists [q]|apply extends_refl].
  - unfold onNoBid.
    destruct (auctionCache st !! nobid_auctionId args) as [a0|] eqn:E;
      [|by rewrite Hid].
    rewrite lookup_insert. case_decide as Heq; [|by rewrite Hid].
    subst id. rewrite Hid in E. injection E as <-.
    eexists. split; [done|]. simpl.
    repeat split; try lia; apply extends_refl.
Qed.

Lemma bid_events_only_grow_witness :
  ∃ a',
    auctionCache
      (trackEvent sample_env
         (BID_RESPONSE {| resp_auctionId := "A1"; resp_cpm := VNum 3 |})
         sample_state).1 !! "A1" = Some a'
    ∧ bidResponses sample_auction <= bidResponses a'
    ∧ extends (cpms sample_auction) (cpms a').
Proof.
  destruct (bid_events_only_grow sample_env
              (BID_RESPONSE {| resp_auctionId := "A1"; resp_cpm := VNum 3 |})
              sample_state "A1" sample_auction)
    as (a' & Hl & _ & _ & _ & _ & Hr & _ & Hc & _);
    [reflexivity|reflexivity|].
  exists a'. split; [exact Hl|]. split; [exact Hr|exact Hc].
Defined.

(** A bid response whose CPM is not a number greater than zero (zero,
    negative, a string, missing) is counted as a response but contributes
    no CPM value. *)
Theorem non_positive_cpm_counted_not_recorded (env : Env) (st : State)
    (id : string) (cpm : value) (a : AuctionData) :
  auctionCache st !! id = Some a →
  (∀ q, cpm = VNum q → (q <= 0)%Q) →
  ∃ a',
    auctionCache
      (trackEvent env
         (BID_RESPONSE {| resp_auctionId := id; resp_cpm := cpm |}) st).1
      !! id = Some a'
    ∧ bidResponses a' = bidResponses a + 1
    ∧ cpms a' = cpms a
    ∧ calculateCpmStats (cpms a') = calculateCpmStats (cpms a).
Proof.
  intros Hid Hcpm. simpl. unfold onBidResponse. simpl. rewrite Hid.
  rewrite lookup_insert_eq. eexists. split; [done|]. simpl.
  assert (Hnone : positive_number cpm = None).
  { destruct (positive_number cpm) as [q|] eqn:E; [|done].
    apply positive_number_Some in E as [-> Hq].
    specialize (Hcpm q eq_refl). exfalso.
    by apply (Qlt_not_le _ _ Hq). }
  by rewrite Hnone.
Qed.

Lemma non_positive_cpm_counted_not_recorded_witness :
  ∃ a',
    auctionCache
      (trackEvent sample_env
         (BID_RESPONSE {| resp_auctionId := "A1"; resp_cpm := VNum 0 |})
         sample_state).1 !! "A1" = Some a'
    ∧ bidResponses a' = 3 ∧ cpms a' = [1%Q; 2%Q].
Proof.
  destruct (non_positive_cpm_counted_not_recorded sample_env sample_state
              "A1" (VNum 0) sample_auction)
    as (a' & Hl & Hr & Hc & _).
  - reflexivity.
  - intros q [= <-]. vm_compute. discriminate.
  - exists a'. split; [exact Hl|]. split; [exact Hr|exact Hc].
Defined.



(** ** Filtering and dispatch: order, aliasing, modes *)

Lemma obj_keys_delete (o : obj) (k : string) :
  obj_keys (obj_delete o k)
  = List.filter (fun k' => negb (String.eqb k' k)) (obj_keys o).
Proof.
  induction o as [|[k0 v0] o IH]; simpl; [done|].
  destruct (String.eqb k0 k); simpl; [done|]. by rewrite <- IH.
Qed.

Lemma filter_twice {A} (f g : A → bool) (l : list A) :
  List.filter g (List.filter f l) = List.filter (fun x => f x && g x) l.
Proof.
  induction l as [|x l IH]; simpl; [done|].
  destruct (f x); simpl; [|done]. destruct (g x); by rewrite IH.
Qed.

Lemma obj_keys_exclude (fields : list string) (o : obj) :
  obj_keys (exclude o fields)
  = List.filter (fun k => negb (includes fields k)) (obj_keys o).
Proof.
  unfold exclude. revert o.
  induction fields as [|f fields IH]; intros o; simpl.
  - induction (obj_keys o) as [|k ks IHk]; simpl; [done|]. by rewrite <- IHk.
  - rewrite IH, obj_keys_delete, filter_twice.
    apply filter_ext. intros k. by rewrite negb_orb.
Qed.

Lemma obj_delete_absent (o : obj) (k : string) :
  obj_get o k = None → obj_delete o k = o.
Proof.
  induction o as [|[k0 v0] o IH]; simpl; [done|].
  destruct (String.eqb k0 k); [done|]. intros H. by rewrite IH.
Qed.

Lemma exclude_absent (fields : list string) (o : obj) :
  Forall (fun f => obj_get o f = None) fields → exclude o fields = o.
Proof.
  unfold exclude. induction 1 as [|f fields Hf _ IH]; simpl; [done|].
  by rewrite obj_delete_absent.
Qed.

(** The properties that survive filtering keep the order they had in the
    payload, which is the order in which they are serialised. *)
Theorem filterPayload_keeps_order (payload : ref)
    (excludeFields : list string) (s : Store) (o : obj) :
  heap s !! payload = Some o →
  ∃ filtered,
    heap (filterPayload payload excludeFields s).2
      !! (filterPayload payload excludeFields s).1 = Some filtered
    ∧ obj_keys filtered
      = List.filter (fun k => negb (includes excludeFields k)) (obj_keys o).
Proof.
  intros Hp.
  destruct (filterPayload_run payload excludeFields s o Hp)
    as (r & ext & Hrun & Hr).
  rewrite Hrun. simpl. exists (exclude o excludeFields).
  split; [done|]. apply obj_keys_exclude.
Qed.

Lemma filterPayload_keeps_order_witness :
  ∃ filtered,
    heap (filterPayload 0 ["cpmStats"; "domain"] sample_store).2
      !! (filterPayload 0 ["cpmStats"; "domain"] sample_store).1
    = Some filtered
    ∧ obj_keys filtered
      = [ "pageUrl"; "publisherId"; "timestamp"; "auctionId";
          "adapterVersion"; "pbjsVersion"; "userAgent"; "adUnits";
          "bidderRequests"; "bidResponses"; "noBids"; "uniqueBidders";
          "bidderList"; "fillRate"; "auctionDuration" ].
Proof.
  destruct (filterPayload_keeps_order 0 ["cpmStats"; "domain"] sample_store
              sample_fullPayload) as (filtered & Hl & Hk); [reflexivity|].
  exists filtered. split; [exact Hl|]. rewrite Hk. reflexivity.
Defined.

(** With an empty exclusion list [filterPayload] returns the payload
    itself and touches nothing; with a non-empty one it returns a new
    object, distinct from the payload, and the store grows by exactly
    that object. *)
Theorem filterPayload_aliasing (payload : ref) (excludeFields : list string)
    (s : Store) (o : obj) :
  heap s !! payload = Some o →
  (excludeFields = [] → filterPayload payload excludeFields s = (payload, s))
  ∧ (excludeFields ≠ [] →
     (filterPayload payload excludeFields s).1 = length (heap s)
     ∧ (filterPayload payload excludeFields s).1 ≠ payload
     ∧ heap (filterPayload payload excludeFields s).2
       = heap s ++ [exclude o excludeFields]
     ∧ sent (filterPayload payload excludeFields s).2 = sent s).
Proof.
  intros Hp. split.
  - intros ->. done.
  - intros Hne. destruct excludeFields as [|f fields]; [done|].
    set (fs := f :: fields). destruct s as [h out]. simpl in *.
    assert (Hrun : filterPayload payload fs {| heap := h; sent := out |}
              = (length h,
                 {| heap := h ++ [exclude o fs]; sent := out |})).
    { unfold filterPayload, fs at 1. simpl length. simpl Nat.eqb.
      unfold mbind, M_bind, read, alloc, mret, M_ret. simpl. rewrite Hp.
      simpl.
      change (delete_prop (length h) f ;;
              forEach fields (fun field => delete_prop (length h) field))
        with (forEach fs (fun field => delete_prop (length h) field)).
      erewrite forEach_delete_prop by (by apply list_lookup_middle).
      simpl. replace (length h) with (length h + 0)%nat at 2 by lia.
      by rewrite insert_app_r. }
    rewrite Hrun. simpl. repeat split; try done.
    apply lookup_lt_Some in Hp. lia.
Qed.

Lemma filterPayload_aliasing_witness :
  filterPayload 0 [] sample_store = (0%nat, sample_store)
  ∧ (filterPayload 0 ["cpmStats"] sample_store).1 = 1%nat.
Proof.
  destruct (filterPayload_aliasing 0 [] sample_store sample_fullPayload)
    as [Hempty _]; [reflexivity|].
  destruct (filterPayload_aliasing 0 ["cpmStats"] sample_store
              sample_fullPayload) as [_ Hfresh]; [reflexivity|].
  split; [by apply Hempty|]. by apply Hfresh.
Defined.

Lemma fullPayload_of_no_signal (env : Env) (cfg : Config)
    (args : AuctionEndArgs) (auction : AuctionData) :
  obj_get (fullPayload_of env cfg args auction) "auctionSignal" = None.
Proof.
  unfold fullPayload_of. by destruct (getContentContext _ _).
Qed.

(** Raw mode never carries [auctionSignal], whatever else is configured;
    and every vendor in both mode with the same [excludeFields] receives
    exactly that raw payload with [auctionSignal] added at the end. *)
Theorem both_is_raw_plus_signal (env : Env) (args : AuctionEndArgs)
    (st : State) (auction : AuctionData) (i : nat) (v1 : VendorConfig) :
  auctionCache st !! end_auctionId args = Some auction →
  cfg_vendors (config st) !! i = Some v1 →
  v_dataMode v1 = Raw →
  ∃ r1,
    (onAuctionEnd env args st).2 !! i = Some r1
    ∧ obj_get (body r1) "auctionSignal" = None
    ∧ (∀ (j : nat) (v2 : VendorConfig),
         cfg_vendors (config st) !! j = Some v2 →
         v_dataMode v2 = Both →
         v_excludeFields v1 = v_excludeFields v2 →
         ∃ r2,
           (onAuctionEnd env args st).2 !! j = Some r2
           ∧ body r2
             = body r1
               ++ [("auctionSignal", VNum (auctionSignal_of auction))]).
Proof.
  intros Hfound H1 Hraw.
  eexists. split; [by apply onAuctionEnd_request|].
  cbn [body request_for]. unfold shaped_payload at 1 2.
  unfold getExcludeFieldsForVendor at 1 2. rewrite Hraw.
  set (l := match v_excludeFields v1 with
            | Some fields =>
                if Nat.ltb 0 (length fields) then fields
                else cfg_excludeFields (config st)
            | None => cfg_excludeFields (config st)
            end).
  assert (Hnone : obj_get (exclude (fullPayload_of env (config st) args
                                      auction) l) "auctionSignal" = None).
  { rewrite obj_get_exclude, fullPayload_of_no_signal.
    by destruct (includes _ _). }
  split; [done|].
  intros j v2 H2 Hboth Hsame.
  eexists. split; [by apply onAuctionEnd_request|].
  cbn [body request_for]. unfold shaped_payload, getExcludeFieldsForVendor.
  rewrite Hboth, <- Hsame. fold l.
  generalize dependent (exclude (fullPayload_of env (config st) args auction) l).
  intros o Ho. induction o as [|[k v] o IH]; simpl in *; [done|].
  destruct (String.eqb k "auctionSignal"); [done|]. by rewrite IH.
Qed.

(** A configuration with one raw vendor only, and one with a both vendor
    beside it that excludes the same field. *)
Lemma both_is_raw_plus_signal_witness :
  (∃ r1,
     (onAuctionEnd sample_env sample_end_args raw_only_state).2 !! 0%nat
     = Some r1
     ∧ obj_get (body r1) "auctionSignal" = None)
  ∧ (∃ r1 r2,
       (onAuctionEnd sample_env sample_end_args raw_and_both_state).2 !! 0%nat
       = Some r1
       ∧ (onAuctionEnd sample_env sample_end_args raw_and_both_state).2
         !! 1%nat = Some r2
       ∧ obj_get (body r1) "auctionSignal" = None
       ∧ body r2
         = body r1
           ++ [("auctionSignal", VNum (auctionSignal_of sample_auction))]).
Proof.
  split.
  - destruct (both_is_raw_plus_signal sample_env sample_end_args
                raw_only_state sample_auction 0 vendor_raw)
      as (r1 & H1 & Hn & _); [reflexivity|reflexivity|reflexivity|].
    exists r1. split; [exact H1|exact Hn].
  - destruct (both_is_raw_plus_signal sample_env sample_end_args
                raw_and_both_state sample_auction 0 vendor_raw)
      as (r1 & H1 & Hn & Hall); [reflexivity|reflexivity|reflexivity|].
    destruct (Hall 1%nat vendor_both_pageUrl) as (r2 & H2 & Hb);
      [reflexivity|reflexivity|reflexivity|].
    exists r1, r2. split; [exact H1|]. split; [exact H2|].
    split; [exact Hn|exact Hb].
Defined.

(** The content context reaches every destination alike: an index vendor
    always, a raw or both vendor unless its exclusion list names
    [contentContext]; when the resolver finds none the property is absent
    from every payload. *)
Theorem contentContext_in_every_mode (env : Env) (args : AuctionEndArgs)
    (st : State) (auction : AuctionData) (i : nat) (vendor : VendorConfig) :
  auctionCache st !! end_auctionId args = Some auction →
  cfg_vendors (config st) !! i = Some vendor →
  v_dataMode vendor = Index
  ∨ ¬ In "contentContext" (getExcludeFieldsForVendor (config st) vendor) →
  ∃ r,
    (onAuctionEnd env args st).2 !! i = Some r
    ∧ obj_get (body r) "contentContext"
      = VObj <$> getContentContext args (global_ortb2 env).
Proof.
  intros Hfound Hv Hmode.
  eexists. split; [by apply onAuctionEnd_request|]. cbn [body request_for].
  assert (Hfull : obj_get (fullPayload_of env (config st) args auction)
                    "contentContext"
                  = VObj <$> getContentContext args (global_ortb2 env)).
  { unfold fullPayload_of. by destruct (getContentContext _ _). }
  assert (Hindex : obj_get (indexPayload_of env args auction) "contentContext"
                   = VObj <$> getContentContext args (global_ortb2 env)).
  { unfold indexPayload_of. by destruct (getContentContext _ _). }
  unfold shaped_payload.
  destruct (v_dataMode vendor) eqn:Em; [|done|].
  - destruct Hmode as [|Hnot]; [done|]. rewrite obj_get_exclude.
    destruct (includes _ _) eqn:E; [|done].
    by apply includes_true in E.
  - destruct Hmode as [|Hnot]; [done|].
    rewrite obj_get_set_ne by done. rewrite obj_get_exclude.
    destruct (includes _ _) eqn:E; [|done].
    by apply includes_true in E.
Qed.

Lemma contentContext_in_every_mode_witness :
  ∃ r,
    (onAuctionEnd sample_env sample_end_args sample_state).2 !! 2%nat
    = Some r
    ∧ obj_get (body r) "contentContext"
      = Some (VObj [("language", VStr "en"); ("source", VStr "ortb2")]).
Proof.
  destruct (contentContext_in_every_mode sample_env sample_end_args
              sample_state sample_auction 2 vendor_index)
    as (r & Hr & Hc); [reflexivity|reflexivity|by left|].
  exists r. split; [exact Hr|exact Hc].
Defined.

(** Exclusion names that are not properties of the payload change
    nothing: a raw vendor whose list names only such properties receives
    the full payload as built. *)
Theorem absent_exclusions_are_harmless (env : Env) (args : AuctionEndArgs)
    (st : State) (auction : AuctionData) (i : nat) (vendor : VendorConfig) :
  auctionCache st !! end_auctionId args = Some auction →
  cfg_vendors (config st) !! i = Some vendor →
  v_dataMode vendor = Raw →
  Forall (fun f => obj_get (fullPayload_of env (config st) args auction) f
                   = None)
    (getExcludeFieldsForVendor (config st) vendor) →
  ∃ r,
    (onAuctionEnd env args st).2 !! i = Some r
    ∧ body r = fullPayload_of env (config st) args auction.
Proof.
  intros Hfound Hv Hmode Habsent.
  eexists. split; [by apply onAuctionEnd_request|]. cbn [body request_for].
  unfold shaped_payload. rewrite Hmode. by apply exclude_absent.
Qed.

Lemma absent_exclusions_are_harmless_witness :
  ∃ r,
    (onAuctionEnd sample_env sample_end_args
       {| config :=
            {| cfg_vendors :=
                 [ {| v_name := "vendor1";
                      v_endpoint := "https://vendor1.example/ingest";
                      v_dataMode := Raw;
                      v_excludeFields := Some ["auctionSignal"; "cpm"] |} ];
               cfg_publisherId := VNull; cfg_excludeFields := ["cpmStats"] |};
          auctionCache := {[ "A1" := sample_auction ]} |}).2 !! 0%nat
    = Some r
    ∧ is_Some (obj_get (body r) "cpmStats").
Proof.
  destruct (absent_exclusions_are_harmless sample_env sample_end_args
              {| config :=
                   {| cfg_vendors :=
                        [ {| v_name := "vendor1";
                             v_endpoint := "https://vendor1.example/ingest";
                             v_dataMode := Raw;
                             v_excludeFields :=
                               Some ["auctionSignal"; "cpm"] |} ];
                      cfg_publisherId := VNull;
                      cfg_excludeFields := ["cpmStats"] |};
                 auctionCache := {[ "A1" := sample_auction ]} |}
              sample_auction 0
              {| v_name := "vendor1";
                 v_endpoint := "https://vendor1.example/ingest";
                 v_dataMode := Raw;
                 v_excludeFields := Some ["auctionSignal"; "cpm"] |})
    as (r & Hr & Hb); [reflexivity|reflexivity|reflexivity| |].
  - repeat constructor.
  - exists r. split; [exact Hr|]. rewrite Hb. by eexists.
Defined.

(** ** Content context: shape and precedence *)

(** A context, when one is built, is never empty: it ends with
    [source: 'ortb2'], holds nothing but [language], [keywords] and
    [source], its language is the descriptor's truthy language, and its
    keywords are the descriptor's keywords and a non-empty array. *)
Theorem buildContextObject_shape (siteContent : value) (context : obj) :
  buildContextObject siteContent = Some context →
  obj_get context "source" = Some (VStr "ortb2")
  ∧ (∀ k, In k (obj_keys context) → In k ["language"; "keywords"; "source"])
  ∧ (∀ v, obj_get context "language" = Some v →
       v = get siteContent "language" ∧ truthy v = true)
  ∧ (∀ v, obj_get context "keywords" = Some v →
       v = get siteContent "keywords" ∧ ∃ x l, v = VArr (x :: l)).
Proof.
  unfold buildContextObject.
  destruct (negb (truthy siteContent)
            || negb (truthy (get siteContent "language"))
               && negb (truthy (get siteContent "keywords"))); [done|].
  destruct (truthy (get siteContent "language")) eqn:El;
    destruct (get siteContent "keywords") as [| |b|q|w|[|x l]|o] eqn:Ek;
    simpl; try destruct b; try destruct (negb (Qeq_bool q 0));
    try destruct (negb (String.eqb w EmptyString)); simpl;
    intros [= <-]; simpl;
    (split; [done|]); (split; [intros k Hk; simpl; tauto|]);
    (split; intros v [= <-]; eauto).
Qed.

Lemma buildContextObject_shape_witness :
  ∃ context,
    buildContextObject
      (VObj [("language", VStr "en"); ("keywords", VStr "a,b")])
    = Some context
    ∧ obj_get context "source" = Some (VStr "ortb2")
    ∧ obj_get context "keywords" = None.
Proof.
  eexists. split; [reflexivity|].
  split; [|reflexivity].
  exact (proj1 (buildContextObject_shape
                  (VObj [("language", VStr "en"); ("keywords", VStr "a,b")])
                  _ eq_refl)).
Defined.

Lemma find_present {A} (f : A → bool) (l : list A) (x : A) :
  In x l → f x = true → is_Some (find f l).
Proof.
  intros Hx Hf. destruct (find f l) eqn:E; [by eexists|].
  by rewrite (find_none f l E x Hx) in Hf.
Qed.

Lemma find_absent {A} (f : A → bool) (l : list A) :
  Forall (fun x => f x = false) l → find f l = None.
Proof. induction 1 as [|x l Hx _ IH]; simpl; [done|]. by rewrite Hx. Qed.

(** The global configuration is a fallback only: when a bidder request
    or the event itself holds a content descriptor, the result does not
    depend on the global one; when none does, the result is built from the
    global descriptor, if there is one. *)
Theorem global_content_is_fallback_only (args : AuctionEndArgs)
    (g g' : value) :
  Forall (fun r => nullish r = false) (default [] (end_bidderRequests args)) →
  let auction_level :=
    map bidderRequest_content (default [] (end_bidderRequests args))
    ++ [ortb2_site_content (end_ortb2 args)] in
  ((∃ d, In d auction_level ∧ truthy d = true) →
   getContentContext args g = getContentContext args g')
  ∧ (Forall (fun d => truthy d = false) auction_level →
     getContentContext args g
     = if truthy (ortb2_site_content g)
       then buildContextObject (ortb2_site_content g) else None).
Proof.
  intros Hobj auction_level.
  rewrite !getContentContext_first_present by done.
  unfold first_present, content_sources.
  change (map bidderRequest_content (default [] (end_bidderRequests args))
          ++ [ortb2_site_content (end_ortb2 args); ortb2_site_content g])
    with (map bidderRequest_content (default [] (end_bidderRequests args))
          ++ [ortb2_site_content (end_ortb2 args)] ++ [ortb2_site_content g]).
  change (map bidderRequest_content (default [] (end_bidderRequests args))
          ++ [ortb2_site_content (end_ortb2 args); ortb2_site_content g'])
    with (map bidderRequest_content (default [] (end_bidderRequests args))
          ++ [ortb2_site_content (end_ortb2 args)] ++ [ortb2_site_content g']).
  rewrite !app_assoc. fold auction_level. rewrite !find_append. split.
  - intros (d & Hd & Ht).
    by destruct (find_present truthy auction_level d Hd Ht) as [x ->].
  - intros Hnone. rewrite (find_absent _ _ Hnone). simpl.
    by destruct (truthy (ortb2_site_content g)).
Qed.

Lemma global_content_is_fallback_only_witness :
  getContentContext sample_end_args VUndefined
  = getContentContext sample_end_args (ortb2_of [("language", VStr "fr")]).
Proof.
  assert (H : Forall (fun r => nullish r = false)
                (default [] (end_bidderRequests sample_end_args))).
  { simpl. repeat constructor. }
  apply (proj1 (global_content_is_fallback_only sample_end_args VUndefined
                  (ortb2_of [("language", VStr "fr")]) H)).
  exists (VObj [("language", VStr "en")]). split; [simpl; tauto|reflexivity].
Defined.

Lemma getContentContext_null_bidderRequest_witness :
  getContentContext
    {| end_auctionId := "A1"; end_auctionEnd := None;
       end_bidderRequests :=
         Some [VObj []; VNull; content_of [("language", VStr "en")]];
       end_ortb2 := ortb2_of [("language", VStr "en")] |}
    (ortb2_of [("language", VStr "en")])
  = None.
Proof.
  apply (getContentContext_null_bidderRequest _ _ [VObj []]
           [content_of [("language", VStr "en")]] VNull).
  - reflexivity.
  - repeat constructor.
  - reflexivity.
Defined.

(** ** Statistics do not depend on the order of the values *)

Section OrderIndependence.
Local Open Scope Q_scope.

Lemma comparator_positive_comp (x y y' : Q) :
  y == y' →
  num_gt (comparator x y) (num_lit 0) = num_gt (comparator x y') (num_lit 0).
Proof.
  intros E.
  destruct (num_gt (comparator x y) (num_lit 0)) eqn:E1;
    destruct (num_gt (comparator x y') (num_lit 0)) eqn:E2; try done.
  - apply comparator_positive in E1.
    assert (H : y' < x) by lra. apply comparator_positive in H. congruence.
  - apply comparator_positive in E2.
    assert (H : y < x) by lra. apply comparator_positive in H. congruence.
Qed.

Lemma sort_insert_comp (x : Q) (s s' : list Q) :
  Forall2 Qeq s s' → Forall2 Qeq (sort_insert x s) (sort_insert x s').
Proof.
  induction 1 as [|y y' s s' Hy Hs IH]; cbn [sort_insert].
  - by repeat constructor.
  - rewrite (comparator_positive_comp x y y' Hy).
    destruct (num_gt (comparator x y') (num_lit 0)).
    + by constructor.
    + constructor; [reflexivity|]. by constructor.
Qed.

Lemma Forall2_Qeq_refl (l : list Q) : Forall2 Qeq l l.
Proof. induction l; by constructor. Qed.

Lemma Forall2_Qeq_trans (l1 l2 l3 : list Q) :
  Forall2 Qeq l1 l2 → Forall2 Qeq l2 l3 → Forall2 Qeq l1 l3.
Proof.
  intros H12. revert l3. induction H12 as [|x y l1 l2 Hxy _ IH]; intros l3 H23.
  - by inversion H23.
  - inversion H23 as [|y' z l2' l3' Hyz Hrest]; subst.
    constructor; [by rewrite Hxy|]. by apply IH.
Qed.

Lemma sort_insert_swap (x y : Q) (s : list Q) :
  Forall2 Qeq (sort_insert x (sort_insert y s))
    (sort_insert y (sort_insert x s)).
Proof.
  induction s as [|z s IH]; cbn [sort_insert].
  - destruct (num_gt (comparator x y) (num_lit 0)) eqn:Exy;
      destruct (num_gt (comparator y x) (num_lit 0)) eqn:Eyx;
      cbn [sort_insert]; rewrite ?Exy, ?Eyx; cbn [sort_insert].
    + apply comparator_positive in Exy, Eyx. lra.
    + apply Forall2_Qeq_refl.
    + apply Forall2_Qeq_refl.
    + assert (E : x == y).
      { apply Qle_antisym; apply Qnot_lt_le; intros H;
          apply comparator_positive in H; congruence. }
      repeat constructor; by rewrite E.
  - destruct (num_gt (comparator y z) (num_lit 0)) eqn:Eyz;
      destruct (num_gt (comparator x z) (num_lit 0)) eqn:Exz;
      cbn [sort_insert]; rewrite ?Eyz, ?Exz.
    + constructor; [reflexivity|]. apply IH.
    + assert (Eyx : num_gt (comparator y x) (num_lit 0) = true).
      { apply comparator_positive. apply comparator_positive in Eyz.
        assert (x <= z); [|lra]. apply Qnot_lt_le. intros H.
        apply comparator_positive in H. congruence. }
      rewrite Eyx. cbn [sort_insert]. rewrite ?Eyz. apply Forall2_Qeq_refl.
    + assert (Exy : num_gt (comparator x y) (num_lit 0) = true).
      { apply comparator_positive. apply comparator_positive in Exz.
        assert (y <= z); [|lra]. apply Qnot_lt_le. intros H.
        apply comparator_positive in H. congruence. }
      rewrite Exy. cbn [sort_insert]. rewrite ?Exz. apply Forall2_Qeq_refl.
    + destruct (num_gt (comparator x y) (num_lit 0)) eqn:Exy;
        destruct (num_gt (comparator y x) (num_lit 0)) eqn:Eyx;
        cbn [sort_insert]; rewrite ?Exz, ?Eyz.
      * apply comparator_positive in Exy, Eyx. lra.
      * apply Forall2_Qeq_refl.
      * apply Forall2_Qeq_refl.
      * assert (E : x == y).
        { apply Qle_antisym; apply Qnot_lt_le; intros H;
            apply comparator_positive in H; congruence. }
        constructor; [done|]. constructor; [by symmetry|].
        apply Forall2_Qeq_refl.
Qed.

Lemma sort_Permutation_comp (l l' : list Q) :
  Permutation l l' → Forall2 Qeq (sort l) (sort l').
Proof.
  induction 1 as [|x l l' _ IH|x y l|l1 l2 l3 _ IH1 _ IH2]; cbn [sort].
  - constructor.
  - by apply sort_insert_comp.
  - apply sort_insert_swap.
  - by apply (Forall2_Qeq_trans _ (sort l2)).
Qed.

Lemma nth_comp (l l' : list Q) (i : nat) :
  Forall2 Qeq l l' → nth i l 0 == nth i l' 0.
Proof.
  intros H. revert i. induction H as [|x y l l' Hxy _ IH]; intros [|i];
    simpl; try reflexivity; [done|apply IH].
Qed.

Lemma sum_Permutation (l l' : list Q) :
  Permutation l l' → fold_right Qplus 0 l == fold_right Qplus 0 l'.
Proof.
  induction 1 as [|x l l' _ IH|x y l|l1 l2 l3 _ IH1 _ IH2]; simpl.
  - reflexivity.
  - by rewrite IH.
  - lra.
  - by rewrite IH1.
Qed.
End OrderIndependence.

(** With exact arithmetic the statistics depend on the values only, not
    on the order in which they were recorded. *)
Lemma calculateCpmStats_order_independent_exact (cpms cpms' : list Q) :
  Permutation cpms cpms' →
  (avg (calculateCpmStats cpms) == avg (calculateCpmStats cpms'))%Q
  ∧ (min (calculateCpmStats cpms) == min (calculateCpmStats cpms'))%Q
  ∧ (max (calculateCpmStats cpms) == max (calculateCpmStats cpms'))%Q
  ∧ (median (calculateCpmStats cpms) == median (calculateCpmStats cpms'))%Q.
Proof.
  intros Hp.
  destruct cpms as [|c cpms].
  { apply Permutation_nil in Hp. subst. by repeat split. }
  assert (Hne : c :: cpms ≠ []) by done.
  assert (Hne' : cpms' ≠ []).
  { intros ->. apply Permutation_sym, Permutation_nil in Hp. done. }
  rewrite (calculateCpmStats_unfold _ Hne), (calculateCpmStats_unfold _ Hne').
  cbv zeta. cbn [avg min max median].
  pose proof (sort_Permutation_comp _ _ Hp) as Hs.
  assert (Hlen : length (sort (c :: cpms)) = length (sort cpms')).
  { by apply Forall2_length in Hs. }
  rewrite Hlen. repeat split; apply round2_comp.
  - rewrite !fold_left_Qplus, (sum_Permutation _ _ Hp).
    by rewrite (Permutation_length Hp).
  - by apply nth_comp.
  - by apply nth_comp.
  - destruct (negb (Nat.eqb (Nat.modulo (length (sort cpms')) 2) 0)).
    + by apply nth_comp.
    + by rewrite !(nth_comp _ _ _ Hs).
Qed.

(** The order in which the CPMs were recorded.  For positive finite
    doubles, [min], [max] and [median] depend on the values only; [avg]
    depends on the order too, because the sum is taken from left to right
    in doubles: the CPMs 1, 1, 1.26, 1.6 have avg 1.21 in this order and
    1.22 in the order 1.6, 1, 1, 1.26.  With exact arithmetic all four
    depend on the values only. *)
Theorem calculateCpmStats_order_independent (cpms cpms' : list Q)
    (doubles doubles' : list spec_float) :
  Permutation cpms cpms' →
  Permutation doubles doubles' →
  Forall Binary64.positive_finite doubles →
  (min (calculateCpmStats doubles) = min (calculateCpmStats doubles')
   ∧ max (calculateCpmStats doubles) = max (calculateCpmStats doubles')
   ∧ median (calculateCpmStats doubles)
     = median (calculateCpmStats doubles'))
  ∧ (avg (calculateCpmStats (map Binary64.lit [1; 1; 1.26; 1.6]%Q))
     = Binary64.lit 1.21
     ∧ avg (calculateCpmStats (map Binary64.lit [1.6; 1; 1; 1.26]%Q))
       = Binary64.lit 1.22
     ∧ Binary64.lit 1.21 ≠ Binary64.lit 1.22)
  ∧ ((avg (calculateCpmStats cpms) == avg (calculateCpmStats cpms'))%Q
     ∧ (min (calculateCpmStats cpms) == min (calculateCpmStats cpms'))%Q
     ∧ (max (calculateCpmStats cpms) == max (calculateCpmStats cpms'))%Q
     ∧ (median (calculateCpmStats cpms)
        == median (calculateCpmStats cpms'))%Q).
Proof.
  intros Hp Hp' Hpos.
  split; [|split; [|by apply calculateCpmStats_order_independent_exact]].
  - destruct doubles as [|x doubles].
    { apply Permutation_nil in Hp'. by subst. }
    assert (Hne : x :: doubles ≠ []) by done.
    assert (Hne' : doubles' ≠ []).
    { intros ->. apply Permutation_sym, Permutation_nil in Hp'. done. }
    rewrite (calculateCpmStats_computed _ Hne),
      (calculateCpmStats_computed _ Hne').
    cbn [min max median].
    by rewrite (sort_doubles_Permutation _ _ Hpos Hp').
  - split; [vm_compute; reflexivity|].
    split; [vm_compute; reflexivity|]. vm_compute. discriminate.
Qed.

Lemma calculateCpmStats_order_independent_witness :
  median (calculateCpmStats (map Binary64.lit [3; 1.26; 2]%Q))
  = median (calculateCpmStats (map Binary64.lit [1.26; 2; 3]%Q))
  ∧ (median (calculateCpmStats [3; 1; 2]%Q)
     == median (calculateCpmStats [1; 2; 3]%Q))%Q.
Proof.
  assert (Hp : Permutation [3; 1; 2]%Q [1; 2; 3]%Q).
  { apply (perm_trans (l' := [1; 3; 2]%Q)); repeat constructor. }
  assert (Hp' : Permutation (map Binary64.lit [3; 1.26; 2]%Q)
                  (map Binary64.lit [1.26; 2; 3]%Q)).
  { apply Permutation_map.
    apply (perm_trans (l' := [1.26; 3; 2]%Q)); repeat constructor. }
  assert (Hpos : Forall Binary64.positive_finite
                   (map Binary64.lit [3; 1.26; 2]%Q)).
  { repeat constructor. }
  destruct (calculateCpmStats_order_independent _ _ _ _ Hp Hp' Hpos)
    as ((_ & _ & Hmedian) & _ & (_ & _ & _ & Hexact)).
  split; [exact Hmedian|exact Hexact].
Defined.

(** ** Bidders are a set; the index payload hides bid detail *)

(** A bid-requested event adds its bids to the request counter and its
    bidder code to the bidders, once: a code already present leaves the
    bidders as they are, a new one is appended. *)
Theorem bidRequested_counts_bidder_once (env : Env) (st : State)
    (args : BidRequestedArgs) (a : AuctionData) :
  auctionCache st !! req_auctionId args = Some a →
  ∃ a',
    auctionCache (trackEvent env (BID_REQUESTED args) st).1
      !! req_auctionId args = Some a'
    ∧ bidderRequests a' = bidderRequests a + Z.of_nat (length (req_bids args))
    ∧ In (req_bidderCode args) (bidders a')
    ∧ (In (req_bidderCode args) (bidders a) → bidders a' = bidders a)
    ∧ (¬ In (req_bidderCode args) (bidders a) →
       bidders a' = bidders a ++ [req_bidderCode args]).
Proof.
  intros Hid. simpl. unfold onBidRequested. rewrite Hid.
  rewrite lookup_insert_eq. eexists. split; [done|]. simpl.
  split; [done|]. unfold set_add.
  destruct (includes (bidders a) (req_bidderCode args)) eqn:E.
  - apply includes_true in E. repeat split; done.
  - assert (Hnot : ¬ In (req_bidderCode args) (bidders a)).
    { intros H. apply includes_true in H. congruence. }
    split; [apply in_or_app; right; by left|]. split; done.
Qed.

Lemma bidRequested_counts_bidder_once_witness :
  ∃ a',
    auctionCache
      (trackEvent sample_env
         (BID_REQUESTED {| req_auctionId := "A1"; req_bidderCode := "rubicon";
                           req_bids := [VNull; VNull] |})
         sample_state).1 !! "A1" = Some a'
    ∧ bidderRequests a' = 11
    ∧ bidders a' = ["appnexus"; "rubicon"; "openx"].
Proof.
  destruct (bidRequested_counts_bidder_once sample_env sample_state
              {| req_auctionId := "A1"; req_bidderCode := "rubicon";
                 req_bids := [VNull; VNull] |} sample_auction)
    as (a' & Hl & Hn & _ & Hsame & _); [reflexivity|].
  exists a'. split; [exact Hl|]. split; [exact Hn|].
  apply Hsame. simpl. tauto.
Defined.

(** What an index vendor receives is determined by the ad-unit count, the
    number of bidders, the two counters behind the fill rate and the
    rounded average CPM: bidder codes, individual CPMs, the no-bid count
    and the auction's timing do not influence it. *)
Theorem index_payload_hides_bid_detail (env : Env) (args : AuctionEndArgs)
    (st st' : State) (a a' : AuctionData) (i : nat) (vendor : VendorConfig) :
  config st = config st' →
  auctionCache st !! end_auctionId args = Some a →
  auctionCache st' !! end_auctionId args = Some a' →
  cfg_vendors (config st) !! i = Some vendor →
  v_dataMode vendor = Index →
  adUnits a = adUnits a' →
  length (bidders a) = length (bidders a') →
  bidderRequests a = bidderRequests a' →
  bidResponses a = bidResponses a' →
  avg (calculateCpmStats (cpms a)) = avg (calculateCpmStats (cpms a')) →
  is_Some ((onAuctionEnd env args st).2 !! i)
  ∧ (onAuctionEnd env args st).2 !! i = (onAuctionEnd env args st').2 !! i.
Proof.
  intros Hcfg Ha Ha' Hv Hmode Hu Hb Hreq Hresp Havg.
  assert (Hv' : cfg_vendors (config st') !! i = Some vendor)
    by (by rewrite <- Hcfg).
  rewrite (onAuctionEnd_request _ _ _ _ _ _ Ha Hv).
  rewrite (onAuctionEnd_request _ _ _ _ _ _ Ha' Hv').
  split; [by eexists|]. f_equal. unfold request_for, shaped_payload.
  rewrite Hmode. f_equal.
  unfold indexPayload_of, indexPayload_literal, auctionSignal_of, fillRate_of.
  by rewrite Hu, Hb, Hreq, Hresp, Havg.
Qed.

Lemma index_payload_hides_bid_detail_witness :
  (onAuctionEnd sample_env sample_end_args sample_state).2 !! 2%nat
  = (onAuctionEnd sample_env sample_end_args
       {| config := sample_config;
          auctionCache :=
            {[ "A1" :=
                 {| auctionId := "A1"; auctionStart := 5; adUnits := 3;
                    bidderRequests := 9; bidResponses := 2; noBids := 7;
                    cpms := [0.5%Q; 2.5%Q];
                    bidders := ["a"; "b"; "c"] |} ]} |}).2 !! 2%nat.
Proof.
  apply (index_payload_hides_bid_detail sample_env sample_end_args
           sample_state _ sample_auction
           {| auctionId := "A1"; auctionStart := 5; adUnits := 3;
              bidderRequests := 9; bidResponses := 2; noBids := 7;
              cpms := [0.5%Q; 2.5%Q]; bidders := ["a"; "b"; "c"] |}
           2 vendor_index); reflexivity.
Defined.
